(** * IMS viewer: the extension's script bridge, webview providers, tree
      provider and the parameter validator of the data-analysis service.

    The TypeScript sources (extension.ts and the provider classes) are embedded
    as programs of a small effect monad: a program runs helper processes, posts
    messages to a webview, shows notifications and reads or writes the state of
    its provider object.  The runtime's own library functions (JSON.parse,
    JSON.stringify, String) are parameters of the development. *)

From Stdlib Require Import ZArith Lia List Bool Ascii String.
From Stdlib Require Import DecimalString DecimalPos DecimalZ.
From stdpp Require Import gmap strings.
Import ListNotations.

Set Warnings "-register-all".

Local Open Scope string_scope.
Local Open Scope Z_scope.

(** ** JavaScript values *)

(** The values that cross the bridge are JSON values plus [undefined].
    Numbers are kept as integers: the sources test them only for truthiness
    and equality with small literals.  An object is an association list in
    property order; [get_prop] reads the first binding of a key. *)
Inductive jsval : Type :=
| JUndefined
| JNull
| JBool (b : bool)
| JNum (n : Z)
| JStr (s : string)
| JArr (xs : list jsval)
| JObj (fields : list (string * jsval)).

Definition dquote : string := String (ascii_of_nat 34) EmptyString.
Definition squote : string := String (ascii_of_nat 39) EmptyString.
Definition newline : string := String (ascii_of_nat 10) EmptyString.

(** [Boolean(v)]: the truthiness used by [if], [||] and [&&]. *)
Definition truthy (v : jsval) : bool :=
  match v with
  | JUndefined | JNull => false
  | JBool b => b
  | JNum n => negb (n =? 0)
  | JStr s => negb (String.eqb s EmptyString)
  | JArr _ | JObj _ => true
  end.

(** [a || b] *)
Definition js_or (a b : jsval) : jsval := if truthy a then a else b.

Fixpoint assoc_get (k : string) (l : list (string * jsval)) : option jsval :=
  match l with
  | [] => None
  | (k', v) :: l' => if String.eqb k k' then Some v else assoc_get k l'
  end.

(** [assoc_set k v l]: assignment of property [k]; an existing property keeps
    its position, a new one is added last. *)
Fixpoint assoc_set (k : string) (v : jsval) (l : list (string * jsval))
  : list (string * jsval) :=
  match l with
  | [] => [(k, v)]
  | (k', v') :: l' =>
      if String.eqb k k' then (k, v) :: l' else (k', v') :: assoc_set k v l'
  end.

(** [v.k]: [None] is the TypeError thrown on [undefined] and [null];
    a missing property reads as [undefined].  Properties of primitives and of
    arrays other than the ones the sources read are [undefined]. *)
Definition get_prop (v : jsval) (k : string) : option jsval :=
  match v with
  | JUndefined | JNull => None
  | JObj fs => Some (match assoc_get k fs with Some x => x | None => JUndefined end)
  | _ => Some JUndefined
  end.

(** [v?.k] *)
Definition get_prop_opt (v : jsval) (k : string) : jsval :=
  match get_prop v k with Some x => x | None => JUndefined end.

(** [a === b] against a string literal, as [switch] compares. *)
Definition is_str (v : jsval) (lit : string) : bool :=
  match v with JStr s => String.eqb s lit | _ => false end.

Definition string_of_Z (z : Z) : string := NilZero.string_of_int (Z.to_int z).

(** Decimal index keys of an array or string spread. *)
Definition index_key (i : nat) : string := NilZero.string_of_uint (Nat.to_uint i).

Fixpoint indexed {A} (i : nat) (l : list A) : list (string * A) :=
  match l with
  | [] => []
  | x :: l' => (index_key i, x) :: indexed (S i) l'
  end.

Fixpoint chars (s : string) : list jsval :=
  match s with
  | EmptyString => []
  | String c s' => JStr (String c EmptyString) :: chars s'
  end.

(** Own enumerable properties copied by an object spread [{...v}]. *)
Definition own_props (v : jsval) : list (string * jsval) :=
  match v with
  | JObj fs => fs
  | JArr xs => indexed 0 xs
  | JStr s => indexed 0 (chars s)
  | _ => []
  end.

(** [{ ...base, ...v }] where [base] is the object literal written so far. *)
Definition spread (base : list (string * jsval)) (v : jsval) : jsval :=
  JObj (fold_left (fun acc kv => assoc_set (fst kv) (snd kv) acc) (own_props v) base).

(** The ASCII white space: space, tab, line feed, carriage return, vertical
    tab and form feed. *)
Definition is_space (c : ascii) : bool :=
  let n := nat_of_ascii c in
  ((n =? 32) || (n =? 9) || (n =? 10) || (n =? 13) || (n =? 11) || (n =? 12))%nat.

(** Strings are held in UTF-8, as the literals of this file are.  Besides
    the six ASCII characters, the white space and line terminators that
    [String.prototype.trim] strips are U+00A0, of two bytes, and U+1680,
    U+2000 to U+200A, U+2028, U+2029, U+202F, U+205F, U+3000 and U+FEFF, of
    three bytes each. *)
Definition is_space2 (a b : ascii) : bool :=
  ((nat_of_ascii a =? 194) && (nat_of_ascii b =? 160))%nat.

Definition is_space3 (a b c : ascii) : bool :=
  let x := nat_of_ascii a in
  let y := nat_of_ascii b in
  let z := nat_of_ascii c in
  (((x =? 225) && (y =? 154) && (z =? 128))
   || ((x =? 226) && (y =? 128) &&
       (((128 <=? z) && (z <=? 138)) || (z =? 168) || (z =? 169) || (z =? 175)))
   || ((x =? 226) && (y =? 129) && (z =? 159))
   || ((x =? 227) && (y =? 128) && (z =? 128))
   || ((x =? 239) && (y =? 187) && (z =? 191)))%nat.

(** [s.trimStart()] *)
Fixpoint trim_start (s : string) : string :=
  match s with
  | EmptyString => EmptyString
  | String a s1 =>
      if is_space a then trim_start s1
      else
        match s1 with
        | EmptyString => s
        | String b s2 =>
            if is_space2 a b then trim_start s2
            else
              match s2 with
              | EmptyString => s
              | String c s3 => if is_space3 a b c then trim_start s3 else s
              end
        end
  end.

(** [s] holds white space only. *)
Definition blank (s : string) : bool :=
  match trim_start s with
  | EmptyString => true
  | String _ _ => false
  end.

(** [s.trimEnd()]: the text up to the white space that ends it. *)
Fixpoint trim_end (s : string) : string :=
  match s with
  | EmptyString => EmptyString
  | String c s' => if blank s then EmptyString else String c (trim_end s')
  end.

(** [s.trim()] *)
Definition trim (s : string) : string := trim_end (trim_start s).

(** U+3000, the ideographic space. *)
Definition ideographic_space : string :=
  String (ascii_of_nat 227) (String (ascii_of_nat 128) (String (ascii_of_nat 128) EmptyString)).

Example trim_wide_space :
  trim (ideographic_space ++ " {}" ++ String (ascii_of_nat 10) ideographic_space) = "{}".
Proof. reflexivity. Qed.

(** ** Helper processes and the effect monad *)

Inductive api := ApiExec | ApiExecAsync | ApiSpawn.

(** One launch of a helper script: the script file, its arguments and the
    [timeout] option handed to child_process ([None]: the option is absent). *)
Record call := {
  c_api : api;
  c_script : string;
  c_args : list string;
  c_timeout : option Z
}.

(** What [exec] hands to its callback.  [ex_error] holds [error.message]
    when the error argument is non-null (start failure, non-zero exit,
    kill at the timeout). *)
Record exec_result := {
  ex_error : option string;
  ex_stdout : string;
  ex_stderr : string
}.

Definition has_error (r : exec_result) : bool :=
  match ex_error r with Some _ => true | None => false end.

Definition nonempty (s : string) : bool := negb (String.eqb s EmptyString).

(** Events of a spawned child, in emission order. *)
Inductive child_event :=
| EvStdout (chunk : string)
| EvStderr (chunk : string)
| EvError (message : string)
| EvClose (code : option Z).

(** The output streams of a child. *)
Inductive stream := Out | Err.

(** How a child comes to its end: it never does; it exits, and ['close']
    reports the exit code ([None] when a signal ended it); or it cannot be
    started, which ['error'] reports, followed or not by a ['close']. *)
Inductive child_end :=
| StillRunning
| Exits (code : option Z)
| FailsToStart (message : string) (closed : option (option Z)).

(** One run of a spawned child: the chunks it writes, then its end.  A child
    emits ['close'] at most once, and nothing after it. *)
Record child_run := {
  chunks : list (stream * string);
  ending : child_end
}.

Definition chunk_event (c : stream * string) : child_event :=
  match fst c with
  | Out => EvStdout (snd c)
  | Err => EvStderr (snd c)
  end.

Definition end_events (e : child_end) : list child_event :=
  match e with
  | StillRunning => []
  | Exits code => [EvClose code]
  | FailsToStart message None => [EvError message]
  | FailsToStart message (Some code) => [EvError message; EvClose code]
  end.

Definition events_of (r : child_run) : list child_event :=
  (map chunk_event (chunks r) ++ end_events (ending r))%list.

Inductive level := LInfo | LWarning | LError.

(** Output-only effects. *)
Inductive action :=
| PostMessage (m : jsval)
| ShowMessage (l : level) (text : string)
| Refresh
| Workbench (command : string) (path : string).

(** Programs over a provider state [S].  [Throw] is an exception or a rejected
    promise; [Hang] awaits a promise that is never settled. *)
Inductive prog (S A : Type) : Type :=
| Ret (a : A)
| Throw (e : jsval)
| Hang
| Get (k : S -> prog S A)
| Put (s : S) (k : prog S A)
| Exec (c : call) (k : exec_result -> prog S A)
| Spawn (c : call) (k : list child_event -> prog S A)
| Act (a : action) (k : prog S A).

Arguments Ret {S A} a.
Arguments Throw {S A} e.
Arguments Hang {S A}.
Arguments Get {S A} k.
Arguments Put {S A} s k.
Arguments Exec {S A} c k.
Arguments Spawn {S A} c k.
Arguments Act {S A} a k.

Fixpoint bind {S A B} (p : prog S A) (f : A -> prog S B) : prog S B :=
  match p with
  | Ret a => f a
  | Throw e => Throw e
  | Hang => Hang
  | Get k => Get (fun s => bind (k s) f)
  | Put s k => Put s (bind k f)
  | Exec c k => Exec c (fun r => bind (k r) f)
  | Spawn c k => Spawn c (fun r => bind (k r) f)
  | Act a k => Act a (bind k f)
  end.

(** [try { p } catch (e) { h e }] *)
Fixpoint try_catch {S A} (p : prog S A) (h : jsval -> prog S A) : prog S A :=
  match p with
  | Ret a => Ret a
  | Throw e => h e
  | Hang => Hang
  | Get k => Get (fun s => try_catch (k s) h)
  | Put s k => Put s (try_catch k h)
  | Exec c k => Exec c (fun r => try_catch (k r) h)
  | Spawn c k => Spawn c (fun r => try_catch (k r) h)
  | Act a k => Act a (try_catch k h)
  end.

Declare Scope prog_scope.
Delimit Scope prog_scope with prog.
Notation "'let*' x ':=' p 'in' q" := (bind p (fun x => q))
  (at level 10, x name, p at level 100, q at level 200) : prog_scope.
Notation "'do*' p 'in' q" := (bind p (fun _ => q))
  (at level 10, p at level 100, q at level 200) : prog_scope.
Local Open Scope prog_scope.

Definition act {S} (a : action) : prog S unit := Act a (Ret tt).
Definition exec {S} (c : call) : prog S exec_result := Exec c Ret.
Definition spawn {S} (c : call) : prog S (list child_event) := Spawn c Ret.
Definition get {S} : prog S S := Get Ret.
Definition put {S} (s : S) : prog S unit := Put s (Ret tt).

(** An [Error] object of the given class. *)
Definition js_error (name message : string) : jsval :=
  JObj [("name", JStr name); ("message", JStr message)].

(** Property read that throws a TypeError on [undefined] and [null]. *)
Definition read_prop {S} (v : jsval) (k : string) : prog S jsval :=
  match get_prop v k with
  | Some x => Ret x
  | None => Throw (js_error "TypeError" ("Cannot read properties of " ++ k))
  end.

(** [JSON.parse(text)] with the runtime's parser: the value, or a thrown
    SyntaxError with the parser's message. *)
Definition parse {S} (JSON_parse : string -> string + jsval) (text : string)
  : prog S jsval :=
  match JSON_parse text with
  | inl e => Throw (js_error "SyntaxError" e)
  | inr v => Ret v
  end.

(** *** Running a program *)

(** What an observer sees: each process launch and each output action, the
    latter with the provider state at that moment. *)
Inductive titem (S : Type) :=
| TLaunch (c : call)
| TAct (a : action) (s : S).
Arguments TLaunch {S} c.
Arguments TAct {S} a s.

(** The environment answers each launch from the history so far.  [on_exec]
    is [None] when the child never terminates and nothing cuts it off: the
    callback is then never called. *)
Record oracle (S : Type) := {
  on_exec : list (titem S) -> call -> option exec_result;
  on_spawn : list (titem S) -> call -> child_run
}.
Arguments on_exec {S} o h c.
Arguments on_spawn {S} o h c.

Inductive outcome (S A : Type) :=
| Done (a : A) (s : S)
| Failed (e : jsval) (s : S)
| Hung (s : S).
Arguments Done {S A} a s.
Arguments Failed {S A} e s.
Arguments Hung {S A} s.

Fixpoint run {S A} (p : prog S A) (o : oracle S) (h : list (titem S)) (s : S)
  : list (titem S) * outcome S A :=
  match p with
  | Ret a => (h, Done a s)
  | Throw e => (h, Failed e s)
  | Hang => (h, Hung s)
  | Get k => run (k s) o h s
  | Put s' k => run k o h s'
  | Exec c k =>
      match on_exec o h c with
      | Some r => run (k r) o (h ++ [TLaunch c])%list s
      | None => ((h ++ [TLaunch c])%list, Hung s)
      end
  | Spawn c k => run (k (events_of (on_spawn o h c))) o (h ++ [TLaunch c])%list s
  | Act a k => run k o (h ++ [TAct a s])%list s
  end.

Definition final_state {S A} (r : outcome S A) : S :=
  match r with Done _ s | Failed _ s | Hung s => s end.

Definition launches {S} (t : list (titem S)) : list call :=
  flat_map (fun i => match i with TLaunch c => [c] | TAct _ _ => [] end) t.

Definition actions {S} (t : list (titem S)) : list action :=
  flat_map (fun i => match i with TLaunch _ => [] | TAct a _ => [a] end) t.

Definition posts {S} (t : list (titem S)) : list jsval :=
  flat_map (fun i => match i with TAct (PostMessage m) _ => [m] | _ => [] end) t.

Definition shown {S} (t : list (titem S)) : list (level * string) :=
  flat_map (fun i => match i with TAct (ShowMessage l m) _ => [(l, m)] | _ => [] end) t.

(** *** Facts about [run] *)

Lemma run_bind {S A B} (p : prog S A) (f : A -> prog S B) o h s :
  run (bind p f) o h s =
  match run p o h s with
  | (h1, Done a s1) => run (f a) o h1 s1
  | (h1, Failed e s1) => (h1, Failed e s1)
  | (h1, Hung s1) => (h1, Hung s1)
  end.
Proof.
  revert h s.
  induction p as [a|e| |k IH|s0 k IH|c k IH|c k IH|a k IH]; intros h s; cbn; auto.
  destruct (on_exec o h c); auto.
Qed.

Lemma run_try_catch {S A} (p : prog S A) (hd : jsval -> prog S A) o h s :
  run (try_catch p hd) o h s =
  match run p o h s with
  | (h1, Failed e s1) => run (hd e) o h1 s1
  | r => r
  end.
Proof.
  revert h s.
  induction p as [a|e| |k IH|s0 k IH|c k IH|c k IH|a k IH]; intros h s; cbn; auto.
  destruct (on_exec o h c); auto.
Qed.

(** A run only ever adds to the history. *)
Lemma run_extends {S A} (p : prog S A) o h s :
  exists t, fst (run p o h s) = (h ++ t)%list.
Proof.
  revert h s.
  induction p as [a|e| |k IH|s0 k IH|c k IH|c k IH|a k IH]; intros h s; cbn;
    try (exists []; rewrite app_nil_r; reflexivity); auto.
  - destruct (on_exec o h c) as [r|]; cbn.
    + destruct (IH r (h ++ [TLaunch c])%list s) as [t Ht].
      exists (TLaunch c :: t). rewrite Ht, <- app_assoc. reflexivity.
    + exists [TLaunch c]. reflexivity.
  - destruct (IH (events_of (on_spawn o h c)) (h ++ [TLaunch c])%list s) as [t Ht].
    exists (TLaunch c :: t). rewrite Ht, <- app_assoc. reflexivity.
  - destruct (IH (h ++ [TAct a s])%list s) as [t Ht].
    exists (TAct a s :: t). rewrite Ht, <- app_assoc. reflexivity.
Qed.

Lemma launches_app {S} (a b : list (titem S)) :
  launches (a ++ b) = (launches a ++ launches b)%list.
Proof. unfold launches. apply flat_map_app. Qed.


Lemma shown_app {S} (a b : list (titem S)) :
  shown (a ++ b) = (shown a ++ shown b)%list.
Proof. unfold shown. apply flat_map_app. Qed.

Lemma actions_app {S} (a b : list (titem S)) :
  actions (a ++ b) = (actions a ++ actions b)%list.
Proof. unfold actions. apply flat_map_app. Qed.

(** *** A program logic over the items a run adds *)

(** [wp p s Q]: for every environment, the items [p] adds to the history
    from state [s], and its outcome, satisfy [Q]. *)
Fixpoint wp {S A} (p : prog S A) (s : S)
    (Q : list (titem S) -> outcome S A -> Prop) : Prop :=
  match p with
  | Ret a => Q [] (Done a s)
  | Throw e => Q [] (Failed e s)
  | Hang => Q [] (Hung s)
  | Get k => wp (k s) s Q
  | Put s' k => wp k s' Q
  | Exec c k =>
      Q [TLaunch c] (Hung s) /\
      forall r, wp (k r) s (fun t o => Q (TLaunch c :: t) o)
  | Spawn c k =>
      forall r : child_run, wp (k (events_of r)) s (fun t o => Q (TLaunch c :: t) o)
  | Act a k => wp k s (fun t o => Q (TAct a s :: t) o)
  end.

(** The items a run adds to the history [h]. *)
Definition added {S A} (p : prog S A) (o : oracle S) (h : list (titem S)) (s : S)
  : list (titem S) :=
  skipn (length h) (fst (run p o h s)).

Lemma run_added {S A} (p : prog S A) o h s :
  fst (run p o h s) = (h ++ added p o h s)%list.
Proof.
  unfold added. destruct (run_extends p o h s) as [t Ht]. rewrite Ht.
  rewrite skipn_app, Nat.sub_diag, skipn_all. reflexivity.
Qed.

Lemma added_step {S A} (q : prog S A) o h s (x : titem S) :
  skipn (length h) (fst (run q o (h ++ [x])%list s)) = x :: added q o (h ++ [x])%list s.
Proof.
  rewrite run_added, <- app_assoc. cbn.
  rewrite skipn_app, Nat.sub_diag, skipn_all. reflexivity.
Qed.

Lemma added_nil {S} (h : list (titem S)) : skipn (length h) h = [].
Proof. apply skipn_all. Qed.

Lemma wp_sound {S A} (p : prog S A) s Q :
  wp p s Q -> forall o h, Q (added p o h s) (snd (run p o h s)).
Proof.
  revert s Q.
  induction p as [a|e| |k IH|s0 k IH|c k IH|c k IH|a k IH]; intros s Q Hwp o h.
  - unfold added. cbn [run fst snd]. rewrite added_nil. exact Hwp.
  - unfold added. cbn [run fst snd]. rewrite added_nil. exact Hwp.
  - unfold added. cbn [run fst snd]. rewrite added_nil. exact Hwp.
  - exact (IH s s Q Hwp o h).
  - exact (IH s0 Q Hwp o h).
  - destruct Hwp as [Hhang Hk]. unfold added. cbn [run].
    destruct (on_exec o h c) as [r|].
    + rewrite added_step. exact (IH r s _ (Hk r) o _).
    + cbn [fst snd]. rewrite skipn_app, Nat.sub_diag, added_nil. exact Hhang.
  - unfold added. cbn [run]. rewrite added_step. exact (IH _ s _ (Hwp _) o _).
  - unfold added. cbn [run]. rewrite added_step. exact (IH s _ Hwp o _).
Qed.

Lemma wp_mono {S A} (p : prog S A) s (Q Q' : list (titem S) -> outcome S A -> Prop) :
  (forall t o, Q t o -> Q' t o) -> wp p s Q -> wp p s Q'.
Proof.
  revert s Q Q'.
  induction p as [a|e| |k IH|s0 k IH|c k IH|c k IH|a k IH]; intros s Q Q' HQ Hwp;
    cbn in *; eauto.
  - destruct Hwp as [Hh Hk]. split; [auto|]. intros r. eapply IH; [|apply Hk]. cbn. auto.
  - intros evs. eapply IH; [|apply Hwp]. cbn. auto.
  - eapply IH; [|apply Hwp]. cbn. auto.
Qed.

Lemma wp_bind {S A B} (p : prog S A) (f : A -> prog S B) s Q :
  wp p s (fun t o =>
            match o with
            | Done a s' => wp (f a) s' (fun t' o' => Q (t ++ t')%list o')
            | Failed e s' => Q t (Failed e s')
            | Hung s' => Q t (Hung s')
            end) ->
  wp (bind p f) s Q.
Proof.
  revert s Q.
  induction p as [a|e| |k IH|s0 k IH|c k IH|c k IH|a k IH]; intros s Q Hwp;
    cbn in *; try solve [eauto].
  destruct Hwp as [Hh Hk]. split; [exact Hh|]. intros r. apply IH, Hk.
Qed.

Lemma wp_try_catch {S A} (p : prog S A) (hd : jsval -> prog S A) s Q :
  wp p s (fun t o =>
            match o with
            | Failed e s' => wp (hd e) s' (fun t' o' => Q (t ++ t')%list o')
            | other => Q t other
            end) ->
  wp (try_catch p hd) s Q.
Proof.
  revert s Q.
  induction p as [a|e| |k IH|s0 k IH|c k IH|c k IH|a k IH]; intros s Q Hwp;
    cbn in *; try solve [eauto].
  destruct Hwp as [Hh Hk]. split; [exact Hh|]. intros r. apply IH, Hk.
Qed.

(** *** Sample runtimes

    Instances of the runtime's library functions, for the closed examples:
    a parser that rejects every text, one that reads a single given text,
    the conversion to a string (an error object reads as its name and
    message), and a serializer. *)

Definition no_parse (text : string) : string + jsval :=
  inl "Unexpected token".

Definition parse_only (known : string) (value : jsval) (text : string)
  : string + jsval :=
  if String.eqb text known then inr value else inl "Unexpected token".

Fixpoint plain_String (v : jsval) : string :=
  match v with
  | JStr s => s
  | JUndefined => "undefined"
  | JNull => "null"
  | JBool true => "true"
  | JBool false => "false"
  | JNum n => string_of_Z n
  | JArr xs =>
      String.concat ","
        (map (fun x => match x with
                       | JUndefined | JNull => EmptyString
                       | _ => plain_String x
                       end) xs)
  | JObj [("name", JStr name); ("message", JStr message)] => name ++ ": " ++ message
  | JObj _ => "[object Object]"
  end.

(** A child that never terminates, and one that writes [out] and [err] and
    exits with [code]. *)
Definition endless_run : child_run := {| chunks := []; ending := StillRunning |}.

Definition exit_run (out err : string) (code : Z) : child_run :=
  {| chunks := [(Out, out); (Err, err)]; ending := Exits (Some code) |}.

(** A serializer for values whose strings need no escaping. *)
Fixpoint plain_stringify (v : jsval) : string :=
  match v with
  | JStr s => dquote ++ s ++ dquote
  | JArr xs => "[" ++ String.concat "," (map plain_stringify xs) ++ "]"
  | JObj fs =>
      "{" ++ String.concat ","
               (map (fun '(k, x) => dquote ++ k ++ dquote ++ ":" ++ plain_stringify x) fs)
          ++ "}"
  | other => plain_String other
  end.

(** The members a plain object inherits from [Object.prototype]; as a
    sample each is held as an empty object. *)
Definition object_members : list string :=
  ["constructor"; "hasOwnProperty"; "isPrototypeOf"; "propertyIsEnumerable";
   "toLocaleString"; "toString"; "valueOf"; "__proto__"; "__defineGetter__";
   "__defineSetter__"; "__lookupGetter__"; "__lookupSetter__"].

Definition plain_inherited (name : string) : option jsval :=
  if existsb (String.eqb name) object_members then Some (JObj []) else None.

(** ** The tree view: ImsTreeDataProvider *)

Module Tree.

(** The provider's fields.  [collections] is declared [string[]], and is
    assigned whatever the script printed under [collections]: it is kept as a
    value.  [tableMapping] is the object built by [loadTableMapping], in
    property order. *)
Record state := {
  isConnected : bool;
  collections : jsval;
  tableMapping : list (string * string)
}.

Definition set_isConnected (b : bool) : prog state unit :=
  let* st := get in
  put {| isConnected := b; collections := collections st;
         tableMapping := tableMapping st |}.

Definition set_collections (v : jsval) : prog state unit :=
  let* st := get in
  put {| isConnected := isConnected st; collections := v;
         tableMapping := tableMapping st |}.

(** [Object.keys(this.tableMapping)] *)
Definition mapping_keys (m : list (string * string)) : jsval :=
  JArr (map (fun kv => JStr (fst kv)) m).

Definition loadDefaultCollections : prog state unit :=
  let* st := get in
  set_collections (mapping_keys (tableMapping st)).

Definition refresh : prog state unit := act Refresh.

Definition check_call : call :=
  {| c_api := ApiExec; c_script := "get_collection_names.py";
     c_args := []; c_timeout := None |}.

(** Tree items: label, theme icon, context value and command
    (identifier, title, arguments). *)
Record tree_item := {
  label : string;
  iconPath : option string;
  contextValue : option string;
  tooltip : option string;
  command : option (string * string * list jsval)
}.

Definition connectItem : tree_item :=
  {| label := "数据库未连接 - 点击重新连接"; iconPath := Some "error";
     contextValue := None; tooltip := None;
     command := Some ("ims.reconnectDb", "重新连接数据库", []) |}.

Definition testItem : tree_item :=
  {| label := "测试数据库连接"; iconPath := Some "debug-console";
     contextValue := None; tooltip := None;
     command := Some ("ims.testDbConnection", "测试数据库连接", []) |}.

Definition root_items : list tree_item :=
  [ {| label := "数据库表"; iconPath := Some "database";
       contextValue := Some "databaseTablesRoot"; tooltip := None; command := None |};
    {| label := "业务视图"; iconPath := Some "graph";
       contextValue := Some "businessViewsRoot"; tooltip := None; command := None |};
    {| label := "管理视图"; iconPath := Some "tools";
       contextValue := Some "managementViewsRoot"; tooltip := None; command := None |} ].

Definition managementViews : list (string * string * string * string) :=
  [ ("物料管理", "物料信息管理", "package", "ims.showMaterialManagement");
    ("进销存管理", "采购管理 | 销售管理 | 库存管理", "archive", "ims.showInventoryManagement");
    ("数据录入管理", "数据录入和编辑", "edit", "ims.showDataEntry") ].

Definition getManagementViewsAsTreeItems : list tree_item :=
  map (fun '(name, description, icon, cmd) =>
         {| label := name; iconPath := Some icon;
            contextValue := Some "managementView"; tooltip := Some description;
            command :=
              if String.eqb cmd "ims.showInventoryManagement"
              then Some ("ims.showInventoryManagement", "进销存管理", [])
              else if String.eqb cmd "ims.showDataEntry"
              then Some ("ims.showDataEntry", "数据录入管理", [])
              else if String.eqb cmd "ims.showMaterialManagement"
              then Some ("ims.showMaterialManagement", "物料管理", [])
              else None |})
      managementViews.

Definition businessViews : list (string * string * string * string) :=
  [ ("📊 数据分析仪表板", "业务数据统计分析和趋势预测", "dashboard", "ims.showDataAnalysisDashboard");
    ("供应商对账表", "供应商账务汇总", "graph", "ims.showBusinessView");
    ("客户对账单", "客户账务汇总", "graph", "ims.showBusinessView");
    ("库存盘点报表", "库存统计分析", "graph", "ims.showBusinessView");
    ("销售统计报表", "销售数据分析", "graph", "ims.showBusinessView");
    ("采购统计报表", "采购数据分析", "graph", "ims.showBusinessView");
    ("应收账款统计", "应收款项汇总", "graph", "ims.showBusinessView");
    ("应付账款统计", "应付款项汇总", "graph", "ims.showBusinessView") ].

Definition getBusinessViewsAsTreeItems : list tree_item :=
  map (fun '(name, description, icon, cmd) =>
         {| label := name; iconPath := Some icon;
            contextValue := Some "businessView"; tooltip := Some description;
            command :=
              if String.eqb cmd "ims.showDataAnalysisDashboard"
              then Some (cmd, name, [])
              else Some (cmd, name, [JStr name; JStr name]) |})
      businessViews.

Section WithRuntime.

(** [JSON.parse]: the parsed value, or the message of the SyntaxError. *)
Variable JSON_parse : string -> string + jsval.
(** [String(v)], the conversion a template literal applies. *)
Variable js_String : jsval -> string.
(** [Object.prototype[name]]: the member a plain object inherits under
    [name] ([constructor], [toString], ...), if there is one.  It is a
    function or an object of the runtime, held here as a value. *)
Variable inherited : string -> option jsval.

(** The callback of [exec] in [checkConnection], then [this.refresh()]. *)
Definition checkConnection_callback (r : exec_result) : prog state unit :=
  do* (if has_error r || nonempty (ex_stderr r)
       then
         do* act (ShowMessage LWarning
                    ("动态获取数据表列表失败，将加载默认列表: " ++
                     (if nonempty (ex_stderr r)
                      then ex_stderr r else "未知错误"))) in
         do* set_isConnected true in
         loadDefaultCollections
       else
         try_catch
           (let* result := parse JSON_parse (ex_stdout r) in
            let* err := read_prop result "error" in
            if truthy err then
              do* act (ShowMessage LWarning
                         ("获取数据表列表时出错，将加载默认列表: " ++ js_String err)) in
              do* set_isConnected true in
              loadDefaultCollections
            else
              do* set_isConnected true in
              let* cs := read_prop result "collections" in
              set_collections (js_or cs (JArr [])))
           (fun _ =>
              do* act (ShowMessage LWarning "解析数据表列表时出错，将加载默认列表。") in
              do* set_isConnected true in
              loadDefaultCollections)) in
  refresh.

Definition checkConnection : prog state unit :=
  let* r := exec check_call in
  checkConnection_callback r.

Definition reconnect : prog state unit := checkConnection.

(** [this.tableMapping[collectionName] || collectionName]: the mapping's own
    entry under the name, or else the member the mapping inherits under
    it. *)
Definition collection_item (m : list (string * string)) (collectionName : jsval)
  : tree_item :=
  let chineseName :=
    match assoc_get (js_String collectionName)
            (map (fun kv => (fst kv, JStr (snd kv))) m) with
    | Some mapped => js_or mapped collectionName
    | None =>
        match inherited (js_String collectionName) with
        | Some member => js_or member collectionName
        | None => collectionName
        end
    end in
  {| label := js_String collectionName ++ " (" ++ js_String chineseName ++ ")";
     iconPath := Some "database"; contextValue := Some "table"; tooltip := None;
     command := Some ("ims.showTableData", "查看表数据", [collectionName; chineseName]) |}.

(** [getCollectionsAsTreeItems]: [this.collections.map(...)] throws on a value
    that is no array; the catch shows the error and returns no item. *)
Definition getCollectionsAsTreeItems : prog state (list tree_item) :=
  let* st := get in
  match collections st with
  | JArr xs => Ret (map (collection_item (tableMapping st)) xs)
  | _ =>
      do* act (ShowMessage LError
                 ("获取数据表列表失败: " ++
                  js_String (js_error "TypeError" "this.collections.map is not a function"))) in
      Ret []
  end.

Definition getChildren_connected (element : option tree_item)
  : prog state (list tree_item) :=
  match element with
  | None => Ret root_items
  | Some e =>
      match contextValue e with
      | Some cv =>
          if String.eqb cv "databaseTablesRoot" then getCollectionsAsTreeItems
          else if String.eqb cv "businessViewsRoot" then Ret getBusinessViewsAsTreeItems
          else if String.eqb cv "managementViewsRoot" then Ret getManagementViewsAsTreeItems
          else Ret []
      | None => Ret []
      end
  end.

Definition getChildren (element : option tree_item) : prog state (list tree_item) :=
  let* st := get in
  if negb (isConnected st) then Ret [connectItem; testItem]
  else getChildren_connected element.

(** The four completion paths of the callback. *)
Inductive check_path := FetchSucceeded | ExecFailed | BackendError | ParseFailed.

Definition path_of (r : exec_result) : check_path :=
  if has_error r || nonempty (ex_stderr r) then ExecFailed
  else match JSON_parse (ex_stdout r) with
       | inl _ => ParseFailed
       | inr result =>
           match get_prop result "error" with
           | None => ParseFailed
           | Some e => if truthy e then BackendError else FetchSucceeded
           end
       end.

(** *** Properties *)

Lemma connected_items_have_context element o h s t items s' :
  run (getChildren_connected element) o h s = (t, Done items s') ->
  forall i, In i items -> contextValue i <> None.
Proof.
  unfold getChildren_connected. intros Hrun i Hin.
  destruct element as [e|]; cbn in Hrun.
  - destruct (contextValue e) as [cv|]; cbn in Hrun.
    + destruct (String.eqb cv "databaseTablesRoot").
      { unfold getCollectionsAsTreeItems in Hrun. cbn in Hrun.
        destruct (collections s); cbn in Hrun; inversion Hrun; subst; try (destruct Hin).
        apply in_map_iff in Hin as [v [<- _]]. discriminate. }
      destruct (String.eqb cv "businessViewsRoot").
      { inversion Hrun; subst. cbn in Hin.
        repeat (destruct Hin as [<-|Hin]; [discriminate|]). destruct Hin. }
      destruct (String.eqb cv "managementViewsRoot").
      { inversion Hrun; subst. cbn in Hin.
        repeat (destruct Hin as [<-|Hin]; [discriminate|]). destruct Hin. }
      inversion Hrun; subst. destruct Hin.
    + inversion Hrun; subst. destruct Hin.
  - inversion Hrun; subst. cbn in Hin.
    repeat (destruct Hin as [<-|Hin]; [discriminate|]). destruct Hin.
Qed.

(** The callback always runs to its end, marks the provider connected, and
    only then refreshes; on the three failure paths the collections are the
    keys of the table mapping. *)
Lemma callback_run r o h s :
  exists t s',
    run (checkConnection_callback r) o h s = ((h ++ t ++ [TAct Refresh s'])%list, Done tt s')
    /\ isConnected s' = true
    /\ tableMapping s' = tableMapping s
    /\ launches t = []
    /\ (path_of r <> FetchSucceeded ->
        collections s' = mapping_keys (tableMapping s)
        /\ exists text, shown t = [(LWarning, text)])
    /\ (path_of r = FetchSucceeded ->
        shown t = [] /\
        exists result, JSON_parse (ex_stdout r) = inr result /\
          collections s' = js_or (get_prop_opt result "collections") (JArr [])).
Proof.
  unfold checkConnection_callback, path_of.
  rewrite run_bind.
  destruct (has_error r || nonempty (ex_stderr r)) eqn:Hfail.
  - cbn. eexists [_], _. rewrite <- app_assoc. cbn.
    repeat split; try reflexivity; try discriminate; eauto.
  - rewrite run_try_catch. unfold parse.
    destruct (JSON_parse (ex_stdout r)) as [e|result] eqn:Hparse.
    + cbn. eexists [_], _. rewrite <- app_assoc. cbn.
      repeat split; try reflexivity; try discriminate; eauto.
    + cbn [bind]. unfold read_prop, get_prop_opt.
      destruct (get_prop result "error") as [err|] eqn:Herr.
      * cbn [bind]. destruct (truthy err) eqn:Htr.
        -- cbn. eexists [_], _. rewrite <- app_assoc. cbn.
           repeat split; try reflexivity; try discriminate; eauto.
        -- assert (Hc : exists c, get_prop result "collections" = Some c).
           { destruct result; cbn in Herr |- *; try discriminate; eauto. }
           destruct Hc as [c Hc]. rewrite Hc. cbn.
           eexists [], _. cbn.
           repeat split; try reflexivity; try congruence.
           exists result. rewrite Hc. split; reflexivity.
      * cbn. eexists [_], _. rewrite <- app_assoc. cbn.
        repeat split; try reflexivity; try discriminate; eauto.
Qed.

(** C8: every completion path of [checkConnection] sets [isConnected] before
    it refreshes (the check runs to its end, the refresh is its last step and
    already sees [isConnected = true]); every failure path (exec error or
    stderr, backend-reported error, parse failure) sets [collections] to the
    keys of [tableMapping]; and after a completed check [getChildren] never
    takes the branch of the unconnected database: it behaves as its connected
    part and returns neither the reconnect item nor the test item. *)
Theorem checkConnection_always_connects o h s r :
  on_exec o h check_call = Some r ->
  exists t s',
    run checkConnection o h s = ((t ++ [TAct Refresh s'])%list, Done tt s')
    /\ isConnected s' = true
    /\ (path_of r <> FetchSucceeded -> collections s' = mapping_keys (tableMapping s))
    /\ (forall element o' h',
          run (getChildren element) o' h' s' =
          run (getChildren_connected element) o' h' s')
    /\ (forall element o' h' t' items s'',
          run (getChildren element) o' h' s' = (t', Done items s'') ->
          ~ In connectItem items /\ ~ In testItem items).
Proof.
  intros Hexec.
  destruct (callback_run r o (h ++ [TLaunch check_call])%list s)
    as (t1 & s1 & Hcb & Hconn & Hmap & _ & Hfail & _).
  exists (h ++ [TLaunch check_call] ++ t1)%list, s1.
  assert (Hgc : forall element o' h',
             run (getChildren element) o' h' s1 =
             run (getChildren_connected element) o' h' s1).
  { intros. unfold getChildren. cbn. rewrite Hconn. reflexivity. }
  split.
  { unfold checkConnection. cbn [bind exec run]. rewrite Hexec.
    change (fun r0 => bind (Ret r0) (fun r1 => checkConnection_callback r1))
      with (fun r0 => checkConnection_callback r0).
    cbn [bind]. rewrite Hcb. rewrite <- !app_assoc. reflexivity. }
  split; [exact Hconn|].
  split; [intros Hp; apply Hfail; exact Hp|].
  split; [exact Hgc|].
  intros element o' h' t' items s'' Hg. rewrite Hgc in Hg.
  pose proof (connected_items_have_context _ _ _ _ _ _ _ Hg) as Hctx.
  split; intros Hin; apply (Hctx _ Hin); reflexivity.
Qed.

End WithRuntime.

(** The mapping [loadTableMapping] falls back to. *)
Definition default_mapping : list (string * string) :=
  [ ("materials", "物料信息表"); ("suppliers", "供应商信息表");
    ("customers", "客户信息表"); ("purchase_params", "进货参数表");
    ("purchase_inbound", "进货入库明细表"); ("sales_outbound", "销售出库明细表");
    ("payment_details", "付款明细表"); ("receipt_details", "收款明细表");
    ("inventory_stats", "库存统计表") ].

(** The provider as its constructor leaves it before the first check. *)
Definition initial_state : state :=
  {| isConnected := false; collections := JArr []; tableMapping := default_mapping |}.

(** An environment in which the script cannot be run. *)
Definition failing_exec : exec_result :=
  {| ex_error := Some "Command failed"; ex_stdout := EmptyString;
     ex_stderr := "python: not found" |}.

Definition failing_oracle : oracle state :=
  {| on_exec := fun _ _ => Some failing_exec; on_spawn := fun _ _ => endless_run |}.

(** A collection named like a member of [Object.prototype] is shown with
    that member, not with its own name. *)
Example inherited_member_is_found :
  command (collection_item plain_String plain_inherited default_mapping (JStr "constructor"))
  = Some ("ims.showTableData", "查看表数据", [JStr "constructor"; JObj []]).
Proof. reflexivity. Qed.

Lemma checkConnection_always_connects_witness :
  exists t s',
    run (checkConnection no_parse plain_String) failing_oracle [] initial_state
      = ((t ++ [TAct Refresh s'])%list, Done tt s')
    /\ isConnected s' = true.
Proof.
  destruct (checkConnection_always_connects no_parse plain_String plain_inherited
              failing_oracle [] initial_state failing_exec eq_refl)
    as (t & s' & Hrun & Hconn & _).
  exists t, s'. split; assumption.
Defined.
End Tree.

(** ** data_analysis_service.py: the response of [get_dashboard_data] *)

Module Service.



Section WithClock.

(** [datetime.now().isoformat()] *)
Variable generated_at : string.


End WithClock.
End Service.

(** ** data_analysis_service.py: the parameter validator

    The validator's code is not among the sources; its behaviour is modelled
    from the specification and the implementation summary that describes it.
    Parameters are a Python dict from names to JSON values. *)

Module Validator.

(** Modelled from the spec: the white space taken off both ends of a
    string by the cleaner and by the conversion of a numeric string.  The
    summary speaks of spaces; they are read as the ASCII white space. *)
Fixpoint trim_start (s : string) : string :=
  match s with
  | EmptyString => EmptyString
  | String c s' => if is_space c then trim_start s' else s
  end.

Fixpoint trim_end (s : string) : string :=
  match s with
  | EmptyString => EmptyString
  | String c s' =>
      match trim_end s' with
      | EmptyString => if is_space c then EmptyString else String c EmptyString
      | t => String c t
      end
  end.

Definition trim (s : string) : string := trim_end (trim_start s).

(** *** Numeric parameters *)

(** One row of the numeric table: name, bounds, and the default that replaces
    a value that is no number. *)
Record numeric_field := {
  nf_name : string;
  nf_min : Z;
  nf_max : Z;
  nf_default : option Z
}.

(** Modelled from the spec: the table of [_validate_numeric_params] (page
    1-10000, page_size 1-1000, limit 1-10000) with the general defaults
    page = 1 and page_size = 50; no default is documented for limit. *)
Definition numeric_fields : list numeric_field :=
  [ {| nf_name := "page"; nf_min := 1; nf_max := 10000; nf_default := Some 1 |};
    {| nf_name := "page_size"; nf_min := 1; nf_max := 1000; nf_default := Some 50 |};
    {| nf_name := "limit"; nf_min := 1; nf_max := 10000; nf_default := None |} ].

(** A numeric string: an optional sign and at least one decimal digit, with
    surrounding white space allowed, as [int(str)] reads it. *)
Definition parse_int (s : string) : option Z :=
  match trim s with
  | EmptyString => None
  | String c rest =>
      if Ascii.eqb c "+"%char
      then Z.of_int <$> option_map Decimal.Pos (NilZero.uint_of_string rest)
      else Z.of_int <$> NilZero.int_of_string (String c rest)
  end.

(** Modelled from the spec: the type conversion of a numeric parameter. An
    integer is kept and a numeric string is converted; nothing else is a
    number. *)
Definition coerce_int (v : jsval) : option Z :=
  match v with
  | JNum n => Some n
  | JStr s => parse_int s
  | _ => None
  end.

(** Adjustment to the nearer boundary. *)
Definition clamp (lo hi n : Z) : Z :=
  if n <? lo then lo else if hi <? n then hi else n.

(** Modelled from the spec: validation of one numeric parameter. A value
    that is a number is clamped to the bounds; a value that is none is
    replaced by the default, and removed when the field has no default; a
    missing parameter is left to the defaults. *)
Definition validate_numeric (f : numeric_field) (params : gmap string jsval)
  : gmap string jsval :=
  match params !! nf_name f with
  | None => params
  | Some v =>
      match coerce_int v with
      | Some n => <[nf_name f := JNum (clamp (nf_min f) (nf_max f) n)]> params
      | None =>
          match nf_default f with
          | Some d => <[nf_name f := JNum d]> params
          | None => delete (nf_name f) params
          end
      end
  end.

(** Modelled from the spec: [_validate_numeric_params(params)], the rows of
    the table applied in turn. *)
Definition _validate_numeric_params (params : gmap string jsval) : gmap string jsval :=
  fold_left (fun p f => validate_numeric f p) numeric_fields params.

(** *** String parameters *)

(** The characters the cleaner removes: < > quotes & ; | backquote $ *)
Definition dangerous_codes : list nat := [60; 62; 34; 39; 38; 59; 124; 96; 36]%nat.

Definition is_dangerous (c : ascii) : bool :=
  existsb (Nat.eqb (nat_of_ascii c)) dangerous_codes.

Definition is_quote (c : ascii) : bool :=
  let n := nat_of_ascii c in ((n =? 34) || (n =? 39))%nat.

(** What is stripped from both ends: white space and quotes. *)
Definition strippable (c : ascii) : bool := is_space c || is_quote c.

Fixpoint strip_left (l : list ascii) : list ascii :=
  match l with
  | [] => []
  | c :: l' => if strippable c then strip_left l' else l
  end.

Definition strip (l : list ascii) : list ascii :=
  rev (strip_left (rev (strip_left l))).

Definition max_string_length : nat := 100.

(** Modelled from the spec: [_clean_string_input(input_str)], the three
    cleaning steps in the order the summary lists them: dangerous characters
    removed, length limited to 100 characters, leading and trailing spaces and
    quotes removed. *)
Definition clean_chars (l : list ascii) : list ascii :=
  strip (firstn max_string_length (List.filter (fun c => negb (is_dangerous c)) l)).

Definition _clean_string_input (input_str : string) : string :=
  string_of_list_ascii (clean_chars (list_ascii_of_string input_str)).

(** One row of the string table: name, allowed values (none listed: any
    value), and the default that replaces a value outside the list. *)
Record string_field := {
  sf_name : string;
  sf_allowed : list string;
  sf_default : option string
}.

(** Modelled from the spec: the table of [_validate_string_params]; the
    defaults of dimension and analysis_type are the per-method defaults, none
    is documented for method and format. *)
Definition string_fields : list string_field :=
  [ {| sf_name := "dimension";
       sf_allowed := ["month"; "quarter"; "product"; "customer"; "supplier"];
       sf_default := Some "month" |};
    {| sf_name := "analysis_type";
       sf_allowed := ["rfm"; "ranking"; "segmentation"; "overview"];
       sf_default := Some "rfm" |};
    {| sf_name := "method"; sf_allowed := []; sf_default := None |};
    {| sf_name := "format"; sf_allowed := ["json"; "csv"; "excel"];
       sf_default := None |} ].

Definition allowed (f : string_field) (s : string) : bool :=
  match sf_allowed f with
  | [] => true
  | values => existsb (String.eqb s) values
  end.

(** Modelled from the spec: validation of one string parameter. A string is
    cleaned; a cleaned value outside the allowed list, or a value that is no
    string, is replaced by the default and removed when the field has none. *)
Definition validate_string (f : string_field) (params : gmap string jsval)
  : gmap string jsval :=
  match params !! sf_name f with
  | None => params
  | Some v =>
      let cleaned :=
        match v with
        | JStr s => let c := _clean_string_input s in
                    if allowed f c then Some c else None
        | _ => None
        end in
      match cleaned with
      | Some c => <[sf_name f := JStr c]> params
      | None =>
          match sf_default f with
          | Some d => <[sf_name f := JStr d]> params
          | None => delete (sf_name f) params
          end
      end
  end.

(** Modelled from the spec: [_validate_string_params(params)]. *)
Definition _validate_string_params (params : gmap string jsval) : gmap string jsval :=
  fold_left (fun p f => validate_string f p) string_fields params.


(** *** Properties of the validator *)

(** *** Numeric parameters *)

Lemma clamp_bounds lo hi n : lo <= hi -> lo <= clamp lo hi n <= hi.
Proof.
  intros Hle. unfold clamp.
  destruct (n <? lo) eqn:Hlo; [lia|]. apply Z.ltb_ge in Hlo.
  destruct (hi <? n) eqn:Hhi; [lia|]. apply Z.ltb_ge in Hhi. lia.
Qed.

Lemma clamp_nearer lo hi n :
  (n < lo -> clamp lo hi n = lo)
  /\ (lo <= n -> hi < n -> clamp lo hi n = hi)
  /\ (lo <= n <= hi -> clamp lo hi n = n).
Proof.
  unfold clamp. repeat split; intros.
  - destruct (Z.ltb_spec n lo); [reflexivity | lia].
  - destruct (Z.ltb_spec n lo); [lia|]. destruct (Z.ltb_spec hi n); [reflexivity | lia].
  - destruct (Z.ltb_spec n lo); [lia|]. destruct (Z.ltb_spec hi n); [lia | reflexivity].
Qed.

(** What the numeric step does to a name: a row rewrites its own name only. *)
Definition numeric_outcome (f : numeric_field) (v : option jsval) : option jsval :=
  match v with
  | None => None
  | Some v =>
      match coerce_int v with
      | Some n => Some (JNum (clamp (nf_min f) (nf_max f) n))
      | None => JNum <$> nf_default f
      end
  end.

Lemma validate_numeric_same f (params : gmap string jsval) :
  validate_numeric f params !! nf_name f = numeric_outcome f (params !! nf_name f).
Proof.
  unfold validate_numeric, numeric_outcome.
  destruct (params !! nf_name f) as [v|] eqn:Hv; [|exact Hv].
  destruct (coerce_int v); [apply lookup_insert_eq|].
  destruct (nf_default f); [apply lookup_insert_eq | apply lookup_delete_eq].
Qed.

Lemma validate_numeric_other f (params : gmap string jsval) k :
  k <> nf_name f -> validate_numeric f params !! k = params !! k.
Proof.
  intros Hne. unfold validate_numeric.
  destruct (params !! nf_name f) as [v|]; [|reflexivity].
  destruct (coerce_int v); [apply lookup_insert_ne; congruence|].
  destruct (nf_default f); [apply lookup_insert_ne | apply lookup_delete_ne]; congruence.
Qed.

Lemma numeric_step params :
  Forall (fun f => _validate_numeric_params params !! nf_name f =
                   numeric_outcome f (params !! nf_name f)) numeric_fields.
Proof.
  unfold _validate_numeric_params, numeric_fields. cbn [fold_left].
  repeat constructor.
  - rewrite !validate_numeric_other by discriminate. apply validate_numeric_same.
  - rewrite validate_numeric_other by discriminate.
    rewrite validate_numeric_same, validate_numeric_other by discriminate. reflexivity.
  - rewrite validate_numeric_same, !validate_numeric_other by discriminate. reflexivity.
Qed.

(** Decimal strings hold no white space, so [trim] leaves them alone. *)
Fixpoint no_space (s : string) : bool :=
  match s with
  | EmptyString => true
  | String c s' => negb (is_space c) && no_space s'
  end.

Lemma trim_end_no_space s : no_space s = true -> trim_end s = s.
Proof.
  induction s as [|c s IH]; [reflexivity|]. cbn. intros H.
  apply andb_true_iff in H as [Hc Hs]. rewrite (IH Hs).
  destruct s; [|reflexivity]. apply negb_true_iff in Hc. now rewrite Hc.
Qed.

Lemma trim_no_space s : no_space s = true -> trim s = s.
Proof.
  intros H. unfold trim. destruct s as [|c s]; [reflexivity|].
  cbn [trim_start]. pose proof H as H'. cbn in H'. apply andb_true_iff in H' as [Hc _].
  apply negb_true_iff in Hc. rewrite Hc. apply trim_end_no_space, H.
Qed.

Lemma uint_no_space d : no_space (NilEmpty.string_of_uint d) = true.
Proof. induction d; cbn; auto. Qed.

Lemma decimal_no_space n : no_space (string_of_Z n) = true.
Proof.
  unfold string_of_Z. destruct (Z.to_int n) as [d|d]; cbn.
  - destruct d; cbn; rewrite ?uint_no_space; reflexivity.
  - destruct d; cbn; rewrite ?uint_no_space; reflexivity.
Qed.

Lemma coerce_decimal n : coerce_int (JStr (string_of_Z n)) = Some n.
Proof.
  cbn. unfold parse_int. rewrite (trim_no_space _ (decimal_no_space n)).
  unfold string_of_Z.
  assert (Hparse : NilZero.int_of_string (NilZero.string_of_int (Z.to_int n))
                   = Some (Z.to_int n)).
  { apply NilZero.isi; destruct n; cbn; try discriminate;
      intros H; injection H; apply DecimalPos.Unsigned.to_uint_nonnil. }
  destruct (NilZero.string_of_int (Z.to_int n)) as [|c rest] eqn:Hs.
  - discriminate Hparse.
  - destruct (Ascii.eqb c "+") eqn:Hplus.
    + apply Ascii.eqb_eq in Hplus. subst c. cbn in Hparse.
      destruct (NilEmpty.uint_of_string rest); discriminate.
    + rewrite Hparse. cbn. f_equal. apply DecimalZ.of_to.
Qed.
(** *** String cleaning *)

Lemma strip_left_head l c r : strip_left l = c :: r -> strippable c = false.
Proof.
  induction l as [|a l IH]; cbn; [discriminate|].
  destruct (strippable a) eqn:Ha; [exact IH|].
  intros H. injection H as <- _. exact Ha.
Qed.

Lemma strip_left_suffix l : exists pre, l = (pre ++ strip_left l)%list.
Proof.
  induction l as [|a l [pre IH]]; [exists []; reflexivity|]. cbn.
  destruct (strippable a).
  - exists (a :: pre). cbn. now rewrite <- IH.
  - exists []. reflexivity.
Qed.

Lemma strip_left_incl l x : In x (strip_left l) -> In x l.
Proof.
  destruct (strip_left_suffix l) as [pre H]. intros Hin. rewrite H.
  apply in_or_app. now right.
Qed.

Lemma strip_left_length l : (length (strip_left l) <= length l)%nat.
Proof.
  destruct (strip_left_suffix l) as [pre H]. rewrite H at 2. rewrite length_app. lia.
Qed.

Lemma strip_incl l x : In x (strip l) -> In x l.
Proof.
  unfold strip. intros H. apply in_rev in H. apply strip_left_incl in H.
  apply in_rev in H. now apply strip_left_incl.
Qed.

Lemma strip_length l : (length (strip l) <= length l)%nat.
Proof.
  unfold strip. rewrite length_rev.
  etransitivity; [apply strip_left_length|]. rewrite length_rev. apply strip_left_length.
Qed.

Lemma strip_first l c r : strip l = c :: r -> strippable c = false.
Proof.
  unfold strip. intros H.
  assert (Hk : strip_left (rev (strip_left l)) = (rev r ++ [c])%list).
  { rewrite <- (rev_involutive (strip_left (rev (strip_left l)))), H. reflexivity. }
  destruct (strip_left_suffix (rev (strip_left l))) as [pre Hpre].
  rewrite Hk in Hpre.
  assert (Hm : strip_left l = c :: rev (pre ++ rev r)).
  { rewrite <- (rev_involutive (strip_left l)), Hpre.
    rewrite app_assoc, rev_app_distr. reflexivity. }
  exact (strip_left_head _ _ _ Hm).
Qed.

Lemma strip_last l c r : strip l = (r ++ [c])%list -> strippable c = false.
Proof.
  unfold strip. intros H.
  assert (Hk : strip_left (rev (strip_left l)) = c :: rev r).
  { rewrite <- (rev_involutive (strip_left (rev (strip_left l)))), H.
    rewrite rev_app_distr. reflexivity. }
  exact (strip_left_head _ _ _ Hk).
Qed.

(** A cleaned text: free of dangerous characters, at most 100 characters,
    and with nothing to strip at either end. *)
Definition clean (l : list ascii) : Prop :=
  Forall (fun c => is_dangerous c = false) l
  /\ (length l <= max_string_length)%nat
  /\ (forall c r, l = c :: r -> strippable c = false)
  /\ (forall c r, l = (r ++ [c])%list -> strippable c = false).

Lemma firstn_incl {A} n (l : list A) x : In x (firstn n l) -> In x l.
Proof.
  intros H. rewrite <- (firstn_skipn n l). apply in_or_app. now left.
Qed.

Lemma clean_chars_clean l : clean (clean_chars l).
Proof.
  unfold clean, clean_chars. repeat split.
  - apply List.Forall_forall. intros c Hc. apply strip_incl in Hc.
    apply firstn_incl in Hc.
    apply List.filter_In in Hc as [_ Hc]. now apply negb_true_iff in Hc.
  - etransitivity; [apply strip_length|]. rewrite length_firstn. lia.
  - apply strip_first.
  - apply strip_last.
Qed.

Lemma clean_string_input_clean s : clean (list_ascii_of_string (_clean_string_input s)).
Proof.
  unfold _clean_string_input. rewrite list_ascii_of_string_of_list_ascii.
  apply clean_chars_clean.
Qed.

(** What the string step does to a name. *)
Definition string_outcome (f : string_field) (v : option jsval) : option jsval :=
  match v with
  | None => None
  | Some (JStr s) =>
      if allowed f (_clean_string_input s) then Some (JStr (_clean_string_input s))
      else JStr <$> sf_default f
  | Some _ => JStr <$> sf_default f
  end.

Lemma validate_string_same f (params : gmap string jsval) :
  validate_string f params !! sf_name f = string_outcome f (params !! sf_name f).
Proof.
  unfold validate_string, string_outcome.
  destruct (params !! sf_name f) as [v|] eqn:Hv; [|exact Hv].
  destruct v as [| | | |s| |];
    try (destruct (sf_default f); [apply lookup_insert_eq | apply lookup_delete_eq]).
  destruct (allowed f (_clean_string_input s)); [apply lookup_insert_eq|].
  destruct (sf_default f); [apply lookup_insert_eq | apply lookup_delete_eq].
Qed.

Lemma validate_string_other f (params : gmap string jsval) k :
  k <> sf_name f -> validate_string f params !! k = params !! k.
Proof.
  intros Hne. unfold validate_string.
  destruct (params !! sf_name f) as [v|]; [|reflexivity].
  destruct (match v with JStr s => _ | _ => None end);
    [apply lookup_insert_ne; congruence|].
  destruct (sf_default f); [apply lookup_insert_ne | apply lookup_delete_ne]; congruence.
Qed.

Lemma string_step params :
  Forall (fun f => _validate_string_params params !! sf_name f =
                   string_outcome f (params !! sf_name f)) string_fields.
Proof.
  unfold _validate_string_params, string_fields. cbn [fold_left].
  repeat constructor.
  - rewrite !validate_string_other by discriminate. apply validate_string_same.
  - rewrite !validate_string_other by discriminate.
    rewrite validate_string_same, validate_string_other by discriminate. reflexivity.
  - rewrite validate_string_other by discriminate.
    rewrite validate_string_same, !validate_string_other by discriminate. reflexivity.
  - rewrite validate_string_same, !validate_string_other by discriminate. reflexivity.
Qed.

Lemma existsb_eqb_In s values : existsb (String.eqb s) values = true -> In s values.
Proof.
  intros H. apply existsb_exists in H as [x [Hin Heq]].
  apply String.eqb_eq in Heq. now subst.
Qed.

Definition cleanb (l : list ascii) : bool :=
  forallb (fun c => negb (is_dangerous c)) l
  && (length l <=? max_string_length)%nat
  && match l with c :: _ => negb (strippable c) | [] => true end
  && match rev l with c :: _ => negb (strippable c) | [] => true end.

Lemma cleanb_clean l : cleanb l = true -> clean l.
Proof.
  unfold cleanb, clean. intros H.
  apply andb_true_iff in H as [H Hlast]. apply andb_true_iff in H as [H Hfirst].
  apply andb_true_iff in H as [Hall Hlen].
  repeat split.
  - apply List.Forall_forall. intros c Hc.
    rewrite forallb_forall in Hall. apply negb_true_iff, Hall, Hc.
  - apply Nat.leb_le, Hlen.
  - intros c r ->. now apply negb_true_iff in Hfirst.
  - intros c r ->. rewrite rev_app_distr in Hlast. now apply negb_true_iff in Hlast.
Qed.

(** The default of a row is itself a cleaned, allowed value. *)
Definition default_ok (f : string_field) : Prop :=
  match sf_default f with
  | Some d => cleanb (list_ascii_of_string d) = true /\ allowed f d = true
  | None => True
  end.

Lemma defaults_ok : Forall default_ok string_fields.
Proof. repeat constructor. Qed.

Lemma allowed_In f t : allowed f t = true -> sf_allowed f <> [] -> In t (sf_allowed f).
Proof.
  unfold allowed. destruct (sf_allowed f) as [|a l] eqn:Ha; [congruence|].
  intros H _. now apply existsb_eqb_In.
Qed.

Lemma string_outcome_clean f v w :
  default_ok f -> string_outcome f v = Some w ->
  exists t, w = JStr t /\ clean (list_ascii_of_string t)
            /\ (sf_allowed f <> [] -> In t (sf_allowed f)).
Proof.
  unfold default_ok, string_outcome. intros Hd Hw.
  assert (Hdefault : JStr <$> sf_default f = Some w ->
            exists t, w = JStr t /\ clean (list_ascii_of_string t)
                      /\ (sf_allowed f <> [] -> In t (sf_allowed f))).
  { destruct (sf_default f) as [d|]; [|discriminate]. destruct Hd as [Hc Ha].
    intros H. injection H as <-. exists d.
    split; [reflexivity|]. split; [apply cleanb_clean, Hc | apply allowed_In, Ha]. }
  destruct v as [v|]; [|discriminate].
  destruct v as [| | | |s| |]; try (apply Hdefault, Hw).
  destruct (allowed f (_clean_string_input s)) eqn:Ha; [|apply Hdefault, Hw].
  injection Hw as <-. exists (_clean_string_input s).
  split; [reflexivity|]. split; [apply clean_string_input_clean | apply allowed_In, Ha].
Qed.

(** C2: every numeric parameter the validator produces lies within its
    bounds (page 1..10000, page_size 1..1000, limit 1..10000); a numeric
    string is coerced to its integer, a value outside the bounds is adjusted
    to the nearer one, and a value that is no number is replaced by the
    default, page = 1 and page_size = 50. *)
Theorem numeric_params_within_bounds (params : gmap string jsval) :
  map (fun f => (nf_name f, nf_min f, nf_max f)) numeric_fields =
    [("page", 1, 10000); ("page_size", 1, 1000); ("limit", 1, 10000)]
  /\ Forall (fun f =>
       (forall v, _validate_numeric_params params !! nf_name f = Some v ->
          exists n, v = JNum n /\ nf_min f <= n <= nf_max f)
       /\ (forall v n, params !! nf_name f = Some v -> coerce_int v = Some n ->
             _validate_numeric_params params !! nf_name f =
               Some (JNum (clamp (nf_min f) (nf_max f) n))
             /\ (n < nf_min f -> clamp (nf_min f) (nf_max f) n = nf_min f)
             /\ (nf_max f < n -> clamp (nf_min f) (nf_max f) n = nf_max f)
             /\ (nf_min f <= n <= nf_max f -> clamp (nf_min f) (nf_max f) n = n)))
       numeric_fields
  /\ (forall n, coerce_int (JStr (string_of_Z n)) = Some n)
  /\ (forall v, params !! "page" = Some v -> coerce_int v = None ->
        _validate_numeric_params params !! "page" = Some (JNum 1))
  /\ (forall v, params !! "page_size" = Some v -> coerce_int v = None ->
        _validate_numeric_params params !! "page_size" = Some (JNum 50)).
Proof.
  pose proof (numeric_step params) as Hstep.
  split; [reflexivity|]. split; [|split; [exact coerce_decimal|]].
  - unfold numeric_fields in *.
    assert (Hfield : forall f,
              nf_min f <= nf_max f ->
              match nf_default f with Some d => nf_min f <= d <= nf_max f | None => True end ->
              _validate_numeric_params params !! nf_name f =
                numeric_outcome f (params !! nf_name f) ->
              (forall v, _validate_numeric_params params !! nf_name f = Some v ->
                 exists n, v = JNum n /\ nf_min f <= n <= nf_max f)
              /\ (forall v n, params !! nf_name f = Some v -> coerce_int v = Some n ->
                    _validate_numeric_params params !! nf_name f =
                      Some (JNum (clamp (nf_min f) (nf_max f) n))
                    /\ (n < nf_min f -> clamp (nf_min f) (nf_max f) n = nf_min f)
                    /\ (nf_max f < n -> clamp (nf_min f) (nf_max f) n = nf_max f)
                    /\ (nf_min f <= n <= nf_max f -> clamp (nf_min f) (nf_max f) n = n))).
    { intros f Hle Hdef Hout. split.
      - intros v Hv. rewrite Hout in Hv. unfold numeric_outcome in Hv.
        destruct (params !! nf_name f) as [x|]; [|discriminate].
        destruct (coerce_int x) as [n|].
        + injection Hv as <-. eexists. split; [reflexivity | apply clamp_bounds, Hle].
        + destruct (nf_default f) as [d|]; [|discriminate].
          injection Hv as <-. eauto.
      - intros v n Hv Hn. rewrite Hout, Hv. cbn. rewrite Hn.
        split; [reflexivity|].
        destruct (clamp_nearer (nf_min f) (nf_max f) n) as (Hlo & Hhi & Hin).
        repeat split; auto. intros Hgt. apply Hhi; lia. }
    repeat (apply Forall_cons_iff in Hstep as [? Hstep]).
    repeat (constructor; [apply Hfield; cbn; try lia; assumption|]).
    constructor.
  - unfold numeric_fields in Hstep.
    apply Forall_cons_iff in Hstep as [Hpage Hstep].
    apply Forall_cons_iff in Hstep as [Hsize _]. cbn [nf_name] in Hpage, Hsize.
    split; intros v Hv Hn.
    + rewrite Hpage, Hv. cbn. rewrite Hn. reflexivity.
    + rewrite Hsize, Hv. cbn. rewrite Hn. reflexivity.
Qed.

(** C4: a cleaned string holds none of the characters < > quotes & ; |
    backquote $, is at most 100 characters long and has no white space or
    quote left at either end; every string parameter the validator produces
    is such a string, and an enumerated one (dimension, analysis_type,
    format) is a value of its allowed list. *)
Theorem string_params_are_clean (params : gmap string jsval) :
  (forall s, clean (list_ascii_of_string (_clean_string_input s)))
  /\ Forall (fun f =>
       forall v, _validate_string_params params !! sf_name f = Some v ->
         exists t, v = JStr t /\ clean (list_ascii_of_string t)
                   /\ (sf_allowed f <> [] -> In t (sf_allowed f)))
       string_fields
  /\ map (fun f => (sf_name f, sf_allowed f)) string_fields =
       [("dimension", ["month"; "quarter"; "product"; "customer"; "supplier"]);
        ("analysis_type", ["rfm"; "ranking"; "segmentation"; "overview"]);
        ("method", []);
        ("format", ["json"; "csv"; "excel"])]
  /\ map nat_of_ascii (list_ascii_of_string "<>&;|`$") ++ [34; 39]%nat
       ≡ₚ dangerous_codes.
Proof.
  split; [exact clean_string_input_clean|]. split; [|split; [reflexivity|]].
  - pose proof (string_step params) as Hstep. pose proof defaults_ok as Hd.
    unfold string_fields in *.
    repeat (apply Forall_cons_iff in Hstep as [? Hstep]).
    repeat (apply Forall_cons_iff in Hd as [? Hd]).
    repeat (constructor;
            [intros v Hv;
             match goal with
             | H : _validate_string_params params !! ?k = string_outcome _ _,
               Hv : _validate_string_params params !! ?k = Some _ |- _ =>
                 rewrite H in Hv; eapply string_outcome_clean; [|exact Hv]; assumption
             end|]).
    constructor.
  - cbn. unfold dangerous_codes. solve_Permutation.
Qed.


(** *** Examples *)

Definition sample_params : gmap string jsval :=
  <["page" := JStr " 0 "]>
    (<["page_size" := JNum 5000]>
       (<["limit" := JStr "many"]>
          (<["dimension" := JStr " 'week<' "]>
             (<["format" := JStr "  csv; "]> ∅)))).

Example numeric_sample :
  _validate_numeric_params sample_params !! "page" = Some (JNum 1)
  /\ _validate_numeric_params sample_params !! "page_size" = Some (JNum 1000)
  /\ _validate_numeric_params sample_params !! "limit" = None.
Proof. vm_compute. auto. Qed.

Example string_sample :
  _clean_string_input " 'week<' " = "week"
  /\ _validate_string_params sample_params !! "dimension" = Some (JStr "month")
  /\ _validate_string_params sample_params !! "format" = Some (JStr "csv").
Proof. vm_compute. auto. Qed.

End Validator.

(** ** extension.ts: the data-analysis bridge and the business views *)

Module Extension.

(** State of a promise created by [new Promise]. *)
Inductive promise := Pending | Resolved (v : jsval) | Rejected (e : jsval).

(** [resolve] and [reject] act on a pending promise only. *)
Definition settle (p new : promise) : promise :=
  match p with Pending => new | _ => p end.

(** The closure state of [runDataAnalysisScript]. *)
Record das_state := {
  stdoutData : string;
  errorOutput : string;
  settled : promise
}.

Definition das_init : das_state :=
  {| stdoutData := EmptyString; errorOutput := EmptyString; settled := Pending |}.

(** The fallback text parsed when the script printed nothing. *)
Definition no_data_literal : string :=
  "{" ++ dquote ++ "success" ++ dquote ++ ": false, " ++
  dquote ++ "error" ++ dquote ++ ": " ++ dquote ++ "无数据返回" ++ dquote ++ "}".

(** The value that text denotes. *)
Definition no_data_response : jsval :=
  JObj [("success", JBool false); ("error", JStr "无数据返回")].

(** [`${code}`] of the exit code; [None] is the [null] of a child ended by a
    signal. *)
Definition code_text (code : option Z) : string :=
  match code with Some n => string_of_Z n | None => "null" end.

Definition is_zero (code : option Z) : bool :=
  match code with Some n => n =? 0 | None => false end.

(** [a || b] on strings. *)
Definition str_or (a b : string) : string := if nonempty a then a else b.

Definition failure_object (error rawOutput : string) : jsval :=
  JObj [("success", JBool false); ("error", JStr error); ("rawOutput", JStr rawOutput)].

Section WithRuntime.

(** [JSON.parse]: the parsed value, or the message of the SyntaxError. *)
Variable JSON_parse : string -> string + jsval.
Variable JSON_stringify : jsval -> string.
(** [String(v)], the conversion a template literal applies. *)
Variable js_String : jsval -> string.

Definition analysis_call (method : string) (params : jsval) : call :=
  {| c_api := ApiSpawn;
     c_script := "data_analysis_service.py";
     c_args := (["--method"; method] ++
                (if truthy params then ["--params"; JSON_stringify params] else []))%list;
     c_timeout := None |}.

(** The ['close'] listener. *)
Definition on_close (st : das_state) (code : option Z) : promise :=
  if is_zero code then
    match JSON_parse (str_or (trim (stdoutData st)) no_data_literal) with
    | inr result => Resolved result
    | inl parseError =>
        Resolved (failure_object
                    ("解析结果失败: " ++ js_String (js_error "SyntaxError" parseError))
                    (stdoutData st))
    end
  else
    Resolved (failure_object
                (str_or (errorOutput st) ("脚本执行失败，退出码: " ++ code_text code))
                (stdoutData st)).

(** One event of the child, through the four listeners. *)
Definition on_event (st : das_state) (ev : child_event) : das_state :=
  match ev with
  | EvStdout data =>
      {| stdoutData := stdoutData st ++ data; errorOutput := errorOutput st;
         settled := settled st |}
  | EvStderr data =>
      {| stdoutData := stdoutData st; errorOutput := errorOutput st ++ data;
         settled := settled st |}
  | EvError message =>
      {| stdoutData := stdoutData st; errorOutput := errorOutput st;
         settled := settle (settled st)
                      (Rejected (JStr ("无法启动数据分析脚本: " ++ message))) |}
  | EvClose code =>
      {| stdoutData := stdoutData st; errorOutput := errorOutput st;
         settled := settle (settled st) (on_close st code) |}
  end.

Definition after_events (evs : list child_event) : das_state :=
  fold_left on_event evs das_init.

(** [await] of a promise. *)
Definition await {S} (p : promise) : prog S jsval :=
  match p with
  | Resolved v => Ret v
  | Rejected e => Throw e
  | Pending => Hang
  end.

Definition runDataAnalysisScript {S} (method : string) (params : jsval) : prog S jsval :=
  let* evs := spawn (analysis_call method params) in
  await (settled (after_events evs)).

Definition post {S} (m : jsval) : prog S unit := act (PostMessage m).

(** The shape shared by the request handlers of the dashboard panel: the
    message carries [success], [data] and [error] of the result, and
    [dimension] of the parameters where the handler adds it. *)
Definition analysis_request {S} (method command failure : string)
    (with_dimension : bool) (params : jsval) : prog S unit :=
  try_catch
    (let* result := runDataAnalysisScript method params in
     let* success := read_prop result "success" in
     let* data := read_prop result "data" in
     let* dimension :=
       (if with_dimension then read_prop params "dimension" else Ret JUndefined) in
     let* error := read_prop result "error" in
     post (JObj ([("command", JStr command); ("success", success); ("data", data)] ++
                 (if with_dimension then [("dimension", dimension)] else []) ++
                 [("error", error)])%list))
    (fun error =>
       post (JObj [("command", JStr command); ("success", JBool false);
                   ("error", JStr (failure ++ js_String error))])).

Definition handleDashboardDataRequest {S} : jsval -> prog S unit :=
  analysis_request "get_dashboard_summary" "dashboardData" "获取仪表板数据失败: " false.
Definition handleSalesTrendRequest {S} : jsval -> prog S unit :=
  analysis_request "analyze_sales_trend" "salesTrendData" "获取销售趋势失败: " true.
Definition handleInventoryAnalysisRequest {S} : jsval -> prog S unit :=
  analysis_request "analyze_inventory_turnover" "inventoryAnalysisData" "获取库存分析失败: " false.
Definition handleCustomerAnalysisRequest {S} : jsval -> prog S unit :=
  analysis_request "analyze_customer_value" "customerAnalysisData" "获取客户分析失败: " false.
Definition handlePurchaseTrendRequest {S} : jsval -> prog S unit :=
  analysis_request "analyze_purchase_trend" "purchaseTrendData" "获取采购趋势失败: " true.
Definition handleComparisonAnalysisRequest {S} : jsval -> prog S unit :=
  analysis_request "generate_comparison_analysis" "comparisonAnalysisData" "生成对比分析失败: " false.

Definition handleDashboardExportRequest {S} (params : jsval) : prog S unit :=
  post (JObj [("command", JStr "exportResult"); ("success", JBool true);
              ("message", JStr "导出功能暂未实现")]).

(** The message listener of [showDataAnalysisDashboard]. *)
Definition dashboard_onDidReceiveMessage {S} (message : jsval) : prog S unit :=
  let* command := read_prop message "command" in
  let params := get_prop_opt message "params" in
  if is_str command "getDashboardData" then handleDashboardDataRequest params
  else if is_str command "getSalesTrend" then handleSalesTrendRequest params
  else if is_str command "getInventoryAnalysis" then handleInventoryAnalysisRequest params
  else if is_str command "getCustomerAnalysis" then handleCustomerAnalysisRequest params
  else if is_str command "getPurchaseTrend" then handlePurchaseTrendRequest params
  else if is_str command "getComparisonAnalysis" then handleComparisonAnalysisRequest params
  else if is_str command "exportDashboard" then handleDashboardExportRequest params
  else Ret tt.

(** The [switch] of [loadBusinessViewData]: per view name the script, the
    optional named arguments (parameter key, flag) and the format. *)
Definition business_view (viewName : string)
  : option (string * list (string * string) * string) :=
  let dates := [("startDate", "--start_date"); ("endDate", "--end_date")] in
  if String.eqb viewName "供应商对账表" then
    Some ("business_view_supplier_reconciliation.py",
          dates ++ [("supplierName", "--supplier_name")], "json")%list
  else if String.eqb viewName "客户对账单" then
    Some ("business_view_customer_reconciliation.py",
          dates ++ [("customerName", "--customer_name")], "json")%list
  else if String.eqb viewName "库存盘点报表" then
    Some ("business_view_inventory_report.py",
          dates ++ [("productName", "--product_name")], "json")%list
  else if String.eqb viewName "销售统计报表" then
    Some ("business_view_sales_report.py",
          dates ++ [("customerName", "--customer_name");
                    ("productName", "--product_name")], "json")%list
  else if String.eqb viewName "采购统计报表" then
    Some ("business_view_purchase_report.py",
          dates ++ [("supplierName", "--supplier_name");
                    ("productName", "--product_name")], "json")%list
  else if String.eqb viewName "应收账款统计" then
    Some ("business_view_receivables_report.py",
          dates ++ [("customerName", "--customer_name")], "summary")%list
  else if String.eqb viewName "应付账款统计" then
    Some ("business_view_payables_report.py",
          dates ++ [("supplierName", "--supplier_name")], "summary")%list
  else None.

(** [if (params?.key) args.push(flag, params.key)] for each optional argument. *)
Definition named_args (params : jsval) (opts : list (string * string)) : list string :=
  flat_map (fun '(key, flag) =>
              let v := get_prop_opt params key in
              if truthy v then [flag; js_String v] else [])
           opts.

Definition business_view_call (script : string) (args : list string) : call :=
  {| c_api := ApiSpawn; c_script := script; c_args := args; c_timeout := None |}.

(** The ['close'] listener of [loadBusinessViewData]. *)
Definition business_view_close {S} (dataOutput errorOutput : string)
    (code : option Z) : prog S unit :=
  do* post (JObj [("command", JStr "loading"); ("data", JBool false)]) in
  if is_zero code then
    match JSON_parse (trim dataOutput) with
    | inr jsonData => post (JObj [("command", JStr "data"); ("data", jsonData)])
    | inl e =>
        post (JObj [("command", JStr "error");
                    ("data", JStr ("数据解析失败: " ++
                                   js_String (js_error "SyntaxError" e) ++ newline ++
                                   "原始输出: " ++ dataOutput))])
    end
  else
    post (JObj [("command", JStr "error");
                ("data", JStr ("业务视图生成失败: " ++ str_or errorOutput "未知错误"))]).

(** The child's events through the four listeners, in emission order. *)
Fixpoint business_view_events {S} (evs : list child_event)
    (dataOutput errorOutput : string) : prog S unit :=
  match evs with
  | [] => Ret tt
  | EvStdout data :: rest => business_view_events rest (dataOutput ++ data) errorOutput
  | EvStderr data :: rest => business_view_events rest dataOutput (errorOutput ++ data)
  | EvError message :: rest =>
      do* post (JObj [("command", JStr "error");
                      ("data", JStr ("无法启动业务视图脚本: " ++ message))]) in
      business_view_events rest dataOutput errorOutput
  | EvClose code :: rest =>
      do* business_view_close dataOutput errorOutput code in
      business_view_events rest dataOutput errorOutput
  end.

Definition loadBusinessViewData {S} (viewName : string) (params : jsval) : prog S unit :=
  match business_view viewName with
  | None =>
      post (JObj [("command", JStr "error");
                  ("data", JStr ("不支持的业务视图: " ++ viewName))])
  | Some (script, opts, format) =>
      do* post (JObj [("command", JStr "loading"); ("data", JBool true)]) in
      let* evs := spawn (business_view_call script
                           (named_args params opts ++ ["--format"; format])%list) in
      business_view_events evs EmptyString EmptyString
  end.

(** The message listener of [showBusinessViewPanel]. *)
Definition business_view_onDidReceiveMessage {S} (viewName : string) (message : jsval)
  : prog S unit :=
  let* command := read_prop message "command" in
  if is_str command "loadData" || is_str command "refresh" then
    loadBusinessViewData viewName JUndefined
  else if is_str command "filter" then
    loadBusinessViewData viewName (get_prop_opt message "params")
  else Ret tt.

(** *** The commands and the other panels of extension.ts

    The lines written to the output channel, the environment variables set
    by [setDatabaseConfigEnv] and the files touched by [getDocsDirectory] and
    [createDevModeLink] are outside the model. *)

Definition spawn_call (script : string) (args : list string) : call :=
  {| c_api := ApiSpawn; c_script := script; c_args := args; c_timeout := None |}.

(** The listeners registered on a spawned child, over its events in emission
    order.  The two ['data'] listeners append to the buffers [out] and [err];
    [on_error] and [on_close] are the other two listeners, each answering
    with the settlement it asks of the promise around the child ([Pending]:
    none). *)
Fixpoint listen {S} (on_error : string -> prog S promise)
    (on_close : string -> string -> option Z -> prog S promise)
    (evs : list child_event) (out err : string) (p : promise) : prog S promise :=
  match evs with
  | [] => Ret p
  | EvStdout data :: rest => listen on_error on_close rest (out ++ data) err p
  | EvStderr data :: rest => listen on_error on_close rest out (err ++ data) p
  | EvError message :: rest =>
      let* q := on_error message in
      listen on_error on_close rest out err (settle p q)
  | EvClose code :: rest =>
      let* q := on_close out err code in
      listen on_error on_close rest out err (settle p q)
  end.

(** A listener that settles nothing. *)
Definition quietly {S} (p : prog S unit) : prog S promise :=
  do* p in Ret Pending.

Definition show_message {S} (l : level) (text : string) : prog S unit :=
  act (ShowMessage l text).

(** [error.message] inside a template literal. *)
Definition message_of (error : jsval) : string :=
  js_String (get_prop_opt error "message").

Definition runScript {S} (scriptName : string) (args : list string) : prog S jsval :=
  let* evs := spawn (spawn_call scriptName args) in
  let* p :=
    listen
      (fun message =>
         Ret (Rejected (js_error "Error"
                          ("无法启动脚本 '" ++ scriptName ++ "': " ++ message ++
                           ". 请确保Python环境已正确配置在系统PATH中。"))))
      (fun _ _ code =>
         Ret (if is_zero code then Resolved JUndefined
              else Rejected (js_error "Error"
                               ("脚本 '" ++ scriptName ++ "' 执行失败，退出码: " ++
                                code_text code ++ "."))))
      evs EmptyString EmptyString Pending in
  await p.

(** [getDocsDirectory(context)] *)
Variable docsDir : string.
Variable path_join : string -> string -> string.
Variable path_basename : string -> string.

Definition log_hint : string :=
  ". 详情请查看 " ++ dquote ++ "IMS Import Logs" ++ dquote ++ " 输出窗口。".

Definition runExcelToJsonProcess {S} (excelPath : string) : prog S unit :=
  let outputPath := path_join docsDir "parsed_data.json" in
  try_catch
    (do* runScript "parse_manager.py" [excelPath; outputPath] in
     do* runScript "generate_standard_material_table.py" ["--docs-dir"; docsDir] in
     show_message LInfo
       ("✅ " ++ path_basename excelPath ++ " 已成功转换为JSON格式并生成物料映射！"))
    (fun error =>
       show_message LError ("Excel转JSON失败: " ++ message_of error ++ log_hint)).

Definition runMigrationProcess {S} (excelPath : string) : prog S unit :=
  try_catch
    (do* runScript "import_to_mongodb_with_standard_codes.py" [] in
     do* runScript "verify_import.py" [] in
     show_message LInfo
       ("✅ " ++ path_basename excelPath ++ " 的完整数据迁移已成功完成！"))
    (fun error =>
       show_message LError ("完整迁移失败: " ++ message_of error ++ log_hint)).

Definition runDatabaseTest {S} : prog S unit :=
  let* evs := spawn (spawn_call "test_db_connection.py" []) in
  do* listen
        (fun message =>
           quietly (show_message LError ("无法启动数据库测试: " ++ message)))
        (fun _ _ code =>
           quietly
             (if is_zero code then
                show_message LInfo "数据库测试完成，请查看输出窗口了解详情。"
              else
                show_message LWarning "数据库测试发现问题，请查看输出窗口了解详情。"))
        evs EmptyString EmptyString Pending in
  Ret tt.

(** [s.indexOf(c)] and [s.lastIndexOf(c)] for a one-character [c]; [None] is
    the [-1] of a missing character.  The two braces are ASCII, so positions
    counted in bytes cut the text where positions in code units do. *)
Fixpoint indexOf (c : ascii) (s : string) : option nat :=
  match s with
  | EmptyString => None
  | String x s' =>
      if Ascii.eqb x c then Some 0%nat
      else match indexOf c s' with Some i => Some (S i) | None => None end
  end.

Fixpoint lastIndexOf (c : ascii) (s : string) : option nat :=
  match s with
  | EmptyString => None
  | String x s' =>
      match lastIndexOf c s' with
      | Some i => Some (S i)
      | None => if Ascii.eqb x c then Some 0%nat else None
      end
  end.

Definition open_brace : ascii := ascii_of_nat 123.
Definition close_brace : ascii := ascii_of_nat 125.

(** The [for] loop of [loadTableData] from index [i], where [s] is the text
    from [i] on and [steps] iterations remain: the index at which the brace
    count returns to zero. *)
Fixpoint balanced_at (s : string) (i steps : nat) (braceCount : Z) : option nat :=
  match steps, s with
  | S steps', String c s' =>
      let braceCount := if Ascii.eqb c open_brace then braceCount + 1 else braceCount in
      let braceCount := if Ascii.eqb c close_brace then braceCount - 1 else braceCount in
      if braceCount =? 0 then Some i else balanced_at s' (S i) steps' braceCount
  | _, _ => None
  end.

Fixpoint string_drop (n : nat) (s : string) : string :=
  match n, s with
  | S n', String _ s' => string_drop n' s'
  | _, _ => s
  end.

(** The first complete JSON object of the output, when it has braces. *)
Definition first_object (cleanOutput : string) : string :=
  match indexOf open_brace cleanOutput, lastIndexOf close_brace cleanOutput with
  | Some jsonStart, Some jsonEnd =>
      let endIndex :=
        match balanced_at (string_drop jsonStart cleanOutput) jsonStart
                (jsonEnd + 1 - jsonStart) 0 with
        | Some i => i
        | None => jsonStart
        end in
      substring jsonStart (endIndex + 1 - jsonStart) cleanOutput
  | _, _ => cleanOutput
  end.

Definition table_call (tableName : string) : call :=
  spawn_call "query_table_data.py" ["--type"; "table"; "--name"; tableName].

Definition loadTableData {S} (tableName : string) : prog S unit :=
  do* post (JObj [("command", JStr "loading"); ("data", JBool true)]) in
  let* evs := spawn (table_call tableName) in
  do* listen
        (fun message =>
           quietly (post (JObj [("command", JStr "error");
                                ("data", JStr ("无法启动查询脚本: " ++ message))])))
        (fun stdoutData errorOutput code =>
           quietly
             (do* post (JObj [("command", JStr "loading"); ("data", JBool false)]) in
              if is_zero code then
                match JSON_parse (first_object (trim stdoutData)) with
                | inr jsonData => post (JObj [("command", JStr "data"); ("data", jsonData)])
                | inl e =>
                    post (JObj [("command", JStr "error");
                                ("data", JStr ("数据解析失败: " ++
                                               js_String (js_error "SyntaxError" e) ++
                                               newline ++ "原始输出: " ++ stdoutData))])
                end
              else
                post (JObj [("command", JStr "error");
                            ("data", JStr ("查询失败: " ++ str_or errorOutput "未知错误"))])))
        evs EmptyString EmptyString Pending in
  Ret tt.

Definition crud_call (tableName operation : string) (data : jsval) : call :=
  spawn_call "crud_operations.py"
    ["--table"; tableName; "--operation"; operation; "--data"; JSON_stringify data].

(** The command of the answer, by operation. *)
Definition result_command (operation : string) : string :=
  if String.eqb operation "delete" then "recordDeleted"
  else if String.eqb operation "update" then "recordUpdated"
  else if String.eqb operation "create" then "recordSaved"
  else "operationResult".

(** The ['close'] listener of [handleCrudOperation]; the reload is started
    inside the [try] block. *)
Definition crud_close {S} (tableName operation : string) (data : jsval)
    (stdoutData errorOutput : string) (code : option Z) : prog S unit :=
  if is_zero code then
    try_catch
      (let* result := parse JSON_parse (trim stdoutData) in
       let* success := read_prop result "success" in
       let* message := read_prop result "message" in
       let* resultData := read_prop result "data" in
       let* type := read_prop data "type" in
       do* post (JObj [("command", JStr (result_command operation));
                       ("success", success);
                       ("message", js_or message (JStr (operation ++ "操作完成")));
                       ("data", resultData);
                       ("type", js_or type (JStr tableName))]) in
       if truthy success then loadTableData tableName else Ret tt)
      (fun e =>
         post (JObj [("command", JStr "error");
                     ("message", JStr ("操作结果解析失败: " ++ js_String e))]))
  else
    post (JObj [("command", JStr "error");
                ("message", JStr ("操作失败: " ++ str_or errorOutput "未知错误"))]).

Definition handleCrudOperation {S} (tableName operation : string) (data : jsval)
  : prog S unit :=
  let* evs := spawn (crud_call tableName operation data) in
  do* listen
        (fun message =>
           quietly (post (JObj [("command", JStr "operationResult");
                                ("success", JBool false);
                                ("message", JStr ("无法启动CRUD脚本: " ++ message))])))
        (fun stdoutData errorOutput code =>
           quietly (crud_close tableName operation data stdoutData errorOutput code))
        evs EmptyString EmptyString Pending in
  Ret tt.

(** The message listener of [showTableDataPanel]. *)
Definition table_onDidReceiveMessage {S} (tableName : string) (message : jsval)
  : prog S unit :=
  let* command := read_prop message "command" in
  if is_str command "loadData" || is_str command "refresh" then loadTableData tableName
  else if is_str command "addRecord" then
    handleCrudOperation tableName "add" (get_prop_opt message "data")
  else if is_str command "updateRecord" then
    handleCrudOperation tableName "update" (get_prop_opt message "data")
  else if is_str command "deleteRecord" then
    (* the id becomes _id, the document key of MongoDB *)
    handleCrudOperation tableName "delete"
      (JObj [("_id", get_prop_opt message "id"); ("type", get_prop_opt message "type")])
  else Ret tt.

(** What the user enters in the boxes and picks of [showAddMaterialDialog]:
    [None] is a dismissed box; a pick holds the [value] of the chosen item. *)
Record material_answers := {
  materialName : option string;
  materialModel : option string;
  material_unit : option string;
  platform : option string;
  type1 : option string;
  type2 : option string;
  supplierCode : option string
}.

(** The dialog goes on to the script when no box was dismissed or left
    empty and every pick was made. *)
Definition entered (a : option string) : option string :=
  match a with
  | Some s => if nonempty s then Some s else None
  | None => None
  end.

Definition materialInfo (a : material_answers) : option jsval :=
  match entered (materialName a), entered (materialModel a), entered (material_unit a),
        platform a, type1 a, type2 a, entered (supplierCode a) with
  | Some name, Some model, Some unit', Some p, Some t1, Some t2, Some code =>
      Some (JObj [("platform", JStr p); ("type1", JStr t1); ("type2", JStr t2);
                  ("supplier_code", JStr code); ("material_name", JStr name);
                  ("material_model", JStr model); ("unit", JStr unit')])
  | _, _, _, _, _, _, _ => None
  end.

Definition add_material_call (info : jsval) : call :=
  spawn_call "add_material.py" [JSON_stringify info].

Definition runAddMaterialScript {S} (info : jsval) : prog S jsval :=
  let* evs := spawn (add_material_call info) in
  let* p :=
    listen
      (fun message =>
         Ret (Rejected (js_error "Error" ("无法启动Python进程: " ++ message))))
      (fun _ stderr code =>
         Ret (if is_zero code then Resolved JUndefined
              else Rejected (js_error "Error"
                               (str_or stderr ("脚本执行失败，退出代码: " ++ code_text code)))))
      evs EmptyString EmptyString Pending in
  await p.

Definition showAddMaterialDialog {S} (a : material_answers) : prog S unit :=
  match materialInfo a, materialName a with
  | Some info, Some name =>
      try_catch
        (do* runAddMaterialScript info in
         do* show_message LInfo
               ("✅ 物料 " ++ dquote ++ name ++ dquote ++ " 添加成功！") in
         (* refresh the tree view *)
         act (Workbench "ims.refreshTreeView" EmptyString))
        (fun error => show_message LError ("添加物料失败: " ++ message_of error))
  | _, _ => Ret tt
  end.

(** The display names of the inventory actions. *)
Definition actionNames : list (string * string) :=
  [("purchase_order", "采购订单"); ("purchase_receipt", "采购入库");
   ("purchase_return", "采购退货"); ("purchase_report", "采购报表");
   ("sales_order", "销售订单"); ("sales_delivery", "销售出库");
   ("sales_return", "销售退货"); ("sales_report", "销售报表");
   ("inventory_check", "库存盘点"); ("inventory_transfer", "库存调拨");
   ("inventory_report", "库存报表"); ("stock_alert", "库存预警")].

(** [`${getActionName(action)}`]; properties the table inherits are not
    modelled. *)
Definition getActionName (action : jsval) : string :=
  match List.find (fun kv => String.eqb (fst kv) (js_String action)) actionNames with
  | Some kv => snd kv
  | None => js_String action
  end.

Definition handleInventoryAction {S} (message : jsval) : prog S unit :=
  show_message LInfo ("收到库存管理操作: " ++ js_String (get_prop_opt message "action")).

(** The shape shared by the six data loaders of the inventory panel.  The
    [try] block ends once the listeners are registered: its [catch] sees a
    failing [spawn] call only. *)
Definition data_load {S} (script : string) (args : list string)
    (startFailure loadFailure requestFailure : string) (message : jsval) : prog S unit :=
  let requestId := get_prop_opt message "requestId" in
  let failed (error : jsval) : prog S unit :=
    post (JObj [("requestId", requestId); ("success", JBool false); ("error", error)]) in
  let* evs :=
    try_catch (spawn (spawn_call script args))
      (fun error =>
         do* failed (JStr (requestFailure ++ js_String error)) in Ret []) in
  do* listen
        (fun message' => quietly (failed (JStr (startFailure ++ message'))))
        (fun stdoutData errorOutput code =>
           quietly
             (if is_zero code then
                try_catch
                  (let* result := parse JSON_parse (trim stdoutData) in
                   let* success := read_prop result "success" in
                   if truthy success then
                     post (JObj [("requestId", requestId); ("success", JBool true);
                                 ("data", js_or (get_prop_opt result "data") (JArr []))])
                   else
                     failed (js_or (get_prop_opt result "error") (JStr loadFailure)))
                  (fun parseError =>
                     failed (JStr ("数据解析失败: " ++ js_String parseError)))
              else
                failed (JStr (loadFailure ++ ": " ++ str_or errorOutput "未知错误"))))
        evs EmptyString EmptyString Pending in
  Ret tt.

Definition report_args : list string := ["--format"; "json"].
Definition table_args (name : string) : list string := ["--type"; "table"; "--name"; name].

Definition handleInventoryDataLoad {S} : jsval -> prog S unit :=
  data_load "business_view_inventory_report.py" report_args
    "无法启动库存报表脚本: " "库存数据加载失败" "处理库存数据请求失败: ".
Definition handlePurchaseDataLoad {S} : jsval -> prog S unit :=
  data_load "business_view_purchase_report.py" report_args
    "无法启动采购报表脚本: " "采购数据加载失败" "处理采购数据请求失败: ".
Definition handleSalesDataLoad {S} : jsval -> prog S unit :=
  data_load "business_view_sales_report.py" report_args
    "无法启动销售报表脚本: " "销售数据加载失败" "处理销售数据请求失败: ".
Definition handleSuppliersLoad {S} : jsval -> prog S unit :=
  data_load "query_table_data.py" (table_args "suppliers")
    "无法启动供应商查询脚本: " "供应商数据加载失败" "处理供应商数据请求失败: ".
Definition handleCustomersLoad {S} : jsval -> prog S unit :=
  data_load "query_table_data.py" (table_args "customers")
    "无法启动客户查询脚本: " "客户数据加载失败" "处理客户数据请求失败: ".
Definition handleMaterialsLoad {S} : jsval -> prog S unit :=
  data_load "query_table_data.py" (table_args "materials")
    "无法启动物料查询脚本: " "物料数据加载失败" "处理物料数据请求失败: ".

(** The [runPython] case of the inventory panel.  The progress notification
    is not modelled; the promise handed to it is awaited by nobody, so its
    rejection reaches no handler.  An [action] that is no string is handed
    to the child as its text. *)
Definition runPython {S} (message : jsval) : prog S unit :=
  let action := get_prop_opt message "data" in
  let actionResult (fields : list (string * jsval)) : prog S unit :=
    post (JObj ([("command", JStr "actionResult"); ("action", action)] ++ fields)%list) in
  let* evs := spawn (spawn_call "inventory_management_handler.py" [js_String action]) in
  do* listen
        (fun message' =>
           let errorMsg := "无法启动Python进程: " ++ message' in
           quietly
             (do* show_message LError errorMsg in
              actionResult [("success", JBool false); ("error", JStr errorMsg)]))
        (fun stdout stderr code =>
           quietly
             (if is_zero code then
                actionResult [("success", JBool true); ("data", JStr stdout)]
              else
                let errorMsg := str_or stderr ("执行失败，退出代码: " ++ code_text code) in
                do* show_message LError (getActionName action ++ "执行失败: " ++ errorMsg) in
                actionResult [("success", JBool false); ("error", JStr errorMsg)]))
        evs EmptyString EmptyString Pending in
  Ret tt.

(** The message listener of [showInventoryManagementPanel]. *)
Definition inventory_onDidReceiveMessage {S} (message : jsval) : prog S unit :=
  let* command := read_prop message "command" in
  let selector := js_or command (get_prop_opt message "action") in
  if is_str selector "load_inventory_data" then handleInventoryDataLoad message
  else if is_str selector "load_purchase_orders" then handlePurchaseDataLoad message
  else if is_str selector "load_sales_orders" then handleSalesDataLoad message
  else if is_str selector "load_suppliers" then handleSuppliersLoad message
  else if is_str selector "load_customers" then handleCustomersLoad message
  else if is_str selector "load_materials" then handleMaterialsLoad message
  else if is_str selector "runPython" then runPython message
  else if is_str selector "inventoryAction" then handleInventoryAction message
  else Ret tt.

(** The commands [activate] registers whose handlers live in extension.ts
    and open no panel, each with the argument it is invoked with: the file
    the user clicked ([None]: the command was run without one) or the
    answers given to the dialog. *)
Inductive palette_command :=
| ims_convertToJson (uri : option string)
| ims_migrateToNewFormat (uri : option string)
| ims_testDbConnection
| ims_addMaterial (a : material_answers)
| ims_openSettings.

Definition no_file_message : string :=
  "请在文件浏览器中右键点击一个Excel文件来执行此命令。".

Definition executeCommand {S} (c : palette_command) : prog S unit :=
  match c with
  | ims_convertToJson None => show_message LError no_file_message
  | ims_convertToJson (Some excelPath) => runExcelToJsonProcess excelPath
  | ims_migrateToNewFormat None => show_message LError no_file_message
  | ims_migrateToNewFormat (Some excelPath) => runMigrationProcess excelPath
  | ims_testDbConnection => runDatabaseTest
  | ims_addMaterial a => showAddMaterialDialog a
  | ims_openSettings => act (Workbench "workbench.action.openSettings" "imsViewer")
  end.

(** *** Properties of [runDataAnalysisScript] *)

(** Events that settle nothing, and what they accumulate. *)
Definition is_data (ev : child_event) : bool :=
  match ev with EvStdout _ | EvStderr _ => true | _ => false end.

Fixpoint stdout_of (evs : list child_event) : string :=
  match evs with
  | [] => EmptyString
  | EvStdout d :: r => d ++ stdout_of r
  | _ :: r => stdout_of r
  end.

Fixpoint stderr_of (evs : list child_event) : string :=
  match evs with
  | [] => EmptyString
  | EvStderr d :: r => d ++ stderr_of r
  | _ :: r => stderr_of r
  end.

Lemma string_app_assoc (a b c : string) : (a ++ b) ++ c = a ++ (b ++ c).
Proof.
  induction a as [|x a IH]; [reflexivity|].
  change (String x ((a ++ b) ++ c) = String x (a ++ (b ++ c))). now rewrite IH.
Qed.

Lemma string_app_empty_r (a : string) : a ++ EmptyString = a.
Proof.
  induction a as [|x a IH]; [reflexivity|].
  change (String x (a ++ EmptyString) = String x a). now rewrite IH.
Qed.

Lemma settled_sticky evs st :
  settled st <> Pending -> settled (fold_left on_event evs st) = settled st.
Proof.
  revert st. induction evs as [|ev evs IH]; intros st Hst; cbn; [reflexivity|].
  rewrite IH.
  - destruct ev; cbn; try reflexivity; destruct (settled st); cbn; congruence.
  - destruct ev; cbn; try assumption; destruct (settled st); cbn; congruence.
Qed.

Lemma data_events pre st :
  forallb is_data pre = true ->
  fold_left on_event pre st =
  {| stdoutData := stdoutData st ++ stdout_of pre;
     errorOutput := errorOutput st ++ stderr_of pre;
     settled := settled st |}.
Proof.
  revert st. induction pre as [|ev pre IH]; intros st Hd; cbn.
  - rewrite !string_app_empty_r. destruct st; reflexivity.
  - cbn in Hd. apply andb_true_iff in Hd as [Hev Hd].
    destruct ev; try discriminate; rewrite (IH _ Hd); cbn;
      rewrite ?string_app_assoc; reflexivity.
Qed.

(** An event list is all data, or has a first event that is not. *)
Lemma events_split (evs : list child_event) :
  forallb is_data evs = true \/
  exists pre ev rest,
    evs = (pre ++ ev :: rest)%list /\ forallb is_data pre = true /\ is_data ev = false.
Proof.
  induction evs as [|ev evs IH]; [left; reflexivity|].
  destruct (is_data ev) eqn:Hev.
  - destruct IH as [Hall | (pre & ev' & rest & -> & Hpre & Hev')].
    + left. cbn. now rewrite Hev, Hall.
    + right. exists (ev :: pre), ev', rest. cbn. rewrite Hev, Hpre. auto.
  - right. exists [], ev, evs. auto.
Qed.

Lemma after_first_settling pre ev rest :
  forallb is_data pre = true -> is_data ev = false ->
  settled (after_events (pre ++ ev :: rest)) =
  match ev with
  | EvError message => Rejected (JStr ("无法启动数据分析脚本: " ++ message))
  | EvClose code =>
      on_close {| stdoutData := stdout_of pre; errorOutput := stderr_of pre;
                  settled := Pending |} code
  | _ => Pending
  end.
Proof.
  intros Hpre Hev. unfold after_events.
  rewrite fold_left_app. cbn [fold_left]. rewrite (data_events _ _ Hpre). cbn.
  destruct ev; try discriminate; rewrite settled_sticky; cbn; try reflexivity.
  - discriminate.
  - unfold on_close. cbn. destruct (is_zero code); [|discriminate].
    destruct (JSON_parse _); discriminate.
Qed.

Lemma after_data_only evs :
  forallb is_data evs = true -> settled (after_events evs) = Pending.
Proof. intros H. unfold after_events. rewrite (data_events _ _ H). reflexivity. Qed.

(** What a child has written to its two streams. *)
Definition output_of (r : child_run) : string := stdout_of (map chunk_event (chunks r)).
Definition errors_of (r : child_run) : string := stderr_of (map chunk_event (chunks r)).

Lemma chunks_are_data cs : forallb is_data (map chunk_event cs) = true.
Proof.
  induction cs as [|[[|] d] cs IH]; cbn; auto.
Qed.

(** The promise after a whole run of the child. *)
Lemma settled_of_run r :
  settled (after_events (events_of r)) =
  match ending r with
  | StillRunning => Pending
  | Exits code =>
      on_close {| stdoutData := output_of r; errorOutput := errors_of r;
                  settled := Pending |} code
  | FailsToStart message _ =>
      Rejected (JStr ("无法启动数据分析脚本: " ++ message))
  end.
Proof.
  unfold events_of, output_of, errors_of.
  pose proof (chunks_are_data (chunks r)) as Hd.
  destruct (ending r) as [|code|message [code|]]; cbn [end_events].
  - rewrite app_nil_r. apply after_data_only, Hd.
  - apply (after_first_settling _ (EvClose code) [] Hd eq_refl).
  - apply (after_first_settling _ (EvError message) [EvClose code] Hd eq_refl).
  - apply (after_first_settling _ (EvError message) [] Hd eq_refl).
Qed.

(** The listeners over a run: what the end of the child sets off. *)
Definition ended {S} (on_error : string -> prog S promise)
    (on_close : string -> string -> option Z -> prog S promise)
    (r : child_run) : prog S promise :=
  match ending r with
  | StillRunning => Ret Pending
  | Exits code =>
      let* q := on_close (output_of r) (errors_of r) code in
      Ret (settle Pending q)
  | FailsToStart message None =>
      let* q := on_error message in
      Ret (settle Pending q)
  | FailsToStart message (Some code) =>
      let* q := on_error message in
      let* q' := on_close (output_of r) (errors_of r) code in
      Ret (settle (settle Pending q) q')
  end.

Lemma listen_chunks {S} (on_error : string -> prog S promise) on_close cs rest out err p :
  listen on_error on_close (map chunk_event cs ++ rest) out err p =
  listen on_error on_close rest
    (out ++ stdout_of (map chunk_event cs)) (err ++ stderr_of (map chunk_event cs)) p.
Proof.
  revert out err.
  induction cs as [|[[|] d] cs IH]; intros out err; cbn.
  - rewrite !string_app_empty_r. reflexivity.
  - rewrite IH, string_app_assoc. reflexivity.
  - rewrite IH, string_app_assoc. reflexivity.
Qed.

Lemma listen_run {S} (on_error : string -> prog S promise) on_close r :
  listen on_error on_close (events_of r) EmptyString EmptyString Pending =
  ended on_error on_close r.
Proof.
  unfold events_of, ended. rewrite listen_chunks.
  change (EmptyString ++ stdout_of (map chunk_event (chunks r))) with (output_of r).
  change (EmptyString ++ stderr_of (map chunk_event (chunks r))) with (errors_of r).
  destruct (ending r) as [|code|message [code|]]; reflexivity.
Qed.

Lemma run_runDataAnalysisScript {S} method params (o : oracle S) h s :
  run (runDataAnalysisScript method params) o h s =
  ((h ++ [TLaunch (analysis_call method params)])%list,
   match settled (after_events (events_of (on_spawn o h (analysis_call method params)))) with
   | Resolved v => Done v s
   | Rejected e => Failed e s
   | Pending => Hung s
   end).
Proof.
  unfold runDataAnalysisScript. cbn.
  destruct (settled _); reflexivity.
Qed.

Section Settles.

(** [JSON.parse] reads the fallback text as the object it denotes. *)
Hypothesis parse_no_data : JSON_parse no_data_literal = inr no_data_response.

(** C10: the promise of [runDataAnalysisScript] is rejected exactly when the
    child cannot be started; a non-zero exit code, or output that is no JSON
    at exit code zero, resolves it with [{success:false, error, rawOutput}];
    empty output at exit code zero resolves it with
    [{success:false, error:'无数据返回'}]. *)
Theorem runDataAnalysisScript_settles {S} method params (o : oracle S) h s :
  let r := on_spawn o h (analysis_call method params) in
  let res := snd (run (runDataAnalysisScript method params) o h s) in
  ((exists e, res = Failed e s) <->
   (exists message closed, ending r = FailsToStart message closed))
  /\ (forall code,
        ending r = Exits code ->
        (is_zero code = false ->
         res = Done (failure_object
                       (str_or (errors_of r) ("脚本执行失败，退出码: " ++ code_text code))
                       (output_of r)) s)
        /\ (is_zero code = true ->
            forall e, JSON_parse (str_or (trim (output_of r)) no_data_literal) = inl e ->
            res = Done (failure_object
                          ("解析结果失败: " ++ js_String (js_error "SyntaxError" e))
                          (output_of r)) s)
        /\ (is_zero code = true -> trim (output_of r) = EmptyString ->
            res = Done no_data_response s)).
Proof.
  intros r res. subst res. rewrite run_runDataAnalysisScript. cbn [snd]. fold r.
  rewrite settled_of_run. split.
  - split.
    + intros [e He]. destruct (ending r) as [|code|message closed]; [discriminate He| |eauto].
      unfold on_close in He.
      destruct (is_zero code); [destruct (JSON_parse (str_or _ _))|];
        cbn in He; discriminate He.
    + intros (message & closed & ->). eauto.
  - intros code ->. unfold on_close. cbn [stdoutData errorOutput].
    repeat split.
    + intros ->. reflexivity.
    + intros -> e ->. reflexivity.
    + intros -> ->. unfold str_or. cbn [nonempty String.eqb negb].
      rewrite parse_no_data. reflexivity.
Qed.

End Settles.

(** *** The two envelopes *)












End WithRuntime.


(** A child that prints nothing and exits with code 0. *)
Definition silent_child : oracle unit :=
  {| on_exec := fun _ _ => None;
     on_spawn := fun _ _ => exit_run EmptyString EmptyString 0 |}.

(** A child that prints a line of wide spaces and exits with code 0. *)
Definition blank_child : oracle unit :=
  {| on_exec := fun _ _ => None;
     on_spawn := fun _ _ =>
       exit_run (ideographic_space ++ newline) EmptyString 0 |}.

(** Output that is white space only counts as no output. *)
Example wide_space_output_is_no_data :
  snd (run (runDataAnalysisScript (parse_only no_data_literal no_data_response)
              plain_stringify plain_String "get_dashboard_summary" JNull)
           blank_child [] tt)
  = Done no_data_response tt.
Proof. vm_compute. reflexivity. Qed.

(** A child that prints an empty object and exits with code 0. *)
Definition empty_object_child : oracle unit :=
  {| on_exec := fun _ _ => None;
     on_spawn := fun _ _ => exit_run "{}" EmptyString 0 |}.

(** The message delivered for a result without fields repeats the three
    fields as [undefined]: it carries no success flag. *)
Example empty_object_response_has_no_flag :
  posts (fst (run (handleDashboardDataRequest (parse_only "{}" (JObj [])) plain_stringify
                     plain_String JNull)
                  empty_object_child [] tt))
  = [JObj [("command", JStr "dashboardData"); ("success", JUndefined);
           ("data", JUndefined); ("error", JUndefined)]].
Proof. vm_compute. reflexivity. Qed.


Lemma runDataAnalysisScript_settles_witness :
  snd (run (runDataAnalysisScript (parse_only no_data_literal no_data_response)
              plain_stringify plain_String "get_dashboard_summary" JNull)
           silent_child [] tt)
  = Done no_data_response tt.
Proof.
  destruct (runDataAnalysisScript_settles
              (parse_only no_data_literal no_data_response) plain_stringify plain_String
              eq_refl "get_dashboard_summary" JNull silent_child [] tt) as [_ Hclose].
  destruct (Hclose (Some 0) eq_refl) as (_ & _ & Hempty).
  exact (Hempty eq_refl eq_refl).
Defined.
End Extension.

(** ** Webview providers: the panel and [show()] *)

Module Webview.

(** A webview panel as the window holds it. *)
Record panel := {
  viewType : string;
  title : string;
  viewColumn : Z;
  visible : bool;
  html : string;
  messageListeners : nat;
  disposeListeners : nat;
  disposed : bool
}.

(** The window's panels in creation order, the length of
    [context.subscriptions], and the provider's [_panel] field as an index
    into the panels ([None] is [undefined]). *)
Record world := {
  panels : list panel;
  subscriptions : nat;
  _panel : option nat
}.

(** What differs between the provider classes: the view type, the title, and
    whether the message listener is registered with [context.subscriptions]
    (the supplier provider passes no third argument). *)
Record provider := {
  p_viewType : string;
  p_title : string;
  p_message_subscribed : bool
}.

Definition supplierManagement : provider :=
  {| p_viewType := "ims.supplierManagement"; p_title := "供应商管理";
     p_message_subscribed := false |}.
Definition materialManagement : provider :=
  {| p_viewType := "materialManagement"; p_title := "物料管理";
     p_message_subscribed := true |}.
Definition customerManagement : provider :=
  {| p_viewType := "customerManagement"; p_title := "客户管理";
     p_message_subscribed := true |}.
Definition dataAnalysisDashboard : provider :=
  {| p_viewType := "dataAnalysisDashboard"; p_title := "数据分析仪表板";
     p_message_subscribed := true |}.
Definition dataEntry : provider :=
  {| p_viewType := "imsDataEntry"; p_title := "数据录入管理";
     p_message_subscribed := true |}.

Definition ViewColumn_One : Z := 1.

(** [panel.reveal(column)] *)
Definition reveal (column : Z) (p : panel) : panel :=
  {| viewType := viewType p; title := title p; viewColumn := column; visible := true;
     html := html p; messageListeners := messageListeners p;
     disposeListeners := disposeListeners p; disposed := disposed p |}.

Section Provider.

Variable k : provider.
(** The text [_getHtmlForWebview] returns: the file's content with the
    resource paths replaced, or the fallback page. *)
Variable page : string.

(** [vscode.window.createWebviewPanel(viewType, title, ViewColumn.One, ...)],
    then the assignment of the page and the two registrations. *)
Definition created_panel : panel :=
  {| viewType := p_viewType k; title := p_title k; viewColumn := ViewColumn_One;
     visible := true; html := page; messageListeners := 1; disposeListeners := 1;
     disposed := false |}.

Definition show (w : world) : world :=
  match _panel w with
  | Some i =>
      {| panels := alter (reveal ViewColumn_One) i (panels w);
         subscriptions := subscriptions w; _panel := Some i |}
  | None =>
      {| panels := (panels w ++ [created_panel])%list;
         subscriptions :=
           (subscriptions w + (if p_message_subscribed k then 1 else 0) + 1)%nat;
         _panel := Some (length (panels w)) |}
  end.

(** The user closes panel [i]: the panel is disposed and its dispose
    listeners run; the one [show] registered resets [_panel]. *)
Definition close_panel (p : panel) : panel :=
  {| viewType := viewType p; title := title p; viewColumn := viewColumn p;
     visible := false; html := html p; messageListeners := messageListeners p;
     disposeListeners := disposeListeners p; disposed := true |}.

Definition dispose (i : nat) (w : world) : world :=
  match panels w !! i with
  | Some p =>
      if disposed p then w
      else {| panels := alter close_panel i (panels w);
              subscriptions := subscriptions w;
              _panel := if (0 <? disposeListeners p)%nat then None else _panel w |}
  | None => w
  end.

(** The user hides panel [i] behind another tab or moves it. *)
Definition hide (i : nat) (w : world) : world :=
  {| panels := alter (fun p =>
        {| viewType := viewType p; title := title p; viewColumn := viewColumn p;
           visible := false; html := html p; messageListeners := messageListeners p;
           disposeListeners := disposeListeners p; disposed := disposed p |}) i (panels w);
     subscriptions := subscriptions w; _panel := _panel w |}.

Definition move (i : nat) (column : Z) (w : world) : world :=
  {| panels := alter (fun p =>
        {| viewType := viewType p; title := title p; viewColumn := column;
           visible := visible p; html := html p; messageListeners := messageListeners p;
           disposeListeners := disposeListeners p; disposed := disposed p |}) i (panels w);
     subscriptions := subscriptions w; _panel := _panel w |}.

Inductive event := EShow | EDispose (i : nat) | EHide (i : nat) | EMove (i : nat) (column : Z).

Definition step (w : world) (ev : event) : world :=
  match ev with
  | EShow => show w
  | EDispose i => dispose i w
  | EHide i => hide i w
  | EMove i c => move i c w
  end.

(** The window before the provider was ever shown. *)
Definition initial : world := {| panels := []; subscriptions := 0; _panel := None |}.

Inductive reachable : world -> Prop :=
| reach_initial : reachable initial
| reach_step w ev : reachable w -> reachable (step w ev).

(** [_panel], when defined, is a live panel that carries the reset listener. *)
Definition panel_live (w : world) : Prop :=
  forall i, _panel w = Some i ->
    exists p, panels w !! i = Some p /\ disposed p = false /\ (0 < disposeListeners p)%nat.

(** *** Properties of [show] *)

Lemma map_alter_same {B} (proj : panel -> B) (f : panel -> panel) i (l : list panel) :
  (forall p, proj (f p) = proj p) -> map proj (alter f i l) = map proj l.
Proof.
  intros Hf. revert i. induction l as [|p l IH]; intros [|i]; cbn; f_equal; auto.
Qed.

Lemma lookup_alter_some (f : panel -> panel) i j (l : list panel) q :
  alter f i l !! j = Some q ->
  exists p, l !! j = Some p /\ (q = p \/ (i = j /\ q = f p)).
Proof.
  intros H. destruct (decide (i = j)) as [->|Hne].
  - rewrite list_lookup_alter_eq in H. destruct (l !! j) as [p|]; [|discriminate].
    injection H as <-. eauto.
  - rewrite list_lookup_alter_ne in H by assumption. eauto.
Qed.

(** The invariant of the reachable windows: [_panel] is a live panel with the
    reset listener, and no other panel is live. *)
Definition inv (w : world) : Prop :=
  panel_live w /\
  (forall j p, panels w !! j = Some p -> disposed p = false -> _panel w = Some j).

Lemma inv_alter (f : panel -> panel) i w :
  (forall p, disposed (f p) = disposed p) ->
  (forall p, disposeListeners (f p) = disposeListeners p) ->
  inv w ->
  inv {| panels := alter f i (panels w); subscriptions := subscriptions w;
         _panel := _panel w |}.
Proof.
  intros Hd Hl [Hlive Hone]. split.
  - intros j Hj. cbn in *. destruct (Hlive j Hj) as (p & Hp & Hpd & Hpl).
    destruct (decide (i = j)) as [->|Hne].
    + exists (f p). rewrite list_lookup_alter_eq, Hp, Hd, Hl. auto.
    + exists p. rewrite list_lookup_alter_ne by assumption. auto.
  - intros j q Hq Hqd. cbn in *.
    apply lookup_alter_some in Hq as (p & Hp & [-> | [-> ->]]).
    + eauto.
    + rewrite Hd in Hqd. eauto.
Qed.

Lemma inv_step w ev : inv w -> inv (step w ev).
Proof.
  intros Hinv. destruct ev as [|i|i|i c]; cbn.
  - unfold show. destruct (_panel w) as [i|] eqn:Hp.
    + rewrite <- Hp. apply inv_alter; auto.
    + destruct Hinv as [_ Hone]. split.
      * intros j Hj. cbn in *. injection Hj as <-. exists created_panel.
        rewrite lookup_app_r by lia. rewrite Nat.sub_diag. cbn. auto.
      * intros j p Hj Hd. cbn in *.
        destruct (decide (j < length (panels w))%nat) as [Hlt|Hge].
        -- rewrite lookup_app_l in Hj by assumption.
           specialize (Hone _ _ Hj Hd). congruence.
        -- rewrite lookup_app_r in Hj by lia.
           destruct (j - length (panels w))%nat as [|n] eqn:Hn; [|destruct n; discriminate].
           f_equal. lia.
  - unfold dispose. destruct (panels w !! i) as [p|] eqn:Hp; [|exact Hinv].
    destruct (disposed p) eqn:Hd; [exact Hinv|].
    destruct Hinv as [Hlive Hone].
    pose proof (Hone _ _ Hp Hd) as Hcur.
    destruct (Hlive _ Hcur) as (p' & Hp' & _ & Hl). rewrite Hp in Hp'. injection Hp' as <-.
    apply Nat.ltb_lt in Hl. rewrite Hl. split.
    + intros j Hj. discriminate.
    + intros j q Hq Hqd. cbn in *.
      destruct (lookup_alter_some _ _ _ _ _ Hq) as (p0 & Hp0 & [-> | [-> ->]]).
      * specialize (Hone _ _ Hp0 Hqd). rewrite Hcur in Hone. injection Hone as <-.
        rewrite Hp in Hp0. injection Hp0 as <-.
        rewrite list_lookup_alter_eq, Hp in Hq. cbn in Hq.
        injection Hq as Hq. rewrite <- Hq in Hd. discriminate Hd.
      * discriminate Hqd.
  - apply inv_alter; auto.
  - apply inv_alter; auto.
Qed.

Lemma reachable_inv w : reachable w -> inv w.
Proof.
  induction 1 as [|w ev _ IH].
  - split; [intros i Hi; discriminate | intros j p Hj; discriminate].
  - apply inv_step, IH.
Qed.

Lemma reveal_twice p : reveal ViewColumn_One (reveal ViewColumn_One p) = reveal ViewColumn_One p.
Proof. reflexivity. Qed.

Lemma show_show w : show (show w) = show w.
Proof.
  unfold show. destruct (_panel w) as [i|] eqn:Hp; cbn.
  - f_equal. rewrite list_alter_alter_eq. apply list_alter_ext; auto.
  - f_equal. replace (length (panels w)) with (length (panels w) + 0)%nat at 1 by lia.
    rewrite alter_app_r. reflexivity.
Qed.

(** C9: while a panel exists, [show()] only reveals it: no panel is created,
    no page is set and no listener is registered, so a second call leaves the
    window as the first did; once the panel has been disposed ([_panel] is
    reset), [show()] creates a panel again. *)
Theorem show_idempotent_while_panel_exists w :
  reachable w ->
  show (show w) = show w
  /\ (forall i, _panel w = Some i ->
        _panel (show w) = Some i
        /\ length (panels (show w)) = length (panels w)
        /\ map html (panels (show w)) = map html (panels w)
        /\ map messageListeners (panels (show w)) = map messageListeners (panels w)
        /\ map disposeListeners (panels (show w)) = map disposeListeners (panels w)
        /\ subscriptions (show w) = subscriptions w)
  /\ (_panel w = None ->
        panels (show w) = (panels w ++ [created_panel])%list
        /\ _panel (show w) = Some (length (panels w)))
  /\ (forall i, _panel w = Some i ->
        _panel (dispose i w) = None
        /\ length (panels (show (dispose i w))) = S (length (panels w))
        /\ _panel (show (dispose i w)) = Some (length (panels w))).
Proof.
  intros Hreach. apply reachable_inv in Hreach as [Hlive _].
  split; [apply show_show|]. split; [|split].
  - intros i Hi. unfold show. rewrite Hi. cbn.
    rewrite length_alter. repeat split; auto using map_alter_same.
  - intros Hn. unfold show. rewrite Hn. cbn. auto.
  - intros i Hi. destruct (Hlive i Hi) as (p & Hp & Hd & Hl).
    assert (Hdis : dispose i w =
                   {| panels := alter close_panel i (panels w);
                      subscriptions := subscriptions w; _panel := None |}).
    { unfold dispose. rewrite Hp, Hd. apply Nat.ltb_lt in Hl. rewrite Hl. reflexivity. }
    rewrite Hdis. unfold show. cbn.
    rewrite length_app, length_alter. cbn. repeat split; auto. lia.
Qed.

End Provider.

Definition sample_page : string := "<!DOCTYPE html>".

(** The window after the material provider was shown once. *)
Definition shown_once : world := step materialManagement sample_page initial EShow.

Lemma show_idempotent_while_panel_exists_witness :
  show materialManagement sample_page (show materialManagement sample_page shown_once)
    = show materialManagement sample_page shown_once
  /\ length (panels (show materialManagement sample_page shown_once)) = 1%nat
  /\ length (panels (show materialManagement sample_page
                        (dispose 0 shown_once))) = 2%nat.
Proof.
  destruct (show_idempotent_while_panel_exists materialManagement sample_page shown_once
              (reach_step _ _ initial EShow (reach_initial _ _)))
    as (Hidem & Hkeep & _ & Hagain).
  split; [exact Hidem|]. split.
  - exact (proj1 (proj2 (Hkeep 0%nat eq_refl))).
  - exact (proj1 (proj2 (Hagain 0%nat eq_refl))).
Defined.
End Webview.

(** ** The providers' message handlers *)

(** [_sendMessage]: posts only while [_panel] is defined. *)
Definition sendMessage (m : jsval) : prog Webview.world unit :=
  let* w := get in
  match Webview._panel w with
  | Some _ => act (PostMessage m)
  | None => Ret tt
  end.

(** [promisify(exec)]: the promise is rejected with the error when [exec]
    reports one, and resolved with the two outputs otherwise. *)
Definition execAsync {S} (c : call) : prog S exec_result :=
  let* r := exec c in
  match ex_error r with
  | Some message => Throw (js_error "Error" message)
  | None => Ret r
  end.

(** [v.toString()] *)
Definition toString {S} (js_String : jsval -> string) (v : jsval) : prog S string :=
  match v with
  | JUndefined | JNull =>
      Throw (js_error "TypeError" "Cannot read properties of undefined")
  | _ => Ret (js_String v)
  end.

(** The destructuring [const { a, b } = message] throws on [undefined] and
    [null]. *)
Definition destructure {S} (message : jsval) : prog S unit :=
  match message with
  | JUndefined | JNull =>
      Throw (js_error "TypeError" "Cannot destructure")
  | _ => Ret tt
  end.

Module Supplier.
Section WithRuntime.

Variable JSON_parse : string -> string + jsval.
Variable JSON_stringify : jsval -> string.
Variable js_String : jsval -> string.

Definition script_call (command : string) (args : list string) : call :=
  {| c_api := ApiExecAsync; c_script := "supplier_management.py";
     c_args := command :: args; c_timeout := None |}.

Definition _executePythonScript (command : string) (args : list string)
  : prog Webview.world jsval :=
  try_catch
    (let* r := execAsync (script_call command args) in
     parse JSON_parse (trim (ex_stdout r)))
    (fun error =>
       do* act (ShowMessage LError ("执行供应商管理脚本失败: " ++ js_String error)) in
       Ret (JObj [("success", JBool false);
                  ("message", JStr ("Failed to execute script: " ++ js_String error))])).

(** The argument list of a modifying command, after [splice] and [shift]. *)
Definition modify_args (command : string) (id data ids : jsval) : list string :=
  let args :=
    if String.eqb command "add" || String.eqb command "update"
    then [js_String id; JSON_stringify data]
    else [JSON_stringify ids] in
  let args :=
    if String.eqb command "delete"
    then match args with _ :: rest => js_String id :: rest | [] => [js_String id] end
    else args in
  if String.eqb command "add" then tl args else args.

Definition _handleMessage (message : jsval) : prog Webview.world unit :=
  do* destructure message in
  let command := get_prop_opt message "command" in
  let page := get_prop_opt message "page" in
  let limit := get_prop_opt message "limit" in
  let searchQuery := get_prop_opt message "searchQuery" in
  let id := get_prop_opt message "id" in
  let data := get_prop_opt message "data" in
  let ids := get_prop_opt message "ids" in
  let unknown :=
    sendMessage (JObj [("command", JStr "error");
                       ("message", JStr ("Unknown command: " ++ js_String command))]) in
  match command with
  | JStr c =>
      if String.eqb c "list" then
        let* p := toString js_String page in
        let* l := toString js_String limit in
        let* result := _executePythonScript c
                         [p; l; js_String (js_or searchQuery (JStr EmptyString))] in
        sendMessage (JObj [("command", JStr "updateList"); ("data", result)])
      else if String.eqb c "add" || String.eqb c "update" ||
              String.eqb c "delete" || String.eqb c "batch_delete" then
        do* _executePythonScript c (modify_args c id data ids) in
        (* Refresh list after modification *)
        let* listResult := _executePythonScript "list" ["1"; "10"; EmptyString] in
        sendMessage (JObj [("command", JStr "updateList"); ("data", listResult)])
      else unknown
  | _ => unknown
  end.

End WithRuntime.
End Supplier.

Module Customer.
Section WithRuntime.

Variable JSON_parse : string -> string + jsval.
Variable JSON_stringify : jsval -> string.
Variable js_String : jsval -> string.
(** [vscode.workspace.workspaceFolders?.[0]] *)
Variable workspaceFolder : option string.

Definition script_call (operation : string) (data : jsval) : call :=
  {| c_api := ApiExecAsync; c_script := "customer_management.py";
     c_args := (["--operation"; operation] ++
                (if truthy data then ["--data"; JSON_stringify data] else []))%list;
     c_timeout := None |}.

Definition _executePythonScript (operation : string) (data : jsval)
  : prog Webview.world jsval :=
  match workspaceFolder with
  | None => Throw (js_error "Error" "Workspace folder not found")
  | Some _ =>
      try_catch
        (let* r := execAsync (script_call operation data) in
         parse JSON_parse (trim (ex_stdout r)))
        (fun error =>
           Ret (JObj [("success", JBool false);
                      ("message", JStr ("Failed to execute script: " ++ js_String error))]))
  end.

Definition _loadCustomers (data : jsval) : prog Webview.world unit :=
  let* result := _executePythonScript "list" data in
  sendMessage (spread [("command", JStr "customersLoaded")] result).

(** The shape of the four modifying handlers: run the operation, report it,
    and reload the list when the result says [success]. *)
Definition modify (operation reply : string) (data : jsval) : prog Webview.world unit :=
  let* result := _executePythonScript operation data in
  do* sendMessage (spread [("command", JStr reply)] result) in
  let* success := read_prop result "success" in
  if truthy success then _loadCustomers (JObj []) else Ret tt.

Definition _addCustomer := modify "add" "customerAdded".
Definition _updateCustomer := modify "update" "customerUpdated".
Definition _deleteCustomer := modify "delete" "customerDeleted".
Definition _batchDeleteCustomers := modify "batch_delete" "customersBatchDeleted".

Definition _handleMessage (message : jsval) : prog Webview.world unit :=
  do* destructure message in
  let command := get_prop_opt message "command" in
  let data := get_prop_opt message "data" in
  if is_str command "loadCustomers" then _loadCustomers data
  else if is_str command "addCustomer" then _addCustomer data
  else if is_str command "updateCustomer" then _updateCustomer data
  else if is_str command "deleteCustomer" then _deleteCustomer data
  else if is_str command "batchDeleteCustomers" then _batchDeleteCustomers data
  else sendMessage (JObj [("command", JStr "error");
                          ("message", JStr ("Unknown command: " ++ js_String command))]).

End WithRuntime.
End Customer.

Module Material.
Section WithRuntime.

Variable JSON_parse : string -> string + jsval.
Variable JSON_stringify : jsval -> string.
Variable js_String : jsval -> string.
Variable workspaceFolder : option string.
Variable path_dirname : string -> string.
(** The button the user picks in the export notification, if any. *)
Variable export_choice : option string.

Definition script_call (command : string) (data : jsval) : call :=
  {| c_api := ApiExecAsync; c_script := "material_web_handler.py";
     c_args := command :: (if truthy data then [JSON_stringify data] else []);
     c_timeout := Some 30000 |}.

Definition _executePythonScript (command : string) (data : jsval)
  : prog Webview.world jsval :=
  match workspaceFolder with
  | None => Throw (js_error "Error" "未找到工作区文件夹")
  | Some _ =>
      try_catch
        (let* r := execAsync (script_call command data) in
         if nonempty (trim (ex_stdout r))
         then parse JSON_parse (trim (ex_stdout r))
         else Throw (js_error "Error" "Python脚本没有返回数据"))
        (fun error => Throw error)
  end.

Definition error_message (text : string) : jsval :=
  JObj [("command", JStr "error"); ("message", JStr text)].

(** The shape of [_loadSuppliers], [_loadMaterials] and [_loadSupplierCodes]. *)
Definition load (command failure : string) : prog Webview.world unit :=
  try_catch
    (let* result := _executePythonScript command JUndefined in
     let* success := read_prop result "success" in
     if truthy success then sendMessage result
     else
       let* error := read_prop result "error" in
       sendMessage (JObj [("command", JStr "error"); ("message", error)]))
    (fun error => sendMessage (error_message (failure ++ js_String error))).

Definition _loadSuppliers := load "loadSuppliers" "加载供应商失败: ".
Definition _loadMaterials := load "loadMaterials" "加载物料列表失败: ".
Definition _loadSupplierCodes := load "loadSupplierCodes" "加载供应商编码失败: ".

Definition _addMaterial (data : jsval) : prog Webview.world unit :=
  try_catch
    (let* result := _executePythonScript "addMaterial" data in
     sendMessage result)
    (fun error =>
       sendMessage (JObj [("command", JStr "materialAdded"); ("success", JBool false);
                          ("error", JStr ("添加物料失败: " ++ js_String error))])).

Definition _assignSupplierCodes : prog Webview.world unit :=
  try_catch
    (let* result := _executePythonScript "assignSupplierCodes" JUndefined in
     let* success := read_prop result "success" in
     if truthy success then
       let* message := read_prop result "message" in
       do* act (ShowMessage LInfo (js_String message)) in
       (* 重新加载供应商编码列表 *)
       _loadSupplierCodes
     else
       let* error := read_prop result "error" in
       act (ShowMessage LError (js_String error)))
    (fun error => act (ShowMessage LError ("分配供应商编码失败: " ++ js_String error))).

Definition _exportMaterials : prog Webview.world unit :=
  try_catch
    (let* result := _executePythonScript "exportMaterials" JUndefined in
     let* success := read_prop result "success" in
     if truthy success then
       let* message := read_prop result "message" in
       do* act (ShowMessage LInfo (js_String message)) in
       do* act (ShowMessage LInfo "物料列表导出成功！") in
       let* filepath := read_prop result "filepath" in
       match export_choice with
       | Some choice =>
           if String.eqb choice "打开文件" && truthy filepath then
             act (Workbench "showTextDocument" (js_String filepath))
           else if String.eqb choice "打开文件夹" && truthy filepath then
             act (Workbench "vscode.openFolder" (path_dirname (js_String filepath)))
           else Ret tt
       | None => Ret tt
       end
     else
       let* error := read_prop result "error" in
       act (ShowMessage LError (js_String error)))
    (fun error => act (ShowMessage LError ("导出物料列表失败: " ++ js_String error))).

Definition _handleMessage (message : jsval) : prog Webview.world unit :=
  try_catch
    (do* destructure message in
     let command := get_prop_opt message "command" in
     let data := get_prop_opt message "data" in
     if is_str command "loadSuppliers" then _loadSuppliers
     else if is_str command "addMaterial" then _addMaterial data
     else if is_str command "loadMaterials" then _loadMaterials
     else if is_str command "loadSupplierCodes" then _loadSupplierCodes
     else if is_str command "assignSupplierCodes" then _assignSupplierCodes
     else if is_str command "exportMaterials" then _exportMaterials
     else sendMessage (error_message ("未知命令: " ++ js_String command)))
    (fun error => sendMessage (error_message ("处理消息时发生错误: " ++ js_String error))).

End WithRuntime.
End Material.

Module Dashboard.
Section WithRuntime.

Variable JSON_parse : string -> string + jsval.
Variable JSON_stringify : jsval -> string.
Variable js_String : jsval -> string.

Definition script_call (scriptName method : string) (params : jsval) : call :=
  {| c_api := ApiExec; c_script := scriptName;
     c_args := ["--method"; method; "--params";
                if truthy params then JSON_stringify params else "{}"];
     c_timeout := Some 30000 |}.

Definition _executePythonScript (scriptName method : string) (params : jsval)
  : prog Webview.world jsval :=
  let* r := exec (script_call scriptName method params) in
  match ex_error r with
  | Some message => Throw (js_error "Error" ("脚本执行失败: " ++ message))
  | None =>
      match JSON_parse (ex_stdout r) with
      | inr result => Ret result
      | inl parseError =>
          Throw (js_error "Error"
                   ("解析脚本输出失败: " ++ js_String (js_error "SyntaxError" parseError)))
      end
  end.

Definition error_message (text : string) : jsval :=
  JObj [("command", JStr "error"); ("error", JObj [("message", JStr text)])].

Definition _getDashboardData (params : jsval) : prog Webview.world unit :=
  try_catch
    (let* result := _executePythonScript "data_analysis_service.py"
                      "get_dashboard_data" params in
     sendMessage (JObj [("command", JStr "dashboardData"); ("data", result)]))
    (fun error =>
       sendMessage (error_message
                      ("获取仪表板数据失败: " ++ js_String (get_prop_opt error "message")))).

Definition _handleMessage (message : jsval) : prog Webview.world unit :=
  try_catch
    (do* destructure message in
     let command := get_prop_opt message "command" in
     let params := get_prop_opt message "params" in
     if is_str command "getDashboardData" then _getDashboardData params
     else sendMessage (error_message ("未知命令: " ++ js_String command)))
    (fun error =>
       sendMessage (error_message
                      ("处理消息时发生错误: " ++ js_String (get_prop_opt error "message")))).

End WithRuntime.
End Dashboard.

Module DataEntry.
Section WithRuntime.

Variable JSON_parse : string -> string + jsval.
Variable JSON_stringify : jsval -> string.
Variable js_String : jsval -> string.

Definition script_call (scriptName : string) (command data : jsval) : call :=
  {| c_api := ApiSpawn; c_script := scriptName;
     c_args := js_String command :: (if truthy data then [JSON_stringify data] else []);
     c_timeout := None |}.

(** The ['close'] listener of [runPythonScript]. *)
Definition on_close (st : Extension.das_state) (code : option Z) : Extension.promise :=
  if Extension.is_zero code then
    match JSON_parse (trim (Extension.stdoutData st)) with
    | inr result => Extension.Resolved result
    | inl e =>
        Extension.Rejected
          (js_error "Error"
             ("解析脚本输出失败: " ++ js_String (js_error "SyntaxError" e) ++ newline ++
              "原始输出: " ++ Extension.stdoutData st))
    end
  else
    Extension.Rejected
      (js_error "Error"
         ("脚本执行失败，退出码: " ++ Extension.code_text code ++ newline ++
          "错误输出: " ++ Extension.errorOutput st)).

Definition on_event (st : Extension.das_state) (ev : child_event) : Extension.das_state :=
  match ev with
  | EvStdout data =>
      {| Extension.stdoutData := Extension.stdoutData st ++ data;
         Extension.errorOutput := Extension.errorOutput st;
         Extension.settled := Extension.settled st |}
  | EvStderr data =>
      {| Extension.stdoutData := Extension.stdoutData st;
         Extension.errorOutput := Extension.errorOutput st ++ data;
         Extension.settled := Extension.settled st |}
  | EvError message =>
      {| Extension.stdoutData := Extension.stdoutData st;
         Extension.errorOutput := Extension.errorOutput st;
         Extension.settled :=
           Extension.settle (Extension.settled st)
             (Extension.Rejected (js_error "Error" ("无法启动脚本: " ++ message))) |}
  | EvClose code =>
      {| Extension.stdoutData := Extension.stdoutData st;
         Extension.errorOutput := Extension.errorOutput st;
         Extension.settled := Extension.settle (Extension.settled st) (on_close st code) |}
  end.

Definition runPythonScript (scriptName : string) (command data : jsval)
  : prog Webview.world jsval :=
  let* evs := spawn (script_call scriptName command data) in
  Extension.await (Extension.settled (fold_left on_event evs Extension.das_init)).

(** [if (this.panel) this.panel.webview.postMessage(m)] *)
Definition handleMessage (message : jsval) : prog Webview.world unit :=
  try_catch
    (let* command := read_prop message "command" in
     let* data := read_prop message "data" in
     let* result := runPythonScript "data_entry_handler.py" command data in
     sendMessage result)
    (fun error =>
       sendMessage (JObj [("success", JBool false);
                          ("error", JStr ("处理请求失败: " ++
                                          js_String (get_prop_opt error "message")))])).

End WithRuntime.
End DataEntry.

(** ** Launches per user action *)

Module Bridge.

(** Walks the branches of a handler under [wp]. *)
Ltac wp_unfold :=
  unfold sendMessage, destructure, toString, execAsync, parse, read_prop, act, exec,
    spawn, get, put.

#[local] Arguments events_of : simpl never.

Ltac wp_walk :=
  repeat (wp_unfold; cbn; intros;
          rewrite ?Extension.listen_run;
          unfold Extension.ended, Extension.quietly, Extension.post, Extension.show_message;
          match goal with
          | |- _ /\ _ => split
          | |- context [match ?x with _ => _ end] => destruct x eqn:?
          end);
  cbn.

(** What one handler launches: at most two processes; at most one when
    [single] holds; a second launch is the reload [again] and differs from the
    first. *)
Definition launch_bound {S} (single : bool) (again : call)
    (t : list (titem S)) : Prop :=
  (length (launches t) <= 2)%nat
  /\ (single = true -> (length (launches t) <= 1)%nat)
  /\ (forall a b, launches t = [a; b] -> b = again /\ a <> b).

(** Every launch carries the [timeout] option [cutoff]. *)
Definition cutoff_is {S} (cutoff : option Z) (t : list (titem S)) : Prop :=
  forall c, In c (launches t) -> c_timeout c = cutoff.

(** At most one launch, with the [timeout] option [cutoff]. *)
Definition single_launch {S} (cutoff : option Z) (t : list (titem S)) : Prop :=
  (length (launches t) <= 1)%nat /\ cutoff_is cutoff t.

Ltac bound_done :=
  unfold launch_bound, single_launch, cutoff_is; cbn;
  repeat split; intros; try lia; try discriminate;
  try (match goal with
       | H : [_; _] = [_; _] |- _ = _ => injection H as <- <-; reflexivity
       | H : [_; _] = [_; _] |- _ <> _ =>
           injection H as <- <-; intros Heq; injection Heq; intros; subst;
           cbn in *; discriminate
       end);
  try (repeat match goal with
              | H : _ \/ _ |- _ => destruct H
              | H : False |- _ => destruct H
              end; subst; reflexivity).

Section WithRuntime.

Variable JSON_parse : string -> string + jsval.
Variable JSON_stringify : jsval -> string.
Variable js_String : jsval -> string.
Variable workspaceFolder : option string.
Variable path_dirname : string -> string.
Variable export_choice : option string.
Variable docsDir : string.
Variable path_join : string -> string -> string.
Variable path_basename : string -> string.

Definition supplier_handler := Supplier._handleMessage JSON_parse JSON_stringify js_String.
Definition customer_handler :=
  Customer._handleMessage JSON_parse JSON_stringify js_String workspaceFolder.
Definition material_handler :=
  Material._handleMessage JSON_parse JSON_stringify js_String workspaceFolder
    path_dirname export_choice.
Definition dashboard_handler := Dashboard._handleMessage JSON_parse JSON_stringify js_String.
Definition entry_handler := DataEntry.handleMessage JSON_parse JSON_stringify js_String.
Definition analysis_listener : jsval -> prog Webview.world unit :=
  Extension.dashboard_onDidReceiveMessage JSON_parse JSON_stringify js_String.
Definition business_view_loader : string -> jsval -> prog Webview.world unit :=
  Extension.loadBusinessViewData JSON_parse js_String.
Definition view_listener : string -> jsval -> prog Webview.world unit :=
  Extension.business_view_onDidReceiveMessage JSON_parse js_String.
Definition table_listener : string -> jsval -> prog Webview.world unit :=
  Extension.table_onDidReceiveMessage JSON_parse JSON_stringify js_String.
Definition inventory_listener : jsval -> prog Webview.world unit :=
  Extension.inventory_onDidReceiveMessage JSON_parse js_String.
Definition command_handler : Extension.palette_command -> prog Webview.world unit :=
  Extension.executeCommand JSON_stringify js_String docsDir path_join path_basename.
Definition reconnect : prog Tree.state unit := Tree.reconnect JSON_parse js_String.

(** The reload that follows a modifying command. *)
Definition supplier_reload : call := Supplier.script_call "list" ["1"; "10"; EmptyString].
Definition customer_reload : call := Customer.script_call JSON_stringify "list" (JObj []).
Definition material_reload : call :=
  Material.script_call JSON_stringify "loadSupplierCodes" JUndefined.

Definition command_of (message : jsval) : jsval := get_prop_opt message "command".

(** The commands that run one script at most, and the second script of the
    two that run a sequence. *)
Definition single_step (c : Extension.palette_command) : bool :=
  match c with
  | Extension.ims_convertToJson _ | Extension.ims_migrateToNewFormat _ => false
  | _ => true
  end.

Definition second_step (c : Extension.palette_command) : call :=
  match c with
  | Extension.ims_migrateToNewFormat _ => Extension.spawn_call "verify_import.py" []
  | _ => Extension.spawn_call "generate_standard_material_table.py" ["--docs-dir"; docsDir]
  end.

(** The table panel's messages that only load. *)
Definition loads_only (message : jsval) : bool :=
  is_str (command_of message) "loadData" || is_str (command_of message) "refresh".

Lemma supplier_bound message w :
  wp (supplier_handler message) w
     (fun t _ => launch_bound (is_str (command_of message) "list") supplier_reload t
                 /\ cutoff_is None t).
Proof.
  unfold supplier_handler, Supplier._handleMessage, Supplier._executePythonScript, command_of.
  wp_unfold. wp_walk; bound_done.
Qed.

Lemma customer_bound message w :
  wp (customer_handler message) w
     (fun t _ => launch_bound (is_str (command_of message) "loadCustomers")
                   customer_reload t
                 /\ cutoff_is None t).
Proof.
  unfold customer_handler, Customer._handleMessage, Customer._addCustomer,
    Customer._updateCustomer, Customer._deleteCustomer, Customer._batchDeleteCustomers,
    Customer.modify, Customer._loadCustomers, Customer._executePythonScript, command_of.
  wp_unfold. wp_walk; bound_done.
Qed.

Lemma material_bound message w :
  wp (material_handler message) w
     (fun t _ => launch_bound (negb (is_str (command_of message) "assignSupplierCodes"))
                   material_reload t
                 /\ cutoff_is (Some 30000) t).
Proof.
  unfold material_handler, Material._handleMessage, Material._loadSuppliers,
    Material._loadMaterials, Material._loadSupplierCodes, Material._addMaterial,
    Material._assignSupplierCodes, Material._exportMaterials, Material.load,
    Material._executePythonScript, command_of.
  wp_unfold. wp_walk; bound_done.
Qed.

Lemma dashboard_bound message w :
  wp (dashboard_handler message) w
     (fun t _ => single_launch (Some 30000) t).
Proof.
  unfold dashboard_handler, Dashboard._handleMessage, Dashboard._getDashboardData,
    Dashboard._executePythonScript.
  wp_unfold. wp_walk; bound_done.
Qed.

Lemma entry_bound message w :
  wp (entry_handler message) w (fun t _ => single_launch None t).
Proof.
  unfold entry_handler, DataEntry.handleMessage, DataEntry.runPythonScript, Extension.await.
  wp_unfold. wp_walk; bound_done.
Qed.

Lemma analysis_bound message w :
  wp (analysis_listener message) w (fun t _ => single_launch None t).
Proof.
  unfold analysis_listener, Extension.dashboard_onDidReceiveMessage,
    Extension.handleDashboardDataRequest, Extension.handleSalesTrendRequest,
    Extension.handleInventoryAnalysisRequest, Extension.handleCustomerAnalysisRequest,
    Extension.handlePurchaseTrendRequest, Extension.handleComparisonAnalysisRequest,
    Extension.handleDashboardExportRequest, Extension.analysis_request,
    Extension.runDataAnalysisScript, Extension.await, Extension.post.
  wp_unfold. wp_walk; bound_done.
Qed.

Lemma business_view_events_launch_nothing evs dataOutput errorOutput (w : Webview.world) :
  wp (Extension.business_view_events JSON_parse js_String evs dataOutput errorOutput) w
     (fun t _ => launches t = []).
Proof.
  revert dataOutput errorOutput.
  induction evs as [|ev evs IH]; intros dataOutput errorOutput; [reflexivity|].
  destruct ev as [d|d|m|code]; cbn [Extension.business_view_events].
  - apply IH.
  - apply IH.
  - cbn. eapply wp_mono; [|apply IH]. cbn. auto.
  - unfold Extension.business_view_close, Extension.post, act. cbn.
    destruct (Extension.is_zero code); [destruct (JSON_parse _)|]; cbn;
      (eapply wp_mono; [|apply IH]); cbn; auto.
Qed.

Lemma business_view_bound viewName params w :
  wp (business_view_loader viewName params) w
     (fun t _ => single_launch None t).
Proof.
  unfold business_view_loader, Extension.loadBusinessViewData, Extension.post, act, spawn.
  destruct (Extension.business_view viewName) as [[[script opts] format]|]; cbn.
  - intros evs. eapply wp_mono; [|apply business_view_events_launch_nothing].
    cbn. intros t _ Ht. unfold single_launch, cutoff_is, launches in *. cbn.
    rewrite Ht. bound_done.
  - bound_done.
Qed.

Lemma view_bound viewName message w :
  wp (view_listener viewName message) w (fun t _ => single_launch None t).
Proof.
  unfold view_listener, Extension.business_view_onDidReceiveMessage, read_prop.
  destruct (get_prop message "command") as [command|]; cbn [bind]; [|bound_done].
  destruct (is_str command "loadData" || is_str command "refresh");
    [apply business_view_bound|].
  destruct (is_str command "filter"); [apply business_view_bound | bound_done].
Qed.

Lemma table_bound tableName message w :
  wp (table_listener tableName message) w
     (fun t _ => launch_bound (loads_only message) (Extension.table_call tableName) t
                 /\ cutoff_is None t).
Proof.
  unfold table_listener, Extension.table_onDidReceiveMessage, Extension.loadTableData,
    Extension.handleCrudOperation, Extension.crud_close, loads_only, command_of,
    read_prop, get_prop_opt.
  destruct (get_prop message "command") as [command|]; [|wp_walk; bound_done].
  wp_walk; bound_done; congruence.
Qed.

Lemma inventory_bound message w :
  wp (inventory_listener message) w (fun t _ => single_launch None t).
Proof.
  unfold inventory_listener, Extension.inventory_onDidReceiveMessage,
    Extension.handleInventoryDataLoad, Extension.handlePurchaseDataLoad,
    Extension.handleSalesDataLoad, Extension.handleSuppliersLoad,
    Extension.handleCustomersLoad, Extension.handleMaterialsLoad,
    Extension.data_load, Extension.runPython, Extension.handleInventoryAction.
  wp_walk; bound_done.
Qed.

Lemma command_bound c w :
  wp (command_handler c) w
     (fun t _ => launch_bound (single_step c) (second_step c) t /\ cutoff_is None t).
Proof.
  unfold command_handler, Extension.executeCommand, Extension.runExcelToJsonProcess,
    Extension.runMigrationProcess, Extension.runDatabaseTest, Extension.showAddMaterialDialog,
    Extension.runAddMaterialScript, Extension.runScript, Extension.await.
  destruct c as [[excelPath|]|[excelPath|]| |a|]; wp_walk; bound_done.
Qed.

Lemma reconnect_bound st :
  wp reconnect st (fun t _ => single_launch None t).
Proof.
  unfold reconnect, Tree.reconnect, Tree.checkConnection, Tree.checkConnection_callback,
    Tree.loadDefaultCollections, Tree.set_isConnected, Tree.set_collections, Tree.refresh.
  wp_walk; bound_done.
Qed.

(** C5, as the code has it: a user action spawns at most two helper
    processes.  The supplier's [list], the customer's [loadCustomers], every
    material command but [assignSupplierCodes], the table panel's [loadData]
    and [refresh], the commands other than the conversion and the migration,
    and every message of the dashboard provider, the data-entry panel, the
    dashboard panel, the business views and the inventory panel spawn at
    most one.  Where an action spawns two, the second is the reload of the
    list (after a modifying message) or the second script (of the conversion
    and the migration), and it is not the first invocation again. *)
Theorem action_launches_at_most_two message viewName tableName params c o h w :
  launch_bound (is_str (command_of message) "list") supplier_reload
    (added (supplier_handler message) o h w)
  /\ launch_bound (is_str (command_of message) "loadCustomers") customer_reload
       (added (customer_handler message) o h w)
  /\ launch_bound (negb (is_str (command_of message) "assignSupplierCodes")) material_reload
       (added (material_handler message) o h w)
  /\ launch_bound (loads_only message) (Extension.table_call tableName)
       (added (table_listener tableName message) o h w)
  /\ launch_bound (single_step c) (second_step c) (added (command_handler c) o h w)
  /\ (length (launches (added (dashboard_handler message) o h w)) <= 1)%nat
  /\ (length (launches (added (entry_handler message) o h w)) <= 1)%nat
  /\ (length (launches (added (analysis_listener message) o h w)) <= 1)%nat
  /\ (length (launches (added (business_view_loader viewName params) o h w)) <= 1)%nat
  /\ (length (launches (added (view_listener viewName message) o h w)) <= 1)%nat
  /\ (length (launches (added (inventory_listener message) o h w)) <= 1)%nat
  /\ (forall o' h' st, (length (launches (added reconnect o' h' st)) <= 1)%nat).
Proof.
  pose proof (wp_sound _ _ _ (supplier_bound message w) o h) as [Hs _].
  pose proof (wp_sound _ _ _ (customer_bound message w) o h) as [Hc _].
  pose proof (wp_sound _ _ _ (material_bound message w) o h) as [Hm _].
  pose proof (wp_sound _ _ _ (table_bound tableName message w) o h) as [Ht _].
  pose proof (wp_sound _ _ _ (command_bound c w) o h) as [Hp _].
  pose proof (wp_sound _ _ _ (dashboard_bound message w) o h) as [Hd _].
  pose proof (wp_sound _ _ _ (entry_bound message w) o h) as [He _].
  pose proof (wp_sound _ _ _ (analysis_bound message w) o h) as [Ha _].
  pose proof (wp_sound _ _ _ (business_view_bound viewName params w) o h) as [Hb _].
  pose proof (wp_sound _ _ _ (view_bound viewName message w) o h) as [Hv _].
  pose proof (wp_sound _ _ _ (inventory_bound message w) o h) as [Hi _].
  repeat (split; [assumption|]).
  intros o' h' st. apply (wp_sound _ _ _ (reconnect_bound st) o' h').
Qed.

(** C6, as the code has it: only the material provider and the dashboard
    provider hand a [timeout] (30000 ms) to the launcher; the launches of the
    supplier, customer and data-entry providers, of [runDataAnalysisScript]
    behind the dashboard panel, of the business views, the table panel and
    the inventory panel, of the commands and of [checkConnection] carry none.
    No action launches the same invocation twice: a second launch differs
    from the first. *)
Theorem timeout_only_in_two_providers message viewName tableName params c o h w :
  cutoff_is (Some 30000) (added (material_handler message) o h w)
  /\ cutoff_is (Some 30000) (added (dashboard_handler message) o h w)
  /\ cutoff_is None (added (supplier_handler message) o h w)
  /\ cutoff_is None (added (customer_handler message) o h w)
  /\ cutoff_is None (added (entry_handler message) o h w)
  /\ cutoff_is None (added (analysis_listener message) o h w)
  /\ cutoff_is None (added (business_view_loader viewName params) o h w)
  /\ cutoff_is None (added (view_listener viewName message) o h w)
  /\ cutoff_is None (added (table_listener tableName message) o h w)
  /\ cutoff_is None (added (inventory_listener message) o h w)
  /\ cutoff_is None (added (command_handler c) o h w)
  /\ (forall o' h' st, cutoff_is None (added reconnect o' h' st))
  /\ (forall a b,
        launches (added (supplier_handler message) o h w) = [a; b]
        \/ launches (added (customer_handler message) o h w) = [a; b]
        \/ launches (added (material_handler message) o h w) = [a; b]
        \/ launches (added (table_listener tableName message) o h w) = [a; b]
        \/ launches (added (command_handler c) o h w) = [a; b] ->
        a <> b).
Proof.
  pose proof (wp_sound _ _ _ (supplier_bound message w) o h) as [(_ & _ & Hs) Hsc].
  pose proof (wp_sound _ _ _ (customer_bound message w) o h) as [(_ & _ & Hc) Hcc].
  pose proof (wp_sound _ _ _ (material_bound message w) o h) as [(_ & _ & Hm) Hmc].
  pose proof (wp_sound _ _ _ (table_bound tableName message w) o h) as [(_ & _ & Ht) Htc].
  pose proof (wp_sound _ _ _ (command_bound c w) o h) as [(_ & _ & Hp) Hpc].
  pose proof (wp_sound _ _ _ (dashboard_bound message w) o h) as [_ Hd].
  pose proof (wp_sound _ _ _ (entry_bound message w) o h) as [_ He].
  pose proof (wp_sound _ _ _ (analysis_bound message w) o h) as [_ Ha].
  pose proof (wp_sound _ _ _ (business_view_bound viewName params w) o h) as [_ Hb].
  pose proof (wp_sound _ _ _ (view_bound viewName message w) o h) as [_ Hv].
  pose proof (wp_sound _ _ _ (inventory_bound message w) o h) as [_ Hi].
  repeat (split; [assumption|]).
  split.
  - intros o' h' st. apply (wp_sound _ _ _ (reconnect_bound st) o' h').
  - intros a b [H | [H | [H | [H | H]]]];
      [apply (Hs a b H) | apply (Hc a b H) | apply (Hm a b H)
      | apply (Ht a b H) | apply (Hp a b H)].
Qed.

(** *** Failed invocations *)

(** An [exec] invocation failed: the launcher reports an error (start
    failure, non-zero exit code, kill) or the output is no JSON. *)
Definition exec_failed (r : exec_result) : bool :=
  has_error r ||
  match JSON_parse (ex_stdout r) with inl _ => true | inr _ => false end.

(** A spawned child failed at its close: the exit code is not zero, or
    what it has printed is no JSON. *)
Definition close_failed (code : option Z) (dataOutput : string) : bool :=
  negb (Extension.is_zero code) ||
  match JSON_parse (trim dataOutput) with inl _ => true | inr _ => false end.

(** A spawned child failed: it could not be started, or it failed at its
    close. *)
Definition run_failed (r : child_run) : bool :=
  match ending r with
  | StillRunning => false
  | Exits code => close_failed code (Extension.output_of r)
  | FailsToStart _ None => true
  | FailsToStart _ (Some code) => close_failed code (Extension.output_of r)
  end.

(** The listeners that see the failure of a child: ['close'] alone, ['error']
    alone, or ['error'] and the ['close'] that follows it. *)
Definition error_count (r : child_run) : nat :=
  match ending r with
  | FailsToStart _ (Some _) => 2
  | _ => 1
  end.

Definition is_command (name : string) (m : jsval) : bool :=
  is_str (get_prop_opt m "command") name.

Definition dashboard_call (params : jsval) : call :=
  Dashboard.script_call JSON_stringify "data_analysis_service.py" "get_dashboard_data" params.

Definition getDashboardData := Dashboard._getDashboardData JSON_parse JSON_stringify js_String.

Definition loading (b : bool) : jsval :=
  JObj [("command", JStr "loading"); ("data", JBool b)].

Definition view_error (text : string) : jsval :=
  JObj [("command", JStr "error"); ("data", JStr text)].

Lemma getDashboardData_failure params o h w i r :
  on_exec o h (dashboard_call params) = Some r ->
  exec_failed r = true ->
  Webview._panel w = Some i ->
  exists text,
    run (getDashboardData params) o h w =
    ((h ++ [TLaunch (dashboard_call params);
            TAct (PostMessage (Dashboard.error_message text)) w])%list, Done tt w).
Proof.
  intros Hexec Hfail Hpanel.
  unfold getDashboardData, Dashboard._getDashboardData, Dashboard._executePythonScript,
    exec_failed, has_error, sendMessage, dashboard_call in *.
  cbn [bind try_catch exec run get act]. rewrite Hexec.
  destruct (ex_error r) as [message|].
  - cbn. rewrite Hpanel. cbn. rewrite <- app_assoc. eauto.
  - destruct (JSON_parse (ex_stdout r)) as [e|result]; [|discriminate].
    cbn. rewrite Hpanel. cbn. rewrite <- app_assoc. eauto.
Qed.

Lemma business_view_data_prefix pre rest dataOutput errorOutput :
  forallb Extension.is_data pre = true ->
  Extension.business_view_events (S := Webview.world) JSON_parse js_String
    (pre ++ rest) dataOutput errorOutput =
  Extension.business_view_events JSON_parse js_String rest
    (dataOutput ++ Extension.stdout_of pre) (errorOutput ++ Extension.stderr_of pre).
Proof.
  revert dataOutput errorOutput.
  induction pre as [|ev pre IH]; intros dataOutput errorOutput Hpre; cbn.
  - rewrite !Extension.string_app_empty_r. reflexivity.
  - cbn in Hpre. apply andb_true_iff in Hpre as [Hev Hpre].
    destruct ev; try discriminate; rewrite (IH _ _ Hpre);
      rewrite ?Extension.string_app_assoc; reflexivity.
Qed.

Lemma loadBusinessViewData_failure viewName script opts format params o h w :
  Extension.business_view viewName = Some (script, opts, format) ->
  let c := Extension.business_view_call script
             (Extension.named_args js_String params opts ++ ["--format"; format])%list in
  let child := on_spawn o (h ++ [TAct (PostMessage (loading true)) w])%list c in
  let t := added (business_view_loader viewName params) o h w in
  run_failed child = true ->
  launches t = [c]
  /\ List.filter (is_command "data") (posts t) = []
  /\ length (List.filter (is_command "error") (posts t)) = error_count child
  /\ (forall code, ending child = Exits code ->
      exists text, posts t = [loading true; loading false; view_error text]).
Proof.
  intros Hview c child t Hfail. subst t.
  unfold added, business_view_loader, Extension.loadBusinessViewData.
  rewrite Hview. unfold Extension.post, act, spawn.
  cbn [bind run]. fold c. unfold loading in child. fold child.
  unfold events_of.
  rewrite (business_view_data_prefix _ _ _ _ (Extension.chunks_are_data (chunks child))).
  change (EmptyString ++ Extension.stdout_of (map chunk_event (chunks child)))
    with (Extension.output_of child).
  unfold run_failed, close_failed, error_count in *.
  destruct (ending child) as [|code|message [code|]]; try discriminate;
    cbn [end_events Extension.business_view_events bind];
    unfold Extension.business_view_close, Extension.post, act; cbn [bind run].
  1, 2: destruct (Extension.is_zero code); cbn in Hfail;
    [destruct (JSON_parse (trim (Extension.output_of child))); [|discriminate]|].
  all: cbn; rewrite <- !app_assoc, skipn_app, Nat.sub_diag, skipn_all; cbn.
  all: repeat split; try reflexivity; intros; try discriminate; eauto.
Qed.

(** C7, as the code has it in [_getDashboardData], [loadBusinessViewData]
    and [checkConnection]: none of the three runs the script again after a
    failure, but the failure is not always answered by one error message
    and no recovery.  [_getDashboardData], with its panel
    open, posts exactly one error message and nothing else when the launcher
    reports an error or the output is no JSON.  [loadBusinessViewData]
    posts no data message and one error message per listener that sees the
    failure: exactly one when the child exits with a non-zero code or with
    output that is no JSON, or fails to start and emits nothing more; two
    when the failed start is followed by ['close'].  [checkConnection] shows
    one warning and recovers, replacing the collections by the default list
    (the keys of [tableMapping]) and marking the provider connected. *)
Theorem failure_is_not_retried :
  (forall params o h w i r,
     on_exec o h (dashboard_call params) = Some r ->
     exec_failed r = true ->
     Webview._panel w = Some i ->
     exists text,
       run (getDashboardData params) o h w =
       ((h ++ [TLaunch (dashboard_call params);
               TAct (PostMessage (Dashboard.error_message text)) w])%list, Done tt w))
  /\ (forall viewName script opts format params o h w,
        Extension.business_view viewName = Some (script, opts, format) ->
        let c := Extension.business_view_call script
                   (Extension.named_args js_String params opts ++ ["--format"; format])%list in
        let child := on_spawn o (h ++ [TAct (PostMessage (loading true)) w])%list c in
        let t := added (business_view_loader viewName params) o h w in
        run_failed child = true ->
        launches t = [c]
        /\ List.filter (is_command "data") (posts t) = []
        /\ length (List.filter (is_command "error") (posts t)) = error_count child
        /\ (forall code, ending child = Exits code ->
            exists text, posts t = [loading true; loading false; view_error text]))
  /\ (forall o h st r,
        on_exec o h Tree.check_call = Some r ->
        Tree.path_of JSON_parse r <> Tree.FetchSucceeded ->
        exists t st' text,
          run (Tree.checkConnection JSON_parse js_String) o h st =
          ((h ++ [TLaunch Tree.check_call] ++ t ++ [TAct Refresh st'])%list, Done tt st')
          /\ launches t = [] /\ shown t = [(LWarning, text)]
          /\ Tree.collections st' = Tree.mapping_keys (Tree.tableMapping st)
          /\ Tree.isConnected st' = true).
Proof.
  split; [|split].
  - apply getDashboardData_failure.
  - apply loadBusinessViewData_failure.
  - intros o h st r Hexec Hpath.
    destruct (Tree.callback_run JSON_parse js_String r o (h ++ [TLaunch Tree.check_call])%list st)
      as (t & st' & Hrun & Hconn & _ & Hl & Hfail & _).
    destruct (Hfail Hpath) as [Hcoll [text Hshown]].
    exists t, st', text. split; [|auto].
    unfold Tree.checkConnection. cbn [bind exec run]. rewrite Hexec.
    change (fun r0 => bind (Ret r0) (fun r1 => Tree.checkConnection_callback JSON_parse js_String r1))
      with (fun r0 => Tree.checkConnection_callback JSON_parse js_String r0).
    cbn [bind]. rewrite Hrun. rewrite <- !app_assoc. reflexivity.
Qed.

(** *** The shapes delivered to the UI *)







End WithRuntime.

(** *** Closed examples *)

(** An environment whose scripts print an empty object and exit normally. *)
Definition answering : oracle Webview.world :=
  {| on_exec := fun _ _ => Some {| ex_error := None; ex_stdout := "{}";
                                   ex_stderr := EmptyString |};
     on_spawn := fun _ _ => exit_run "{}" EmptyString 0 |}.

(** An environment whose children never terminate. *)
Definition never_ending : oracle Webview.world :=
  {| on_exec := fun _ _ => None; on_spawn := fun _ _ => endless_run |}.

(** An environment in which no child can be started: [exec] reports the
    error, a spawned child emits ['error'] and then ['close']. *)
Definition not_started : exec_result :=
  {| ex_error := Some "spawn python ENOENT";
     ex_stdout := EmptyString; ex_stderr := EmptyString |}.

Definition not_starting : oracle Webview.world :=
  {| on_exec := fun _ _ => Some not_started;
     on_spawn := fun _ _ =>
       {| chunks := [];
          ending := FailsToStart "spawn python ENOENT" (Some (Some (-2))) |} |}.

Definition plain_join (a b : string) : string := a ++ "/" ++ b.

Definition add_supplier : jsval :=
  JObj [("command", JStr "add"); ("data", JObj [("supplier_name", JStr "ACME")])].

(** One [add] message to the supplier panel launches two processes. *)
Lemma supplier_add_launches_twice :
  launches (added (Supplier._handleMessage (parse_only "{}" (JObj [])) plain_stringify
                     plain_String add_supplier)
              answering [] Webview.shown_once)
  = [Supplier.script_call "add"
       ["{" ++ dquote ++ "supplier_name" ++ dquote ++ ":" ++ dquote ++ "ACME" ++ dquote ++ "}"];
     Supplier.script_call "list" ["1"; "10"; EmptyString]].
Proof. vm_compute. reflexivity. Qed.

(** The conversion command runs two scripts, one after the other. *)
Example convert_launches_two_scripts :
  launches (added (Extension.executeCommand plain_stringify plain_String "docs" plain_join id
                     (Extension.ims_convertToJson (Some "book.xlsx")))
              answering [] Webview.shown_once)
  = [Extension.spawn_call "parse_manager.py" ["book.xlsx"; "docs/parsed_data.json"];
     Extension.spawn_call "generate_standard_material_table.py" ["--docs-dir"; "docs"]].
Proof. vm_compute. reflexivity. Qed.

(** A business view whose child cannot be started is answered by both the
    ['error'] and the ['close'] listener. *)
Example view_start_failure_posts_twice :
  posts (added (Extension.loadBusinessViewData no_parse plain_String "库存盘点报表" JUndefined)
           not_starting [] Webview.shown_once)
  = [loading true;
     view_error "无法启动业务视图脚本: spawn python ENOENT";
     loading false;
     view_error "业务视图生成失败: 未知错误"].
Proof. vm_compute. reflexivity. Qed.

Definition get_dashboard : jsval := JObj [("command", JStr "getDashboardData")].

(** The process behind the dashboard panel is launched without a timeout, and
    when it never terminates the request is never answered. *)
Lemma analysis_launch_is_never_cut_off :
  exists c,
    run (Extension.dashboard_onDidReceiveMessage no_parse plain_stringify plain_String
           get_dashboard) never_ending [] Webview.shown_once
    = ([TLaunch c], Hung Webview.shown_once)
    /\ c_timeout c = None.
Proof. eexists. split; vm_compute; reflexivity. Qed.

(** A failed connection check substitutes the default collections for the
    list the script did not deliver, and reports the provider as connected. *)
Lemma failed_check_loads_defaults :
  let r := run (Tree.checkConnection no_parse plain_String) Tree.failing_oracle []
             Tree.initial_state in
  Tree.collections (final_state (snd r)) = Tree.mapping_keys Tree.default_mapping
  /\ Tree.collections (final_state (snd r)) <> Tree.collections Tree.initial_state
  /\ Tree.isConnected (final_state (snd r)) = true
  /\ shown (fst r) =
       [(LWarning, "动态获取数据表列表失败，将加载默认列表: python: not found")].
Proof. vm_compute. repeat split. discriminate. Qed.

(** The dashboard provider answers a child that cannot be started with one
    error message. *)
Lemma failure_is_not_retried_witness :
  exists text,
    run (Dashboard._getDashboardData no_parse plain_stringify plain_String JUndefined)
      not_starting [] Webview.shown_once =
    ([TLaunch (dashboard_call plain_stringify JUndefined);
      TAct (PostMessage (Dashboard.error_message text)) Webview.shown_once],
     Done tt Webview.shown_once).
Proof.
  destruct (failure_is_not_retried no_parse plain_stringify plain_String) as [H _].
  exact (H JUndefined not_starting [] Webview.shown_once 0%nat not_started
           eq_refl eq_refl eq_refl).
Defined.
End Bridge.

(** ** The host environment: interpreter, settings and directories *)

Module Host.

(** The string settings of the [imsViewer] section, as the workbench reports
    them, and the variables of [process.env] are maps from names to strings. *)

(** [config.get<string>(key, defaultValue)] *)
Definition config_get (config : gmap string string) (key defaultValue : string) : string :=
  default defaultValue (config !! key).

(** [getDatabaseName]: [config.get<string>('databaseName') || 'ims_database'] *)
Definition getDatabaseName (config : gmap string string) : string :=
  match config !! "databaseName" with
  | Some name => if nonempty name then name else "ims_database"
  | None => "ims_database"
  end.

(** [if (value) process.env[name] = value] *)
Definition export_if_set (name value : string) (env : gmap string string) : gmap string string :=
  if nonempty value then <[name := value]> env else env.

Definition setDatabaseConfigEnv (config : gmap string string) (env : gmap string string) : gmap string string :=
  let dbName := getDatabaseName config in
  let env := <["IMS_DB_NAME" := dbName]> env in
  let mongoUri := config_get config "mongoUri" "mongodb://localhost:27017/" in
  let mongoUsername := config_get config "mongoUsername" EmptyString in
  let mongoPassword := config_get config "mongoPassword" EmptyString in
  let mongoAuthDatabase := config_get config "mongoAuthDatabase" "admin" in
  let env := <["IMS_MONGO_URI" := mongoUri]> env in
  let env := export_if_set "IMS_MONGO_USERNAME" mongoUsername env in
  let env := export_if_set "IMS_MONGO_PASSWORD" mongoPassword env in
  export_if_set "IMS_MONGO_AUTH_DB" mongoAuthDatabase env.

Section WithHost.

(** [fs.existsSync] *)
Variable existsSync : string -> bool.
(** [path.join] and [path.isAbsolute] *)
Variable path_join : list string -> string.
Variable isAbsolute : string -> bool.
(** [os.platform()], the value of [process.platform] *)
Variable platform : string.
(** [context.extensionPath] *)
Variable extensionPath : string.
(** The path of [vscode.workspace.workspaceFolders?.[0]] *)
Variable workspaceFolder : option string.

Definition venvPythonPath : string := path_join [extensionPath; ".venv"; "bin"; "python"].
Definition venvPythonPathWin : string :=
  path_join [extensionPath; ".venv"; "Scripts"; "python.exe"].
Definition venvPython3Path : string := path_join [extensionPath; ".venv"; "bin"; "python3"].

(** [candidates[0]] *)
Definition first_candidate (candidates : list string) : string :=
  hd "undefined" candidates.

(** [getPythonCommand] of extension.ts *)
Definition getPythonCommand : string :=
  if existsSync venvPythonPath then venvPythonPath
  else if existsSync venvPython3Path then venvPython3Path
  else if existsSync venvPythonPathWin then venvPythonPathWin
  else if String.eqb platform "win32" then first_candidate ["python"; "py"; "python3"]
  else first_candidate ["python3"; "python"].

Definition getPythonCommandFallbacks : list string :=
  if String.eqb platform "win32" then ["python"; "py"; "python3"]
  else ["python3"; "python"].

(** [getPythonCommand] of the data-entry provider *)
Definition DataEntry_getPythonCommand : string :=
  if existsSync venvPythonPath then venvPythonPath
  else if existsSync venvPython3Path then venvPython3Path
  else if existsSync venvPythonPathWin then venvPythonPathWin
  else if String.eqb platform "win32" then "python"
  else "python3".

(** [_getPythonCommand] of the dashboard provider *)
Definition Dashboard_getPythonCommand : string :=
  match workspaceFolder with
  | Some fsPath =>
      let venvPython := path_join [fsPath; ".venv"; "Scripts"; "python.exe"] in
      if existsSync venvPython then venvPython else "python"
  | None => "python"
  end.

(** [getDocsDirectory]: the settings' path, the workspace's [docs], the
    extension's [docs]; the lines it writes to the output channel are left
    out. *)
Definition getDocsDirectory (config : gmap string string) : string :=
  let extensionDocsPath := path_join [extensionPath; "docs"] in
  let from_workspace :=
    match workspaceFolder with
    | Some fsPath =>
        let workspaceDocsPath := path_join [fsPath; "docs"] in
        if existsSync workspaceDocsPath then workspaceDocsPath else extensionDocsPath
    | None => extensionDocsPath
    end in
  match config !! "docsPath" with
  | Some settingsPath =>
      if nonempty settingsPath && isAbsolute settingsPath && existsSync settingsPath
      then settingsPath
      else from_workspace
  | None => from_workspace
  end.

(** *** Properties *)

(** The three interpreters of a virtual environment, in the order tried. *)
Definition venv_candidates : list string :=
  [venvPythonPath; venvPython3Path; venvPythonPathWin].

(** X1: the interpreter chosen is the first virtual-environment interpreter
    that exists on disk; when none exists it is the first entry of
    [getPythonCommandFallbacks]. *)
Theorem getPythonCommand_choice :
  List.find existsSync venv_candidates = Some getPythonCommand
  \/ (List.find existsSync venv_candidates = None
      /\ head getPythonCommandFallbacks = Some getPythonCommand).
Proof.
  unfold getPythonCommand, getPythonCommandFallbacks, venv_candidates. cbn [List.find].
  destruct (existsSync venvPythonPath); [left; reflexivity|].
  destruct (existsSync venvPython3Path); [left; reflexivity|].
  destruct (existsSync venvPythonPathWin); [left; reflexivity|].
  right. split; [reflexivity|]. destruct (String.eqb platform "win32"); reflexivity.
Qed.

(** X2: the data-entry provider picks the interpreter that extension.ts
    picks, on every host. *)
Theorem data_entry_uses_same_interpreter :
  DataEntry_getPythonCommand = getPythonCommand.
Proof.
  unfold DataEntry_getPythonCommand, getPythonCommand.
  repeat match goal with |- context [if ?b then _ else _] => destruct b end; reflexivity.
Qed.

(** X3: the directory [getDocsDirectory] returns exists on disk, unless it is
    the [docs] directory of the extension, the last resort. *)
Theorem getDocsDirectory_exists config :
  existsSync (getDocsDirectory config) = true
  \/ getDocsDirectory config = path_join [extensionPath; "docs"].
Proof.
  unfold getDocsDirectory.
  assert (Hw : existsSync
                 match workspaceFolder with
                 | Some fsPath =>
                     if existsSync (path_join [fsPath; "docs"])
                     then path_join [fsPath; "docs"] else path_join [extensionPath; "docs"]
                 | None => path_join [extensionPath; "docs"]
                 end = true
               \/ match workspaceFolder with
                  | Some fsPath =>
                      if existsSync (path_join [fsPath; "docs"])
                      then path_join [fsPath; "docs"] else path_join [extensionPath; "docs"]
                  | None => path_join [extensionPath; "docs"]
                  end = path_join [extensionPath; "docs"]).
  { destruct workspaceFolder as [fsPath|]; [|right; reflexivity].
    destruct (existsSync (path_join [fsPath; "docs"])) eqn:He; [left; exact He | right; reflexivity]. }
  destruct (config !! "docsPath") as [settingsPath|]; [|exact Hw].
  destruct (nonempty settingsPath && isAbsolute settingsPath && existsSync settingsPath) eqn:Hs;
    [|exact Hw].
  left. apply andb_true_iff in Hs as [_ Hs]. exact Hs.
Qed.

End WithHost.

(** *** Properties of [setDatabaseConfigEnv] *)

Definition exported_names : list string :=
  ["IMS_DB_NAME"; "IMS_MONGO_URI"; "IMS_MONGO_USERNAME"; "IMS_MONGO_PASSWORD";
   "IMS_MONGO_AUTH_DB"].

Lemma export_if_set_lookup name value env k :
  export_if_set name value env !! k =
  if decide (name = k) then (if nonempty value then Some value else env !! k) else env !! k.
Proof.
  unfold export_if_set. destruct (nonempty value); [rewrite lookup_insert|];
    destruct (decide (name = k)); reflexivity.
Qed.

Lemma getDatabaseName_nonempty config : nonempty (getDatabaseName config) = true.
Proof.
  unfold getDatabaseName. destruct (config !! "databaseName") as [name|]; [|reflexivity].
  destruct (nonempty name) eqn:Hn; [exact Hn | reflexivity].
Qed.

(** What each variable holds after [setDatabaseConfigEnv]. *)
Definition exported (config : gmap string string) (env : gmap string string) (k : string) : option string :=
  if decide (k = "IMS_DB_NAME") then Some (getDatabaseName config)
  else if decide (k = "IMS_MONGO_URI")
       then Some (config_get config "mongoUri" "mongodb://localhost:27017/")
  else if decide (k = "IMS_MONGO_USERNAME")
       then (let v := config_get config "mongoUsername" EmptyString in
             if nonempty v then Some v else env !! k)
  else if decide (k = "IMS_MONGO_PASSWORD")
       then (let v := config_get config "mongoPassword" EmptyString in
             if nonempty v then Some v else env !! k)
  else if decide (k = "IMS_MONGO_AUTH_DB")
       then (let v := config_get config "mongoAuthDatabase" "admin" in
             if nonempty v then Some v else env !! k)
  else env !! k.

Lemma setDatabaseConfigEnv_lookup config env k :
  setDatabaseConfigEnv config env !! k = exported config env k.
Proof.
  unfold setDatabaseConfigEnv, exported.
  rewrite !export_if_set_lookup, !lookup_insert.
  repeat case_decide; simplify_eq; reflexivity.
Qed.

(** X4: after [setDatabaseConfigEnv] the database name and the connection
    URI are exported whatever the settings hold, and the name is never
    empty: an unset or empty name is exported as [ims_database]. *)
Theorem database_always_exported config env :
  setDatabaseConfigEnv config env !! "IMS_DB_NAME" = Some (getDatabaseName config)
  /\ getDatabaseName config <> EmptyString
  /\ (getDatabaseName config = "ims_database"
      \/ config !! "databaseName" = Some (getDatabaseName config))
  /\ setDatabaseConfigEnv config env !! "IMS_MONGO_URI"
     = Some (config_get config "mongoUri" "mongodb://localhost:27017/").
Proof.
  rewrite !setDatabaseConfigEnv_lookup. unfold exported. cbn.
  split; [reflexivity|]. split; [|split; [|reflexivity]].
  - pose proof (getDatabaseName_nonempty config) as Hn. intros He. rewrite He in Hn.
    discriminate Hn.
  - unfold getDatabaseName. destruct (config !! "databaseName") as [name|]; [|auto].
    destruct (nonempty name); auto.
Qed.

(** X5: [setDatabaseConfigEnv] only ever sets variables.  When the user name
    and the password are cleared in the settings, the values exported by an
    earlier call stay in the environment. *)
Theorem cleared_credentials_stay_exported config env :
  config_get config "mongoUsername" EmptyString = EmptyString ->
  config_get config "mongoPassword" EmptyString = EmptyString ->
  setDatabaseConfigEnv config env !! "IMS_MONGO_USERNAME" = env !! "IMS_MONGO_USERNAME"
  /\ setDatabaseConfigEnv config env !! "IMS_MONGO_PASSWORD" = env !! "IMS_MONGO_PASSWORD".
Proof.
  intros Hu Hp. rewrite !setDatabaseConfigEnv_lookup. unfold exported. cbn.
  rewrite Hu, Hp. split; reflexivity.
Qed.

(** X6: [setDatabaseConfigEnv] touches no variable but its five, and a second
    call with the same settings changes nothing. *)
Theorem setDatabaseConfigEnv_idempotent config env :
  setDatabaseConfigEnv config (setDatabaseConfigEnv config env)
  = setDatabaseConfigEnv config env
  /\ filter (fun kv => kv.1 ∉ exported_names) (setDatabaseConfigEnv config env)
     = filter (fun kv => kv.1 ∉ exported_names) env.
Proof.
  split.
  - apply map_eq. intros k. rewrite setDatabaseConfigEnv_lookup.
    unfold exported at 1. rewrite setDatabaseConfigEnv_lookup.
    repeat case_decide; try reflexivity; subst; cbn;
      unfold exported; repeat case_decide; simplify_eq; cbn;
      repeat match goal with |- context [nonempty ?v] => destruct (nonempty v) end;
      reflexivity.
  - apply map_eq. intros k. rewrite !map_lookup_filter.
    rewrite setDatabaseConfigEnv_lookup. unfold exported, exported_names.
    repeat case_decide; try reflexivity; subst.
    all: repeat match goal with
                | |- context [nonempty ?v] => destruct (nonempty v)
                | |- context [@lookup _ _ (gmap string string) _ ?k ?e] =>
                    destruct (e !! k)
                end; cbn.
    all: rewrite ?option_guard_False by set_solver; reflexivity.
Qed.

(** An environment that holds the credentials of an earlier configuration. *)
Definition stale_environment : gmap string string :=
  {[ "IMS_MONGO_USERNAME" := "admin"; "IMS_MONGO_PASSWORD" := "secret" ]}.

Lemma cleared_credentials_stay_exported_witness :
  setDatabaseConfigEnv ∅ stale_environment !! "IMS_MONGO_USERNAME" = Some "admin"
  /\ setDatabaseConfigEnv ∅ stale_environment !! "IMS_MONGO_PASSWORD" = Some "secret".
Proof.
  exact (cleared_credentials_stay_exported ∅ stale_environment eq_refl eq_refl).
Defined.
End Host.

(** ** The tree view: the material nodes *)

Module Materials.

Definition line_feed : ascii := ascii_of_nat 10.

(** [s.split('\n')] *)
Fixpoint split_lines (s : string) : list string :=
  match s with
  | EmptyString => [EmptyString]
  | String c s' =>
      if Ascii.eqb c line_feed then EmptyString :: split_lines s'
      else match split_lines s' with
           | l :: ls => String c l :: ls
           | [] => [String c EmptyString]
           end
  end.

(** The text [getMaterialsAsTreeItems] hands to [JSON.parse]: the trimmed
    output, or its last line that is not blank when it has several. *)
Definition clean_output (stdout : string) : string :=
  let cleanOutput := trim stdout in
  let lines := List.filter (fun line => nonempty (trim line)) (split_lines cleanOutput) in
  if (1 <? length lines)%nat then List.last lines "undefined" else cleanOutput.



Section WithRuntime.

Variable JSON_parse : string -> string + jsval.
Variable js_String : jsval -> string.







End WithRuntime.

(** *** The line handed to the parser *)

Fixpoint has_line_feed (s : string) : bool :=
  match s with
  | EmptyString => false
  | String c s' => Ascii.eqb c line_feed || has_line_feed s'
  end.

Definition nonblank (line : string) : bool := nonempty (trim line).

(** [s] begins with a white space character. *)
Definition starts_space (s : string) : bool :=
  match s with
  | EmptyString => false
  | String a s1 =>
      is_space a ||
      match s1 with
      | EmptyString => false
      | String b s2 =>
          is_space2 a b ||
          match s2 with
          | EmptyString => false
          | String c _ => is_space3 a b c
          end
      end
  end.

Lemma cons_append a (s t : string) : String a s ++ t = String a (s ++ t).
Proof. reflexivity. Qed.

Lemma empty_append (t : string) : EmptyString ++ t = t.
Proof. reflexivity. Qed.

Lemma append_empty (s t : string) : s ++ t = EmptyString -> s = EmptyString /\ t = EmptyString.
Proof. destruct s; [auto | discriminate]. Qed.

Lemma line_feed_is_space c : Ascii.eqb c line_feed = true -> is_space c = true.
Proof. intros H. apply Ascii.eqb_eq in H. subst c. reflexivity. Qed.

(** **** [trimStart] *)

Lemma trim_start_fixed s : starts_space s = false -> trim_start s = s.
Proof.
  destruct s as [|a [|b [|c s]]]; cbn; intros H; [reflexivity| | |].
  - rewrite orb_false_r in H. rewrite H. reflexivity.
  - apply orb_false_iff in H as [Ha Hb]. rewrite orb_false_r in Hb. rewrite Ha, Hb.
    reflexivity.
  - apply orb_false_iff in H as [Ha H]. apply orb_false_iff in H as [Hb Hc].
    rewrite Ha, Hb, Hc. reflexivity.
Qed.

(** Induction along the white space [trimStart] strips. *)
Lemma trim_start_ind (P : string -> Prop) :
  (forall s, starts_space s = false -> P s) ->
  (forall a s, is_space a = true -> P s -> P (String a s)) ->
  (forall a b s, is_space a = false -> is_space2 a b = true -> P s ->
                 P (String a (String b s))) ->
  (forall a b c s, is_space a = false -> is_space2 a b = false ->
                   is_space3 a b c = true -> P s ->
                   P (String a (String b (String c s)))) ->
  forall s, P s.
Proof.
  intros Hfix H1 H2 H3 s.
  assert (H : forall n s, (String.length s <= n)%nat -> P s).
  { clear s. induction n as [|n IH]; intros s Hn.
    - destruct s; [apply Hfix; reflexivity | cbn in Hn; lia].
    - destruct (starts_space s) eqn:Hs; [|apply Hfix, Hs].
      destruct s as [|a s1]; [discriminate|]. cbn in Hn.
      destruct (is_space a) eqn:Ha; [apply H1; [exact Ha | apply IH; lia]|].
      destruct s1 as [|b s2]; [cbn in Hs; rewrite Ha in Hs; discriminate|]. cbn in Hn.
      destruct (is_space2 a b) eqn:Hb; [apply H2; [exact Ha | exact Hb | apply IH; lia]|].
      destruct s2 as [|c s3]; [cbn in Hs; rewrite Ha, Hb in Hs; discriminate|]. cbn in Hn.
      cbn in Hs. rewrite Ha, Hb in Hs. cbn in Hs.
      apply H3; [exact Ha | exact Hb | exact Hs | apply IH; lia]. }
  apply (H (String.length s)). lia.
Qed.

Lemma trim_start_space a s : is_space a = true -> trim_start (String a s) = trim_start s.
Proof. intros Ha. cbn. rewrite Ha. reflexivity. Qed.

Lemma trim_start_space2 a b s :
  is_space a = false -> is_space2 a b = true ->
  trim_start (String a (String b s)) = trim_start s.
Proof. intros Ha Hb. cbn. rewrite Ha, Hb. reflexivity. Qed.

Lemma trim_start_space3 a b c s :
  is_space a = false -> is_space2 a b = false -> is_space3 a b c = true ->
  trim_start (String a (String b (String c s))) = trim_start s.
Proof. intros Ha Hb Hc. cbn. rewrite Ha, Hb, Hc. reflexivity. Qed.

Lemma trim_start_stops s : starts_space (trim_start s) = false.
Proof.
  induction s as [s Hs|a s Ha IH|a b s Ha Hb IH|a b c s Ha Hb Hc IH] using trim_start_ind.
  - rewrite (trim_start_fixed s Hs). exact Hs.
  - rewrite trim_start_space by assumption. exact IH.
  - rewrite trim_start_space2 by assumption. exact IH.
  - rewrite trim_start_space3 by assumption. exact IH.
Qed.

Lemma trim_start_idem s : trim_start (trim_start s) = trim_start s.
Proof. apply trim_start_fixed, trim_start_stops. Qed.

Lemma blank_starts_space s : blank s = true -> s <> EmptyString -> starts_space s = true.
Proof.
  intros Hb Hne. destruct (starts_space s) eqn:Hs; [reflexivity|].
  unfold blank in Hb. rewrite (trim_start_fixed s Hs) in Hb.
  destruct s; [congruence | discriminate].
Qed.

Lemma starts_space_append p q : starts_space p = true -> starts_space (p ++ q) = true.
Proof.
  destruct p as [|a [|b [|c p]]]; cbn; intros H; try discriminate;
    rewrite ?cons_append, ?empty_append.
  - rewrite orb_false_r in H. cbn. rewrite H. reflexivity.
  - apply orb_true_iff in H as [H|H]; [cbn; rewrite H; reflexivity|].
    rewrite orb_false_r in H. cbn. rewrite H. cbn. apply orb_true_r.
  - cbn. exact H.
Qed.

(** White space in front of a text does not count. *)
Lemma trim_start_blank_append s t : blank s = true -> trim_start (s ++ t) = trim_start t.
Proof.
  induction s as [s Hs|a s Ha IH|a b s Ha Hb IH|a b c s Ha Hb Hc IH] using trim_start_ind;
    intros Hbl.
  - destruct s as [|a s]; [reflexivity|].
    rewrite (blank_starts_space _ Hbl) in Hs by discriminate. discriminate.
  - unfold blank in Hbl. rewrite trim_start_space in Hbl by assumption.
    rewrite cons_append, trim_start_space by assumption. apply IH, Hbl.
  - unfold blank in Hbl. rewrite trim_start_space2 in Hbl by assumption.
    rewrite !cons_append, trim_start_space2 by assumption. apply IH, Hbl.
  - unfold blank in Hbl. rewrite trim_start_space3 in Hbl by assumption.
    rewrite !cons_append, trim_start_space3 by assumption. apply IH, Hbl.
Qed.

(** **** [trimEnd] *)

Lemma trim_end_empty s : trim_end s = EmptyString <-> blank s = true.
Proof.
  destruct s as [|c s]; [split; reflexivity|].
  cbn [trim_end]. destruct (blank (String c s)); split; intros H; congruence.
Qed.

(** What [trimEnd] takes off is white space. *)
Lemma trim_end_split s : exists r, s = trim_end s ++ r /\ blank r = true.
Proof.
  induction s as [|c s (r & Hs & Hr)]; [exists EmptyString; split; reflexivity|].
  cbn [trim_end]. destruct (blank (String c s)) eqn:Hb.
  - exists (String c s). split; [reflexivity | exact Hb].
  - exists r. rewrite cons_append, <- Hs. split; [reflexivity | exact Hr].
Qed.

Lemma blank_trim_end s : blank s = false -> blank (trim_end s) = false.
Proof.
  intros Hs. destruct (blank (trim_end s)) eqn:Hb; [|reflexivity].
  destruct (trim_end_split s) as (r & Heq & Hr).
  unfold blank in Hs. rewrite Heq, (trim_start_blank_append _ r Hb) in Hs.
  unfold blank in Hr. rewrite Hs in Hr. discriminate.
Qed.

(** No white space ends a text that [trimEnd] returns. *)
Lemma trim_end_no_blank_suffix s p q :
  trim_end s = p ++ q -> q <> EmptyString -> blank q = false.
Proof.
  revert p. induction s as [|c s IH]; intros p Heq Hq.
  - symmetry in Heq. apply append_empty in Heq as [_ Heq]. congruence.
  - cbn [trim_end] in Heq. destruct (blank (String c s)) eqn:Hb.
    + symmetry in Heq. apply append_empty in Heq as [_ Heq]. congruence.
    + destruct p as [|a p].
      * rewrite empty_append in Heq. rewrite <- Heq.
        pose proof (blank_trim_end _ Hb) as H. cbn [trim_end] in H. rewrite Hb in H.
        exact H.
      * rewrite cons_append in Heq. injection Heq as _ Heq. apply (IH p Heq Hq).
Qed.

(** **** [trim] *)

Lemma nonblank_blank s : nonblank s = negb (blank s).
Proof.
  unfold nonblank, nonempty, trim.
  destruct (trim_end (trim_start s)) as [|c t] eqn:He.
  - apply trim_end_empty in He. unfold blank in He. rewrite trim_start_idem in He.
    unfold blank. destruct (trim_start s); [reflexivity | discriminate].
  - assert (Hb : blank (trim_start s) <> true).
    { intros Hb. apply trim_end_empty in Hb. congruence. }
    unfold blank in Hb. rewrite trim_start_idem in Hb.
    unfold blank. destruct (trim_start s); [congruence | reflexivity].
Qed.

(** A trimmed text begins with no white space and ends with none. *)
Lemma trim_shape s :
  starts_space (trim s) = false
  /\ forall p q, trim s = p ++ q -> q <> EmptyString -> blank q = false.
Proof.
  unfold trim. split; [|apply trim_end_no_blank_suffix].
  destruct (trim_end_split (trim_start s)) as (r & Heq & _).
  destruct (starts_space (trim_end (trim_start s))) eqn:Hs; [|reflexivity].
  pose proof (trim_start_stops s) as Hstop.
  rewrite Heq, (starts_space_append _ r Hs) in Hstop. discriminate.
Qed.

(** **** Lines *)

Lemma split_lines_cons s : exists l ls, split_lines s = l :: ls.
Proof.
  induction s as [|c s (l & ls & IH)]; cbn; [eauto|].
  destruct (Ascii.eqb c line_feed); [eauto|]. rewrite IH. eauto.
Qed.

Lemma split_lines_no_feed s l : In l (split_lines s) -> has_line_feed l = false.
Proof.
  revert l. induction s as [|c s IH]; cbn; intros l Hin.
  - destruct Hin as [<-|[]]. reflexivity.
  - destruct (Ascii.eqb c line_feed) eqn:Hc.
    + destruct Hin as [<-|Hin]; [reflexivity | auto].
    + destruct (split_lines_cons s) as (l0 & ls & Hs). rewrite Hs in *.
      destruct Hin as [<-|Hin]; cbn.
      * rewrite Hc. apply IH. left. reflexivity.
      * apply IH. right. exact Hin.
Qed.

Lemma split_lines_one_line s : has_line_feed s = false -> split_lines s = [s].
Proof.
  induction s as [|c s IH]; cbn; [reflexivity|]. intros H.
  apply orb_false_iff in H as [Hc Hs]. rewrite Hc, (IH Hs). reflexivity.
Qed.

Lemma split_lines_many s :
  has_line_feed s = true -> exists l l' ls, split_lines s = l :: l' :: ls.
Proof.
  induction s as [|c s IH]; cbn; [discriminate|]. intros H.
  destruct (Ascii.eqb c line_feed) eqn:Hc.
  - destruct (split_lines_cons s) as (l & ls & Hs). rewrite Hs. eauto.
  - destruct (IH H) as (l & l' & ls & Hs). rewrite Hs. eauto.
Qed.

(** The text begins with its first line; a line feed follows unless the
    line is the whole text. *)
Lemma first_line_prefix s l ls :
  split_lines s = l :: ls ->
  exists rest, s = l ++ rest
               /\ (rest = EmptyString \/ exists r, rest = String line_feed r).
Proof.
  revert l ls. induction s as [|c s IH]; cbn; intros l ls Hs.
  - injection Hs as <- <-. exists EmptyString. auto.
  - destruct (Ascii.eqb c line_feed) eqn:Hc.
    + injection Hs as <- <-. apply Ascii.eqb_eq in Hc. subst c.
      exists (String line_feed s). split; [reflexivity | eauto].
    + destruct (split_lines_cons s) as (l0 & ls0 & Hs0). rewrite Hs0 in Hs.
      injection Hs as <- <-. destruct (IH _ _ Hs0) as (rest & Heq & Hrest).
      exists rest. rewrite cons_append, <- Heq. auto.
Qed.

(** The text ends with its last line; a line feed precedes it unless the
    line is the whole text. *)
Lemma last_line_suffix s :
  exists pre, s = pre ++ List.last (split_lines s) EmptyString
              /\ ((has_line_feed s = false /\ pre = EmptyString)
                  \/ (has_line_feed s = true
                      /\ exists p, pre = p ++ String line_feed EmptyString)).
Proof.
  induction s as [|c s (pre & Heq & Hpre)]; [exists EmptyString; auto|].
  cbn [split_lines has_line_feed].
  destruct (split_lines_cons s) as (l & ls & Hs).
  destruct (Ascii.eqb c line_feed) eqn:Hc.
  - apply Ascii.eqb_eq in Hc. subst c. rewrite Hs in *.
    change (List.last (EmptyString :: l :: ls) EmptyString)
      with (List.last (l :: ls) EmptyString).
    exists (String line_feed pre). rewrite cons_append, <- Heq. split; [reflexivity|].
    right. split; [reflexivity|]. destruct Hpre as [[_ ->]|[_ [p ->]]].
    + exists EmptyString. reflexivity.
    + exists (String line_feed p). reflexivity.
  - cbn [orb]. destruct (has_line_feed s) eqn:Hf.
    + destruct (split_lines_many s Hf) as (l0 & l1 & ls' & Hs'). rewrite Hs' in *.
      change (List.last (String c l0 :: l1 :: ls') EmptyString)
        with (List.last (l0 :: l1 :: ls') EmptyString).
      exists (String c pre). rewrite cons_append, <- Heq. split; [reflexivity|].
      right. split; [reflexivity|].
      destruct Hpre as [[Hfalse _]|[_ [p ->]]]; [discriminate|].
      exists (String c p). reflexivity.
    + rewrite (split_lines_one_line s Hf) in *. cbn [List.last] in *.
      exists EmptyString. split; [reflexivity | auto].
Qed.

Lemma blank_line_feed : blank (String line_feed EmptyString) = true.
Proof. reflexivity. Qed.

(** The first and the last line of a trimmed text that is not empty are not
    blank. *)
Lemma first_line_nonblank s l ls :
  trim s <> EmptyString -> split_lines (trim s) = l :: ls -> nonblank l = true.
Proof.
  intros Hne Hs. destruct (trim_shape s) as [Hstart _].
  destruct (first_line_prefix _ _ _ Hs) as (rest & Heq & Hrest).
  rewrite nonblank_blank. destruct (blank l) eqn:Hb; [exfalso | reflexivity].
  destruct l as [|a l].
  - rewrite empty_append in Heq. destruct Hrest as [->|[r ->]]; [congruence|].
    rewrite Heq in Hstart. discriminate Hstart.
  - rewrite Heq, (starts_space_append _ rest) in Hstart; [discriminate|].
    apply blank_starts_space; [exact Hb | discriminate].
Qed.

Lemma last_line_nonblank s :
  trim s <> EmptyString ->
  nonblank (List.last (split_lines (trim s)) EmptyString) = true.
Proof.
  intros Hne. destruct (trim_shape s) as [_ Hend].
  destruct (last_line_suffix (trim s)) as (pre & Heq & Hpre).
  rewrite nonblank_blank.
  destruct (List.last (split_lines (trim s)) EmptyString) as [|a l] eqn:Hl.
  - exfalso. destruct Hpre as [[_ ->]|[_ [p ->]]]; [exact (Hne Heq)|].
    rewrite Extension.string_app_empty_r in Heq.
    assert (Hb : blank (String line_feed EmptyString) = false)
      by (apply (Hend p _ Heq); discriminate).
    rewrite blank_line_feed in Hb. discriminate.
  - rewrite (Hend pre (String a l) Heq); [reflexivity | discriminate].
Qed.

Lemma last_In {A} (l : list A) d : l <> [] -> In (List.last l d) l.
Proof.
  induction l as [|a l IH]; [congruence|]. intros _.
  destruct l as [|b l]; [left; reflexivity|]. right. apply IH. discriminate.
Qed.

Lemma last_default {A} (l : list A) d d' : l <> [] -> List.last l d = List.last l d'.
Proof.
  induction l as [|a l IH]; [congruence|]. intros _.
  destruct l as [|b l]; [reflexivity|]. apply IH. discriminate.
Qed.

Lemma filter_last {A} (f : A -> bool) (l : list A) d :
  l <> [] -> f (List.last l d) = true ->
  List.last (List.filter f l) d = List.last l d.
Proof.
  induction l as [|a l IH]; [congruence|]. intros _ Hf.
  destruct l as [|b l].
  - cbn in *. rewrite Hf. reflexivity.
  - change (List.last (a :: b :: l) d) with (List.last (b :: l) d) in *.
    assert (Hne : b :: l <> []) by discriminate.
    specialize (IH Hne Hf).
    change (List.filter f (a :: b :: l))
      with (if f a then a :: List.filter f (b :: l) else List.filter f (b :: l)).
    destruct (f a); [|exact IH].
    destruct (List.filter f (b :: l)) as [|x xs] eqn:Hx; [|exact IH].
    exfalso. pose proof (last_In (b :: l) d Hne) as Hin.
    assert (Hin' : In (List.last (b :: l) d) (List.filter f (b :: l))).
    { apply filter_In. auto. }
    rewrite Hx in Hin'. destruct Hin'.
Qed.

(** *** The promise of [getMaterialsAsTreeItems] *)






Section Resolves.

Variable JSON_parse : string -> string + jsval.
Variable js_String : jsval -> string.







End Resolves.

(** X8: the text [getMaterialsAsTreeItems] parses is the last line of the
    trimmed output that is not blank (the empty text when there is none): the
    test for several lines changes nothing, and the text never holds a line
    feed. *)
Theorem clean_output_is_last_line stdout :
  clean_output stdout
  = List.last (List.filter nonblank (split_lines (trim stdout))) EmptyString
  /\ has_line_feed (clean_output stdout) = false.
Proof.
  assert (Heq : clean_output stdout
                = List.last (List.filter nonblank (split_lines (trim stdout))) EmptyString).
  { unfold clean_output. fold nonblank.
    destruct (trim stdout) as [|c u] eqn:Ht; [reflexivity|].
    assert (Hne : trim stdout <> EmptyString) by (rewrite Ht; discriminate).
    rewrite <- Ht.
    destruct (has_line_feed (trim stdout)) eqn:Hf.
    - destruct (split_lines_many _ Hf) as (l & l' & ls & Hs).
      pose proof (last_line_nonblank _ Hne) as Hlast.
      pose proof (first_line_nonblank _ _ _ Hne Hs) as Hl0.
      assert (Hfl : List.last (List.filter nonblank (split_lines (trim stdout))) EmptyString
                    = List.last (split_lines (trim stdout)) EmptyString).
      { apply filter_last; [rewrite Hs; discriminate | exact Hlast]. }
      rewrite Hs in *.
      change (List.filter nonblank (l :: l' :: ls))
        with (if nonblank l then l :: List.filter nonblank (l' :: ls)
              else List.filter nonblank (l' :: ls)) in *.
      rewrite Hl0 in *.
      destruct (List.filter nonblank (l' :: ls)) as [|x xs] eqn:Hx.
      + exfalso.
        change (List.last (l :: l' :: ls) EmptyString)
          with (List.last (l' :: ls) EmptyString) in Hlast.
        assert (Hin : In (List.last (l' :: ls) EmptyString)
                        (List.filter nonblank (l' :: ls))).
        { apply filter_In. split; [apply last_In; discriminate | exact Hlast]. }
        rewrite Hx in Hin. destruct Hin.
      + change (1 <? length (l :: x :: xs))%nat with true. cbn match.
        apply last_default. discriminate.
    - pose proof (split_lines_one_line _ Hf) as Hone.
      pose proof (first_line_nonblank _ _ _ Hne Hone) as Hnb.
      rewrite Hone. cbn [List.filter]. rewrite Hnb. reflexivity. }
  split; [exact Heq|].
  rewrite Heq.
  destruct (List.filter nonblank (split_lines (trim stdout))) as [|x xs] eqn:Hx;
    [reflexivity|].
  apply (split_lines_no_feed (trim stdout)).
  assert (Hin : In (List.last (x :: xs) EmptyString) (x :: xs)) by (apply last_In; discriminate).
  rewrite <- Hx in Hin at 2. apply filter_In in Hin as [Hin _]. exact Hin.
Qed.

(** A line of wide spaces after the JSON line is blank. *)
Example clean_output_skips_wide_space :
  clean_output ("{}" ++ newline ++ ideographic_space ++ newline ++ ideographic_space)
  = "{}".
Proof. reflexivity. Qed.
End Materials.

(** ** How the commands of extension.ts end *)

Module Commands.

(** A child that exits with code 0, and one that is still running. *)
Definition exits_ok (r : child_run) : bool :=
  match ending r with
  | Exits code => Extension.is_zero code
  | _ => false
  end.

Definition pending (r : child_run) : bool :=
  match ending r with
  | StillRunning => true
  | _ => false
  end.

(** How the promise of [runScript] ends for a run of its child. *)
Definition script_outcome {S} (scriptName : string) (r : child_run) (s : S)
  : outcome S jsval :=
  match ending r with
  | StillRunning => Hung s
  | Exits code =>
      if Extension.is_zero code then Done JUndefined s
      else Failed (js_error "Error"
                     ("脚本 '" ++ scriptName ++ "' 执行失败，退出码: " ++
                      Extension.code_text code ++ ".")) s
  | FailsToStart message _ =>
      Failed (js_error "Error"
                ("无法启动脚本 '" ++ scriptName ++ "': " ++ message ++
                 ". 请确保Python环境已正确配置在系统PATH中。")) s
  end.

Lemma runScript_run {S} scriptName args (o : oracle S) h s :
  run (Extension.runScript scriptName args) o h s
  = ((h ++ [TLaunch (Extension.spawn_call scriptName args)])%list,
     script_outcome scriptName (on_spawn o h (Extension.spawn_call scriptName args)) s).
Proof.
  unfold Extension.runScript, spawn, script_outcome. cbn [bind run].
  rewrite Extension.listen_run. unfold Extension.ended.
  destruct (ending _) as [|code|message [code|]]; cbn; try reflexivity.
  all: destruct (Extension.is_zero code); reflexivity.
Qed.

(** X9: [runScript] launches its script once and resolves exactly when the
    child exits with code 0; it rejects with an [Error] when the child exits
    with another code, is ended by a signal or cannot be started, and stays
    pending while the child runs. *)
Theorem runScript_resolves_on_exit_zero {S} scriptName args (o : oracle S) h s :
  let c := Extension.spawn_call scriptName args in
  let result := run (Extension.runScript scriptName args) o h s in
  fst result = (h ++ [TLaunch c])%list
  /\ (exits_ok (on_spawn o h c) = true <-> snd result = Done JUndefined s)
  /\ (pending (on_spawn o h c) = true <-> snd result = Hung s)
  /\ (exits_ok (on_spawn o h c) = false -> pending (on_spawn o h c) = false ->
      exists message, snd result = Failed (js_error "Error" message) s).
Proof.
  cbn zeta. rewrite runScript_run. cbn [fst snd].
  unfold exits_ok, pending, script_outcome.
  split; [reflexivity|].
  destruct (ending _) as [|code|message [code|]]; try destruct (Extension.is_zero code);
    repeat split; intros; try discriminate; try reflexivity; eauto.
Qed.

Ltac end_cases :=
  match goal with
  | |- context [ending ?r] => destruct (ending r) as [| ? | ? [?|]]
  end;
  cbn [andb orb];
  try match goal with
      | |- context [Extension.is_zero ?c] => destruct (Extension.is_zero c); cbn [andb orb]
      end.

Ltac trace_done :=
  cbn; rewrite <- ?app_assoc, skipn_app, Nat.sub_diag, skipn_all; cbn;
  split; [reflexivity | eauto].

Section WithRuntime.

Variable JSON_stringify : jsval -> string.
Variable js_String : jsval -> string.
Variable docsDir : string.
Variable path_join : string -> string -> string.
Variable path_basename : string -> string.

Definition convert := @Extension.runExcelToJsonProcess js_String docsDir path_join path_basename.
Definition migrate := @Extension.runMigrationProcess js_String path_basename.

(** The two scripts of the conversion and of the migration. *)
Definition parse_step (excelPath : string) : call :=
  Extension.spawn_call "parse_manager.py" [excelPath; path_join docsDir "parsed_data.json"].
Definition mapping_step : call :=
  Extension.spawn_call "generate_standard_material_table.py" ["--docs-dir"; docsDir].
Definition import_step : call :=
  Extension.spawn_call "import_to_mongodb_with_standard_codes.py" [].
Definition verify_step : call := Extension.spawn_call "verify_import.py" [].

(** What a two-step command leaves behind, for the runs [r1] and [r2] of its
    children: the second script runs only after the first exited with code 0,
    and one notification ends the command. *)
Definition two_steps {S} (first second : call) (r1 r2 : child_run)
    (t : list (titem S)) : Prop :=
  launches t = (if exits_ok r1 then [first; second] else [first])
  /\ (if pending r1 || (exits_ok r1 && pending r2) then shown t = []
      else if exits_ok r1 && exits_ok r2 then exists text, shown t = [(LInfo, text)]
      else exists text, shown t = [(LError, text)]).

Ltac two_steps_proof :=
  unfold added, two_steps, exits_ok, pending;
  rewrite run_try_catch, run_bind, runScript_run; unfold script_outcome;
  end_cases; try solve [trace_done];
  rewrite run_bind, runScript_run; unfold script_outcome;
  end_cases; trace_done.

(** X10: the conversion and the migration run their second script only after
    the first has exited with code 0, and end with one notification:
    information when both scripts exited with code 0, an error when either
    failed; they show nothing while a script runs. *)
Theorem second_step_needs_first {S} excelPath (o : oracle S) h s :
  two_steps (parse_step excelPath) mapping_step
    (on_spawn o h (parse_step excelPath))
    (on_spawn o (h ++ [TLaunch (parse_step excelPath)])%list mapping_step)
    (added (convert S excelPath) o h s)
  /\ two_steps import_step verify_step
       (on_spawn o h import_step)
       (on_spawn o (h ++ [TLaunch import_step])%list verify_step)
       (added (migrate S excelPath) o h s).
Proof.
  split.
  - unfold convert, Extension.runExcelToJsonProcess, Extension.show_message, act,
      parse_step, mapping_step.
    two_steps_proof.
  - unfold migrate, Extension.runMigrationProcess, Extension.show_message, act,
      import_step, verify_step.
    two_steps_proof.
Qed.

(** X11: the add-material dialog goes on to the script only when no box
    was dismissed or left empty and every pick was made; otherwise it does
    nothing at all.  With all answers it launches the script once; the tree
    is refreshed only after an exit with code 0 and the information message,
    a failure is answered by one error message and no refresh. *)
Theorem add_material_refreshes_on_success {S} a (o : oracle S) h s :
  let t := added (Extension.showAddMaterialDialog JSON_stringify js_String a) o h s in
  match Extension.materialInfo a with
  | None =>
      run (Extension.showAddMaterialDialog JSON_stringify js_String a) o h s = (h, Done tt s)
  | Some info =>
      let c := Extension.add_material_call JSON_stringify info in
      launches t = [c]
      /\ (if pending (on_spawn o h c) then actions t = []
          else if exits_ok (on_spawn o h c)
               then exists text,
                      actions t = [ShowMessage LInfo text;
                                   Workbench "ims.refreshTreeView" EmptyString]
               else exists text, actions t = [ShowMessage LError text])
  end.
Proof.
  cbn zeta. unfold added, Extension.showAddMaterialDialog.
  destruct (Extension.materialInfo a) as [info|] eqn:Hinfo; [|reflexivity].
  assert (Hname : exists name, Extension.materialName a = Some name).
  { unfold Extension.materialInfo, Extension.entered in Hinfo.
    destruct (Extension.materialName a); [eauto | discriminate]. }
  destruct Hname as [name ->].
  unfold Extension.runAddMaterialScript, Extension.show_message, act, spawn, pending, exits_ok.
  rewrite run_try_catch, run_bind. cbn [bind run].
  rewrite Extension.listen_run. unfold Extension.ended.
  end_cases; trace_done.
Qed.

End WithRuntime.

Section Tables.

Variable JSON_parse : string -> string + jsval.
Variable JSON_stringify : jsval -> string.
Variable js_String : jsval -> string.

(** X12: [loadTableData] launches the query once and posts [loading: true]
    first.  [loading: false] follows exactly when the child emits ['close'],
    and then one message, which is the data only after an exit with code 0:
    a child that cannot be started and emits no ['close'] leaves the panel
    loading, with one error message. *)
Theorem loadTableData_loading_state {S} tableName (o : oracle S) h s :
  let c := Extension.table_call tableName in
  let child := on_spawn o (h ++ [TAct (PostMessage (Bridge.loading true)) s])%list c in
  let t := added (Extension.loadTableData JSON_parse js_String tableName) o h s in
  launches t = [c]
  /\ match ending child with
     | StillRunning => posts t = [Bridge.loading true]
     | Exits code =>
         exists m, posts t = [Bridge.loading true; Bridge.loading false; m]
                   /\ (Bridge.is_command "data" m = true \/ Bridge.is_command "error" m = true)
                   /\ (Bridge.is_command "data" m = true -> Extension.is_zero code = true)
     | FailsToStart message None =>
         posts t = [Bridge.loading true;
                    Bridge.view_error ("无法启动查询脚本: " ++ message)]
     | FailsToStart message (Some code) =>
         exists m, posts t = [Bridge.loading true;
                              Bridge.view_error ("无法启动查询脚本: " ++ message);
                              Bridge.loading false; m]
     end.
Proof.
  cbn zeta. unfold added, Extension.loadTableData, Extension.post, Extension.quietly, act, spawn.
  cbn [bind run]. rewrite Extension.listen_run. unfold Extension.ended, Bridge.loading.
  destruct (ending _) as [|code|message [code|]].
  - trace_done.
  - cbn [bind run]. destruct (Extension.is_zero code);
      [destruct (JSON_parse _)|];
      cbn; rewrite <- ?app_assoc, skipn_app, Nat.sub_diag, skipn_all; cbn;
      (split; [reflexivity|]); eexists; (split; [reflexivity|]); cbn; split; auto;
      discriminate.
  - cbn [bind run]. destruct (Extension.is_zero code);
      [destruct (JSON_parse _)|]; trace_done.
  - trace_done.
Qed.

(** X13: a business view launches no process exactly when its name is none
    of the seven known views, and then posts one error message that names
    the view. *)
Theorem unknown_view_launches_nothing {S} viewName params (o : oracle S) h s :
  let t := added (Extension.loadBusinessViewData JSON_parse js_String viewName params) o h s in
  (Extension.business_view viewName = None <-> launches t = [])
  /\ (Extension.business_view viewName = None ->
      run (Extension.loadBusinessViewData JSON_parse js_String viewName params) o h s
      = ((h ++ [TAct (PostMessage (Bridge.view_error ("不支持的业务视图: " ++ viewName))) s])%list,
         Done tt s)).
Proof.
  cbn zeta. unfold added, Extension.loadBusinessViewData.
  destruct (Extension.business_view viewName) as [[[script opts] format]|].
  - split; [|discriminate]. split; [discriminate|].
    unfold Extension.post, act, spawn. cbn [bind run].
    match goal with
    | |- context [run ?p o ?h' s] =>
        destruct (run_extends p o h' s) as [t' Ht']; rewrite Ht'
    end.
    rewrite <- !app_assoc, skipn_app, Nat.sub_diag, skipn_all. cbn.
    discriminate.
  - split; [|reflexivity]. split; [|reflexivity]. intros _.
    cbn. rewrite skipn_app, Nat.sub_diag, skipn_all. reflexivity.
Qed.

End Tables.
End Commands.

(** ** The first JSON object of a table query's output *)

Module FirstObject.

Import Extension.

Fixpoint occurrences (c : ascii) (s : string) : Z :=
  match s with
  | EmptyString => 0
  | String x s' => (if Ascii.eqb x c then 1 else 0) + occurrences c s'
  end.

(** Braces opened and not yet closed at the end of [s]. *)
Definition depth (s : string) : Z := occurrences open_brace s - occurrences close_brace s.

(** [obj] is a brace block: it opens with a brace, and its braces balance at
    its last character and not before. *)
Definition brace_block (obj : string) : Prop :=
  (exists body, obj = String open_brace body)
  /\ depth obj = 0
  /\ (forall p suf, obj = p ++ suf -> p <> EmptyString -> suf <> EmptyString -> 0 < depth p).

Lemma app_cons x (a b : string) : String x a ++ b = String x (a ++ b).
Proof. reflexivity. Qed.

Lemma app_nil (b : string) : EmptyString ++ b = b.
Proof. reflexivity. Qed.

Lemma length_app (a b : string) :
  String.length (a ++ b) = (String.length a + String.length b)%nat.
Proof.
  induction a as [|x a IH]; [reflexivity|]. rewrite app_cons. cbn. rewrite IH. reflexivity.
Qed.

Lemma occurrences_nonneg c s : 0 <= occurrences c s.
Proof. induction s as [|x s IH]; cbn; [lia|]. destruct (Ascii.eqb x c); lia. Qed.

Lemma occurrences_app c a b : occurrences c (a ++ b) = occurrences c a + occurrences c b.
Proof.
  induction a as [|x a IH]; [reflexivity|]. rewrite app_cons. cbn. rewrite IH. lia.
Qed.

Lemma depth_app a b : depth (a ++ b) = depth a + depth b.
Proof. unfold depth. rewrite !occurrences_app. lia. Qed.

Lemma depth_step c :
  depth (String c EmptyString)
  = (if Ascii.eqb c open_brace then 1 else 0) - (if Ascii.eqb c close_brace then 1 else 0).
Proof. unfold depth. cbn. lia. Qed.

Lemma indexOf_skip c pre s :
  occurrences c pre = 0 ->
  indexOf c (pre ++ String c s) = Some (String.length pre).
Proof.
  induction pre as [|x pre IH]; intros H.
  - rewrite app_nil. cbn. rewrite Ascii.eqb_refl. reflexivity.
  - rewrite app_cons. cbn in *. pose proof (occurrences_nonneg c pre).
    destruct (Ascii.eqb x c); [lia|]. rewrite IH by lia. reflexivity.
Qed.

Lemma lastIndexOf_after c a b :
  exists j, lastIndexOf c (a ++ String c b) = Some j /\ (String.length a <= j)%nat.
Proof.
  induction a as [|x a (j & IH & Hj)].
  - rewrite app_nil. cbn.
    destruct (lastIndexOf c b) as [j|]; [exists (S j); split; [reflexivity | lia]|].
    rewrite Ascii.eqb_refl. exists 0%nat. split; [reflexivity | lia].
  - rewrite app_cons. cbn. rewrite IH. exists (S j). split; [reflexivity | lia].
Qed.

Lemma string_drop_app a b : string_drop (String.length a) (a ++ b) = b.
Proof.
  induction a as [|x a IH]; [rewrite app_nil; destruct b; reflexivity|].
  rewrite app_cons. cbn. exact IH.
Qed.

Lemma substring_prefix b c : substring 0 (String.length b) (b ++ c) = b.
Proof.
  induction b as [|y b IHb]; [rewrite app_nil; destruct c; reflexivity|].
  rewrite app_cons. cbn. rewrite IHb. reflexivity.
Qed.

Lemma substring_app a b c :
  substring (String.length a) (String.length b) (a ++ b ++ c) = b.
Proof.
  induction a as [|x a IH]; [exact (substring_prefix b c) | rewrite app_cons; cbn; exact IH].
Qed.

(** The loop over a block: the count returns to zero at its last character. *)
Lemma balanced_at_block p suf rest i steps :
  brace_block (p ++ suf) ->
  suf <> EmptyString ->
  (String.length suf <= steps)%nat ->
  balanced_at (suf ++ rest) i steps (depth p) = Some (i + String.length suf - 1)%nat.
Proof.
  revert p i steps. induction suf as [|c suf IH]; intros p i steps Hblock Hne Hsteps;
    [congruence|].
  destruct steps as [|steps]; [cbn in Hsteps; lia|].
  rewrite app_cons. cbn [balanced_at].
  assert (Hd : (if Ascii.eqb c close_brace
                then (if Ascii.eqb c open_brace then depth p + 1 else depth p) - 1
                else (if Ascii.eqb c open_brace then depth p + 1 else depth p))
               = depth (p ++ String c EmptyString)).
  { rewrite depth_app, depth_step.
    destruct (Ascii.eqb c open_brace), (Ascii.eqb c close_brace); lia. }
  rewrite Hd.
  assert (Hsplit : p ++ String c suf = (p ++ String c EmptyString) ++ suf).
  { rewrite string_app_assoc, app_cons, app_nil. reflexivity. }
  destruct suf as [|d suf'].
  - destruct Hblock as (_ & Hzero & _). rewrite Hzero. cbn. f_equal. lia.
  - destruct Hblock as (Hopen & Hzero & Hpos).
    assert (Hp : 0 < depth (p ++ String c EmptyString)).
    { apply (Hpos _ (String d suf')); [exact Hsplit | destruct p; discriminate | discriminate]. }
    destruct (depth (p ++ String c EmptyString) =? 0) eqn:Hz; [lia|].
    rewrite (IH (p ++ String c EmptyString) (S i) steps).
    + f_equal. cbn [String.length]. lia.
    + rewrite <- Hsplit. split; [exact Hopen|]. split; assumption.
    + discriminate.
    + cbn [String.length] in *. lia.
Qed.

Lemma block_ends_closed obj :
  brace_block obj -> exists front, obj = front ++ String close_brace EmptyString.
Proof.
  intros (Hopen & Hzero & Hpos).
  assert (Hsnoc : forall s, s <> EmptyString -> exists front c, s = front ++ String c EmptyString).
  { induction s as [|x s IH]; [congruence|]. intros _.
    destruct s as [|y s]; [exists EmptyString, x; reflexivity|].
    destruct IH as (front & c & Hs); [discriminate|]. rewrite Hs.
    exists (String x front), c. rewrite app_cons. reflexivity. }
  destruct Hopen as [body Hobj].
  destruct (Hsnoc obj) as (front & c & Hfc); [rewrite Hobj; discriminate|].
  exists front. rewrite Hfc. f_equal. f_equal.
  rewrite Hfc, depth_app, depth_step in Hzero.
  destruct front as [|x front].
  - (* a block of one character would be an open brace *)
    rewrite Hobj, app_nil in Hfc. injection Hfc as <- _.
    vm_compute in Hzero. discriminate Hzero.
  - assert (Hp : 0 < depth (String x front)).
    { apply (Hpos _ (String c EmptyString)); [exact Hfc | discriminate | discriminate]. }
    destruct (Ascii.eqb c close_brace) eqn:Hc;
      [apply Ascii.eqb_eq in Hc; congruence|].
    destruct (Ascii.eqb c open_brace); lia.
Qed.

(** X14: when the output holds a brace block after text without an opening
    brace, [first_object] returns exactly that block, whatever follows it: a
    second copy of the object or trailing log lines are cut off. *)
Theorem first_object_is_first_block pre obj rest :
  occurrences open_brace pre = 0 ->
  brace_block obj ->
  first_object (pre ++ obj ++ rest) = obj.
Proof.
  intros Hpre Hblock.
  destruct (block_ends_closed obj Hblock) as [front Hfront].
  destruct Hblock as (Hopen & Hzero & Hpos). destruct Hopen as [body Hobj].
  unfold first_object.
  assert (Hstart : indexOf open_brace (pre ++ obj ++ rest) = Some (String.length pre)).
  { rewrite Hobj, app_cons. apply indexOf_skip, Hpre. }
  rewrite Hstart.
  assert (Hlen : String.length obj = S (String.length front)).
  { rewrite Hfront, length_app. cbn. lia. }
  destruct (lastIndexOf_after close_brace (pre ++ front) rest) as (j & Hj & Hle).
  assert (Hsame : (pre ++ front) ++ String close_brace rest = pre ++ obj ++ rest).
  { rewrite Hfront, !string_app_assoc, app_cons, app_nil. reflexivity. }
  rewrite Hsame in Hj. rewrite Hj.
  rewrite length_app in Hle.
  rewrite string_drop_app.
  rewrite (balanced_at_block EmptyString obj rest).
  - replace (String.length pre + String.length obj - 1 + 1 - String.length pre)%nat
      with (String.length obj) by lia.
    apply substring_app.
  - rewrite app_nil. split; [eauto|]. split; assumption.
  - rewrite Hobj. discriminate.
  - lia.
Qed.

(** A table query's answer, printed twice with a log line before it. *)
Definition doubled_output : string :=
  "loading..." ++ "{" ++ dquote ++ "rows" ++ dquote ++ ": {}}" ++
  "{" ++ dquote ++ "rows" ++ dquote ++ ": {}}".

Definition single_object : string := "{" ++ dquote ++ "rows" ++ dquote ++ ": {}}".

(** The depths after each proper prefix of [s], the text before being
    [p]. *)
Fixpoint prefix_depths (p s : string) : list Z :=
  match s with
  | EmptyString => []
  | String c EmptyString => []
  | String c s' => depth (p ++ String c EmptyString) :: prefix_depths (p ++ String c EmptyString) s'
  end.

Lemma prefix_depths_positive p s :
  Forall (fun d => 0 < d) (prefix_depths p s) ->
  forall q suf, s = q ++ suf -> q <> EmptyString -> suf <> EmptyString -> 0 < depth (p ++ q).
Proof.
  revert p. induction s as [|c s IH]; intros p Hall q suf Heq Hq Hsuf.
  - destruct q; [congruence | discriminate].
  - destruct q as [|x q]; [congruence|]. rewrite app_cons in Heq. injection Heq as <- Heq.
    destruct s as [|d s'].
    + destruct q; [rewrite app_nil in Heq; congruence | discriminate].
    + change (prefix_depths p (String c (String d s')))
        with (depth (p ++ String c EmptyString)
              :: prefix_depths (p ++ String c EmptyString) (String d s')) in Hall.
      inversion Hall as [|? ? Hhd Htl]; subst.
      destruct q as [|y q]; [exact Hhd|].
      replace (p ++ String c (String y q)) with ((p ++ String c EmptyString) ++ String y q)
        by (rewrite string_app_assoc, app_cons, app_nil; reflexivity).
      apply (IH _ Htl _ suf); [exact Heq | discriminate | exact Hsuf].
Qed.

Lemma single_object_block : brace_block single_object.
Proof.
  split; [eexists; reflexivity|]. split; [reflexivity|].
  intros p suf Heq Hp Hs.
  rewrite <- (app_nil p).
  apply (prefix_depths_positive EmptyString single_object) with (suf := suf);
    [|exact Heq | exact Hp | exact Hs].
  vm_compute. repeat constructor.
Qed.

Lemma first_object_is_first_block_witness :
  first_object doubled_output = single_object.
Proof.
  exact (first_object_is_first_block "loading..." single_object single_object
           eq_refl single_object_block).
Defined.
End FirstObject.

(** ** What the panels post *)

Module Panels.

#[local] Arguments events_of : simpl never.

(** The commands of the messages the table panel posts. *)
Definition table_commands : list string :=
  ["loading"; "data"; "error"; "operationResult"; "recordUpdated"; "recordDeleted"].

Definition command_in (names : list string) (m : jsval) : bool :=
  existsb (fun name => Bridge.is_command name m) names.

(** [v == null]: the values on which a method call throws. *)
Definition nullish (v : jsval) : bool :=
  match v with
  | JUndefined | JNull => true
  | _ => false
  end.

(** An answer of a data loader to the request [message]: it carries the
    request's id and a boolean [success]. *)
Definition answers (message m : jsval) : Prop :=
  get_prop m "requestId" = Some (get_prop_opt message "requestId")
  /\ exists b, get_prop m "success" = Some (JBool b).

Ltac posts_done :=
  cbn; repeat constructor; try reflexivity; eauto.

Section WithRuntime.

Variable JSON_parse : string -> string + jsval.
Variable JSON_stringify : jsval -> string.
Variable js_String : jsval -> string.

Lemma table_commands_wp tableName message w :
  wp (Bridge.table_listener JSON_parse JSON_stringify js_String tableName message) w
     (fun t _ => Forall (fun m => command_in table_commands m = true) (posts t)).
Proof.
  unfold Bridge.table_listener, Extension.table_onDidReceiveMessage, Extension.loadTableData,
    Extension.handleCrudOperation, Extension.crud_close.
  Bridge.wp_walk; posts_done.
Qed.

(** X15: every message the table panel posts has one of six commands;
    [recordSaved] is not among them, since the panel passes the operations
    [add], [update] and [delete] and never [create]: an added record is
    answered with [operationResult]. *)
Theorem table_panel_never_posts_recordSaved tableName message o h w :
  let t := added (Bridge.table_listener JSON_parse JSON_stringify js_String tableName message)
             o h w in
  Forall (fun m => command_in table_commands m = true) (posts t)
  /\ Forall (fun m => Bridge.is_command "recordSaved" m = false) (posts t).
Proof.
  cbn zeta. pose proof (wp_sound _ _ _ (table_commands_wp tableName message w) o h) as H.
  cbn beta in H. split; [exact H|].
  eapply List.Forall_impl; [|exact H]. intros m Hm. cbn beta in Hm.
  unfold command_in, table_commands, Bridge.is_command in *. cbn in Hm.
  destruct (get_prop_opt m "command") as [| | | |c| |]; try reflexivity.
  cbn in *.
  repeat (apply orb_true_iff in Hm as [Hm|Hm];
          [apply String.eqb_eq in Hm; subst c; reflexivity|]).
  discriminate Hm.
Qed.

Lemma data_load_wp {S} script args startFailure loadFailure requestFailure message (w : S) :
  wp (Extension.data_load JSON_parse js_String script args
        startFailure loadFailure requestFailure message) w
     (fun t _ => Forall (answers message) (posts t)
                 /\ launches t = [Extension.spawn_call script args]).
Proof.
  unfold Extension.data_load, answers.
  Bridge.wp_walk; posts_done.
Qed.

(** X16: each of the six data loaders of the inventory panel launches its
    script once, and every message it posts answers the request: it carries
    the request's [requestId] and a boolean [success]. *)
Theorem data_loaders_answer_the_request {S} message (o : oracle S) h w :
  Forall (fun load : jsval -> prog S unit =>
            Forall (answers message) (posts (added (load message) o h w))
            /\ length (launches (added (load message) o h w)) = 1%nat)
    [Extension.handleInventoryDataLoad JSON_parse js_String;
     Extension.handlePurchaseDataLoad JSON_parse js_String;
     Extension.handleSalesDataLoad JSON_parse js_String;
     Extension.handleSuppliersLoad JSON_parse js_String;
     Extension.handleCustomersLoad JSON_parse js_String;
     Extension.handleMaterialsLoad JSON_parse js_String].
Proof.
  assert (Hload : forall script args a b c,
             Forall (answers message)
               (posts (added (Extension.data_load JSON_parse js_String script args a b c
                                message) o h w))
             /\ length (launches (added (Extension.data_load JSON_parse js_String script args
                                           a b c message) o h w)) = 1%nat).
  { intros script args a b c.
    pose proof (wp_sound _ _ _ (data_load_wp script args a b c message w) o h) as [Hp Hl].
    split; [exact Hp | rewrite Hl; reflexivity]. }
  repeat (apply List.Forall_cons; [apply Hload|]). apply List.Forall_nil.
Qed.

Lemma crud_reload_wp {S} tableName operation data (w : S) :
  wp (Extension.handleCrudOperation JSON_parse JSON_stringify js_String tableName operation data) w
     (fun t _ =>
        launches t = [Extension.crud_call JSON_stringify tableName operation data]
        \/ (launches t = [Extension.crud_call JSON_stringify tableName operation data;
                          Extension.table_call tableName]
            /\ List.Exists
                 (fun m => get_prop m "command" = Some (JStr (Extension.result_command operation))
                           /\ truthy (get_prop_opt m "success") = true)
                 (posts t))).
Proof.
  unfold Extension.handleCrudOperation, Extension.crud_close, Extension.loadTableData.
  Bridge.wp_walk;
    first [ left; reflexivity
          | right; split; [reflexivity|];
            first [ apply List.Exists_cons_hd; split; [reflexivity | cbn; assumption]
                  | apply List.Exists_cons_tl, List.Exists_cons_hd;
                    split; [reflexivity | cbn; assumption] ] ].
Qed.

(** X17: [handleCrudOperation] reloads the table only after it has posted
    an answer whose [success] is truthy, under the command of the
    operation; after a failed start, a non-zero exit, output that is no
    JSON or a result without success it launches nothing more. *)
Theorem table_reloads_only_after_success {S} tableName operation data (o : oracle S) h w :
  let t := added (Extension.handleCrudOperation JSON_parse JSON_stringify js_String
                    tableName operation data) o h w in
  launches t = [Extension.crud_call JSON_stringify tableName operation data]
  \/ (launches t = [Extension.crud_call JSON_stringify tableName operation data;
                    Extension.table_call tableName]
      /\ List.Exists
           (fun m => get_prop m "command" = Some (JStr (Extension.result_command operation))
                     /\ truthy (get_prop_opt m "success") = true)
           (posts t)).
Proof.
  exact (wp_sound _ _ _ (crud_reload_wp tableName operation data w) o h).
Qed.

(** The two trend requests, which read [params.dimension]. *)
Definition trend_requests {S} : list (string * string * (jsval -> prog S unit)) :=
  [("analyze_sales_trend", "salesTrendData",
    Extension.handleSalesTrendRequest JSON_parse JSON_stringify js_String);
   ("analyze_purchase_trend", "purchaseTrendData",
    Extension.handlePurchaseTrendRequest JSON_parse JSON_stringify js_String)].

Lemma trend_without_params_wp {S} method command failure params (w : S) :
  nullish params = true ->
  wp (Extension.analysis_request JSON_parse JSON_stringify js_String method command failure
        true params) w
     (fun t _ =>
        launches t = [Extension.analysis_call JSON_stringify method params]
        /\ Forall (fun m => Bridge.is_command command m = true
                            /\ get_prop m "success" = Some (JBool false)) (posts t)).
Proof.
  intros Hp. unfold Extension.analysis_request, Extension.runDataAnalysisScript,
    Extension.await, Bridge.is_command.
  destruct params; try discriminate Hp;
    Bridge.wp_walk; try reflexivity;
    repeat constructor; cbn; rewrite ?String.eqb_refl; reflexivity.
Qed.

(** X18: a trend request without parameters still runs the analysis, and
    whatever the script answers the panel is told that the request failed:
    reading [params.dimension] throws after the script has ended, so every
    message posted has [success: false]. *)
Theorem trend_without_params_fails {S} params (o : oracle S) h w :
  nullish params = true ->
  Forall (fun '(method, command, request) =>
            launches (added (request params) o h w)
            = [Extension.analysis_call JSON_stringify method params]
            /\ Forall (fun m => Bridge.is_command command m = true
                                /\ get_prop m "success" = Some (JBool false))
                 (posts (added (request params) o h w)))
    (trend_requests (S := S)).
Proof.
  intros Hp. unfold trend_requests.
  repeat (apply List.Forall_cons; [|]); [| |apply List.Forall_nil].
  - exact (wp_sound _ _ _ (trend_without_params_wp _ _ _ params w Hp) o h).
  - exact (wp_sound _ _ _ (trend_without_params_wp _ _ _ params w Hp) o h).
Qed.

Variable workspaceFolder : option string.
Variable path_dirname : string -> string.
Variable export_choice : option string.

Ltac unfold_handlers :=
  unfold Supplier._handleMessage, Supplier._executePythonScript,
    Customer._handleMessage, Customer._addCustomer, Customer._updateCustomer,
    Customer._deleteCustomer, Customer._batchDeleteCustomers, Customer.modify,
    Customer._loadCustomers, Customer._executePythonScript,
    Material._handleMessage, Material._loadSuppliers, Material._loadMaterials,
    Material._loadSupplierCodes, Material._addMaterial, Material._assignSupplierCodes,
    Material._exportMaterials, Material.load, Material._executePythonScript,
    Dashboard._handleMessage, Dashboard._getDashboardData, Dashboard._executePythonScript,
    DataEntry.handleMessage, DataEntry.runPythonScript, Extension.await.

(** The five provider handlers. *)
Definition handlers : list (jsval -> prog Webview.world unit) :=
  [Supplier._handleMessage JSON_parse JSON_stringify js_String;
   Customer._handleMessage JSON_parse JSON_stringify js_String workspaceFolder;
   Material._handleMessage JSON_parse JSON_stringify js_String workspaceFolder
     path_dirname export_choice;
   Dashboard._handleMessage JSON_parse JSON_stringify js_String;
   DataEntry.handleMessage JSON_parse JSON_stringify js_String].

Lemma closed_panel_wp panels subscriptions message :
  Forall (fun handler : jsval -> prog Webview.world unit =>
            wp (handler message)
               {| Webview.panels := panels; Webview.subscriptions := subscriptions;
                  Webview._panel := None |}
               (fun t _ => posts t = []))
    handlers.
Proof.
  unfold handlers. repeat (apply List.Forall_cons; [|]); [| | | | |apply List.Forall_nil].
  all: unfold_handlers; Bridge.wp_walk; reflexivity.
Qed.

(** X19: once the panel of a provider is closed, a message still being
    handled posts nothing: the script runs, its result is dropped. *)
Theorem closed_panel_gets_no_message message o h w :
  Webview._panel w = None ->
  Forall (fun handler : jsval -> prog Webview.world unit =>
            posts (added (handler message) o h w) = [])
    handlers.
Proof.
  intros Hp. destruct w as [panels subscriptions p]. cbn in Hp. subst p.
  pose proof (closed_panel_wp panels subscriptions message) as H.
  eapply List.Forall_impl; [|exact H]. intros handler Hw. cbn beta in *.
  exact (wp_sound _ _ _ Hw o h).
Qed.

(** The handlers that catch what they throw. *)
Definition guarded_handlers : list (jsval -> prog Webview.world unit) :=
  [Material._handleMessage JSON_parse JSON_stringify js_String workspaceFolder
     path_dirname export_choice;
   Dashboard._handleMessage JSON_parse JSON_stringify js_String;
   DataEntry.handleMessage JSON_parse JSON_stringify js_String].

Definition not_rejected {A} (o : outcome Webview.world A) : Prop :=
  match o with
  | Failed _ _ => False
  | _ => True
  end.

Lemma guarded_wp message w :
  Forall (fun handler : jsval -> prog Webview.world unit =>
            wp (handler message) w (fun _ o => not_rejected o))
    guarded_handlers.
Proof.
  unfold guarded_handlers. repeat (apply List.Forall_cons; [|]); [| | |apply List.Forall_nil].
  all: unfold_handlers; Bridge.wp_walk; exact I.
Qed.

(** X20: the handlers of the material, dashboard and data-entry providers
    never reject: whatever the message and whatever the script does, an
    exception ends in a message or a notification, not in a rejected
    promise. *)
Theorem guarded_handlers_never_reject message o h w :
  Forall (fun handler : jsval -> prog Webview.world unit =>
            not_rejected (snd (run (handler message) o h w)))
    guarded_handlers.
Proof.
  pose proof (guarded_wp message w) as H.
  eapply List.Forall_impl; [|exact H]. intros handler Hw. cbn beta in *.
  exact (wp_sound _ _ _ Hw o h).
Qed.

(** X21: a [list] message to the supplier panel that lacks [page] or [limit]
    fails on [toString] before anything is launched or posted, and nothing
    catches the error. *)
Theorem supplier_list_needs_page message o h w :
  is_str (get_prop_opt message "command") "list" = true ->
  nullish (get_prop_opt message "page") || nullish (get_prop_opt message "limit") = true ->
  exists e, run (Supplier._handleMessage JSON_parse JSON_stringify js_String message) o h w
            = (h, Failed e w).
Proof.
  intros Hc Hp.
  unfold Supplier._handleMessage, destructure, toString.
  destruct message as [| | | | | |fs]; try discriminate Hc.
  cbn [bind]. destruct (get_prop_opt (JObj fs) "command") as [| | | |c| |];
    try discriminate Hc.
  cbn in Hc. rewrite Hc.
  destruct (get_prop_opt (JObj fs) "page") as [| |b|n|s|xs|gs];
    try (eexists; reflexivity);
    destruct (get_prop_opt (JObj fs) "limit") as [| |b'|n'|s'|xs'|gs'];
    try (eexists; reflexivity); discriminate Hp.
Qed.

(** X22: without a workspace folder neither the customer nor the material
    provider launches a process.  The material provider reports the missing
    folder; the customer provider's handler rejects on each of its five
    commands and posts nothing. *)
Theorem no_workspace_no_launch message o h w :
  let customer := Customer._handleMessage JSON_parse JSON_stringify js_String None message in
  let material := Material._handleMessage JSON_parse JSON_stringify js_String None
                    path_dirname export_choice message in
  launches (added customer o h w) = []
  /\ launches (added material o h w) = []
  /\ not_rejected (snd (run material o h w))
  /\ (existsb (is_str (get_prop_opt message "command"))
        ["loadCustomers"; "addCustomer"; "updateCustomer"; "deleteCustomer";
         "batchDeleteCustomers"] = true ->
      exists e, run customer o h w = (h, Failed e w)).
Proof.
  cbn zeta.
  assert (Hc : wp (Customer._handleMessage JSON_parse JSON_stringify js_String None message) w
                 (fun t o => launches t = []
                             /\ (existsb (is_str (get_prop_opt message "command"))
                                   ["loadCustomers"; "addCustomer"; "updateCustomer";
                                    "deleteCustomer"; "batchDeleteCustomers"] = true ->
                                 t = [] /\ exists e, o = Failed e w))).
  { unfold_handlers. Bridge.wp_walk; try reflexivity; try (eexists; reflexivity);
      exfalso;
      repeat match goal with
             | H : context [existsb _ _] |- _ => cbn in H
             | E : is_str _ _ = false, H : _ = true |- _ => rewrite E in H; clear E
             end;
      congruence. }
  assert (Hm : wp (Material._handleMessage JSON_parse JSON_stringify js_String None
                     path_dirname export_choice message) w
                 (fun t o => launches t = [] /\ not_rejected o)).
  { unfold_handlers. Bridge.wp_walk; try reflexivity; exact I. }
  pose proof (wp_sound _ _ _ Hc o h) as [Hcl Hcf].
  pose proof (wp_sound _ _ _ Hm o h) as [Hml Hmr].
  split; [exact Hcl|]. split; [exact Hml|]. split; [exact Hmr|].
  intros Hcmd. destruct (Hcf Hcmd) as [Ht [e He]]. exists e.
  rewrite (surjective_pairing (run _ o h w)), He. f_equal.
  rewrite run_added, Ht. apply app_nil_r.
Qed.

(** X23: when the material script prints nothing but white space, the three
    loaders report that no data came back: the parser is never consulted,
    and one error message is posted. *)
Theorem blank_output_is_reported folder command failure o h w i r :
  on_exec o h (Material.script_call JSON_stringify command JUndefined) = Some r ->
  ex_error r = None ->
  trim (ex_stdout r) = EmptyString ->
  Webview._panel w = Some i ->
  run (Material.load JSON_parse JSON_stringify js_String (Some folder) command failure) o h w
  = ((h ++ [TLaunch (Material.script_call JSON_stringify command JUndefined);
            TAct (PostMessage
                    (Material.error_message
                       (failure ++ js_String (js_error "Error" "Python脚本没有返回数据")))) w])%list,
     Done tt w).
Proof.
  intros Hexec Herr Hblank Hpanel.
  unfold Material.load, Material._executePythonScript, execAsync, sendMessage.
  cbn [bind try_catch exec run get act]. rewrite Hexec, Herr.
  cbn [bind try_catch run]. rewrite Hblank. cbn [nonempty String.eqb negb bind try_catch run].
  rewrite Hpanel. cbn. rewrite <- app_assoc. reflexivity.
Qed.

Lemma assoc_get_set k k' v l :
  assoc_get k (assoc_set k' v l) = if String.eqb k k' then Some v else assoc_get k l.
Proof.
  induction l as [|[k0 v0] l IH]; cbn.
  - destruct (String.eqb k k'); reflexivity.
  - destruct (String.eqb k' k0) eqn:H0; cbn.
    + apply String.eqb_eq in H0. subst k0. destruct (String.eqb k k'); reflexivity.
    + destruct (String.eqb k k0) eqn:H1.
      * apply String.eqb_eq in H1. subst k0. rewrite String.eqb_sym, H0. reflexivity.
      * exact IH.
Qed.

Lemma assoc_get_snoc k l k' v :
  assoc_get k (l ++ [(k', v)])%list
  = match assoc_get k l with
    | Some x => Some x
    | None => if String.eqb k k' then Some v else None
    end.
Proof.
  induction l as [|[k0 v0] l IH]; cbn; [reflexivity|].
  destruct (String.eqb k k0); [reflexivity | exact IH].
Qed.

(** A spread reads each property from the last binding the spread value
    has for it, and from the literal before it otherwise. *)
Lemma spread_get base fs k :
  get_prop (spread base (JObj fs)) k
  = Some (match assoc_get k (rev fs) with
          | Some x => x
          | None => match assoc_get k base with Some x => x | None => JUndefined end
          end).
Proof.
  unfold spread. cbn [own_props get_prop]. f_equal.
  assert (H : forall acc,
             assoc_get k (fold_left (fun acc kv => assoc_set (fst kv) (snd kv) acc) fs acc)
             = match assoc_get k (rev fs) with
               | Some x => Some x
               | None => assoc_get k acc
               end).
  { induction fs as [|[k' v] fs IH]; intros acc; [reflexivity|].
    cbn [fold_left rev fst snd]. rewrite IH, assoc_get_snoc, assoc_get_set.
    destruct (assoc_get k (rev fs)); [reflexivity|].
    destruct (String.eqb k k'); reflexivity. }
  rewrite H. destruct (assoc_get k (rev fs)); reflexivity.
Qed.

(** X24: the customer list is posted as the script's result with the
    command [customersLoaded] put in front of it, so a result that has a
    [command] field of its own replaces the one of the reply. *)
Theorem result_command_replaces_reply folder data o h w i r fs :
  on_exec o h (Customer.script_call JSON_stringify "list" data) = Some r ->
  ex_error r = None ->
  JSON_parse (trim (ex_stdout r)) = inr (JObj fs) ->
  Webview._panel w = Some i ->
  exists m,
    posts (added (Customer._loadCustomers JSON_parse JSON_stringify js_String (Some folder) data)
             o h w) = [m]
    /\ get_prop m "command"
       = Some (default (JStr "customersLoaded") (assoc_get "command" (rev fs))).
Proof.
  intros Hexec Herr Hparse Hpanel.
  unfold added, Customer._loadCustomers, Customer._executePythonScript, execAsync, parse,
    sendMessage.
  cbn [bind try_catch exec run get act]. rewrite Hexec, Herr.
  cbn [bind try_catch run]. rewrite Hparse. cbn [bind try_catch run]. rewrite Hpanel.
  cbn [bind run act fst].
  exists (spread [("command", JStr "customersLoaded")] (JObj fs)).
  rewrite <- app_assoc, skipn_app, Nat.sub_diag, skipn_all. split; [reflexivity|].
  rewrite spread_get. cbn. destruct (assoc_get "command" (rev fs)); reflexivity.
Qed.

End WithRuntime.

Lemma closed_panel_gets_no_message_witness :
  Forall (fun handler : jsval -> prog Webview.world unit =>
            posts (added (handler Bridge.add_supplier) Bridge.answering [] Webview.initial) = [])
    (handlers no_parse plain_stringify plain_String None id None).
Proof.
  exact (closed_panel_gets_no_message no_parse plain_stringify plain_String None id None
           Bridge.add_supplier Bridge.answering [] Webview.initial eq_refl).
Defined.

Lemma trend_without_params_fails_witness :
  Forall (fun '(method, command, request) =>
            launches (added (request JUndefined) Bridge.answering [] Webview.shown_once)
            = [Extension.analysis_call plain_stringify method JUndefined]
            /\ Forall (fun m => Bridge.is_command command m = true
                                /\ get_prop m "success" = Some (JBool false))
                 (posts (added (request JUndefined) Bridge.answering [] Webview.shown_once)))
    (trend_requests (parse_only "{}" (JObj [])) plain_stringify plain_String).
Proof.
  exact (trend_without_params_fails (parse_only "{}" (JObj [])) plain_stringify plain_String
           JUndefined Bridge.answering [] Webview.shown_once eq_refl).
Defined.

Definition list_without_page : jsval := JObj [("command", JStr "list")].

Lemma supplier_list_needs_page_witness :
  exists e, run (Supplier._handleMessage no_parse plain_stringify plain_String list_without_page)
              Bridge.answering [] Webview.shown_once
            = ([], Failed e Webview.shown_once).
Proof.
  exact (supplier_list_needs_page no_parse plain_stringify plain_String list_without_page
           Bridge.answering [] Webview.shown_once eq_refl eq_refl).
Defined.

(** An environment whose script prints only a line break, and one whose
    script names its own command. *)
Definition blank_result : exec_result :=
  {| ex_error := None; ex_stdout := newline; ex_stderr := EmptyString |}.

Definition printing_blank : oracle Webview.world :=
  {| on_exec := fun _ _ => Some blank_result; on_spawn := fun _ _ => endless_run |}.

Lemma blank_output_is_reported_witness :
  posts (fst (run (Material.load no_parse plain_stringify plain_String (Some "/work")
                     "loadMaterials" "加载物料列表失败: ")
                printing_blank [] Webview.shown_once))
  = [Material.error_message "加载物料列表失败: Error: Python脚本没有返回数据"].
Proof.
  rewrite (blank_output_is_reported no_parse plain_stringify plain_String "/work"
             "loadMaterials" "加载物料列表失败: " printing_blank [] Webview.shown_once
             0%nat blank_result eq_refl eq_refl eq_refl eq_refl).
  reflexivity.
Defined.

Definition own_command : list (string * jsval) :=
  [("command", JStr "refresh"); ("success", JBool true)].

Definition naming_command : exec_result :=
  {| ex_error := None; ex_stdout := "{}"; ex_stderr := EmptyString |}.

Definition answering_command : oracle Webview.world :=
  {| on_exec := fun _ _ => Some naming_command; on_spawn := fun _ _ => endless_run |}.

Lemma result_command_replaces_reply_witness :
  exists m,
    posts (added (Customer._loadCustomers (parse_only "{}" (JObj own_command))
                    plain_stringify plain_String (Some "/work") JUndefined)
             answering_command [] Webview.shown_once) = [m]
    /\ get_prop m "command" = Some (JStr "refresh").
Proof.
  exact (result_command_replaces_reply (parse_only "{}" (JObj own_command)) plain_stringify
           plain_String "/work" JUndefined answering_command [] Webview.shown_once 0%nat
           naming_command own_command eq_refl eq_refl eq_refl eq_refl).
Defined.
End Panels.

(** ** The shape of the tree and the windows of a provider *)

Module TreeShape.

(** The node of a table: its label shows the collection and its Chinese
    name, and it opens the table's data. *)
Definition table_item (name chineseName : string) : Tree.tree_item :=
  {| Tree.label := name ++ " (" ++ chineseName ++ ")";
     Tree.iconPath := Some "database"; Tree.contextValue := Some "table";
     Tree.tooltip := None;
     Tree.command := Some ("ims.showTableData", "查看表数据",
                           [JStr name; JStr chineseName]) |}.

Definition tables_root : Tree.tree_item :=
  {| Tree.label := "数据库表"; Tree.iconPath := Some "database";
     Tree.contextValue := Some "databaseTablesRoot"; Tree.tooltip := None;
     Tree.command := None |}.

Section WithRuntime.

Variable JSON_parse : string -> string + jsval.
Variable js_String : jsval -> string.
Variable inherited : string -> option jsval.

(** [String(s)] of a string is the string. *)
Hypothesis String_of_string : forall s, js_String (JStr s) = s.

Lemma assoc_get_first k v (m : list (string * string)) pre post :
  m = (pre ++ (k, v) :: post)%list ->
  ~ In k (map fst pre) ->
  assoc_get k (map (fun kv => (fst kv, JStr (snd kv))) m) = Some (JStr v).
Proof.
  intros -> Hpre. induction pre as [|[k0 v0] pre IH]; cbn.
  - rewrite String.eqb_refl. reflexivity.
  - destruct (String.eqb k k0) eqn:Hk.
    + apply String.eqb_eq in Hk. subst k0. exfalso. apply Hpre. left. reflexivity.
    + apply IH. intros Hin. apply Hpre. right. exact Hin.
Qed.

Lemma default_items m :
  List.NoDup (map fst m) ->
  List.Forall (fun kv => nonempty (snd kv) = true) m ->
  map (Tree.collection_item js_String inherited m) (map (fun kv => JStr (fst kv)) m)
  = map (fun kv => table_item (fst kv) (snd kv)) m.
Proof.
  intros Hnd Hne.
  assert (H : forall pre post, m = (pre ++ post)%list ->
              map (Tree.collection_item js_String inherited m) (map (fun kv => JStr (fst kv)) post)
              = map (fun kv => table_item (fst kv) (snd kv)) post).
  { intros pre post. revert pre. induction post as [|[k v] post IH]; intros pre Hm;
      [reflexivity|].
    cbn [map fst snd]. f_equal.
    - unfold Tree.collection_item, table_item. rewrite String_of_string.
      rewrite (assoc_get_first k v m pre post Hm).
      + assert (Hv : nonempty v = true).
        { rewrite List.Forall_forall in Hne. apply (Hne (k, v)). rewrite Hm.
          apply in_or_app. right. left. reflexivity. }
        unfold js_or. cbn [truthy]. unfold nonempty in Hv. rewrite Hv.
        rewrite String_of_string. reflexivity.
      + rewrite Hm, map_app in Hnd. cbn in Hnd.
        apply List.NoDup_remove_2 in Hnd. intros Hin. apply Hnd.
        apply in_or_app. left. exact Hin.
    - apply (IH (pre ++ [(k, v)])%list). rewrite Hm, <- app_assoc. reflexivity. }
  exact (H [] m eq_refl).
Qed.

(** X25: after a connection check that failed, the table node of the tree
    lists the tables of the mapping, in its order: one node per table,
    labelled with the name and the Chinese name, that opens the table.  The
    mapping names each table once and gives none an empty name. *)
Theorem failed_check_lists_mapped_tables o h st r o' h' :
  on_exec o h Tree.check_call = Some r ->
  Tree.path_of JSON_parse r <> Tree.FetchSucceeded ->
  List.NoDup (map fst (Tree.tableMapping st)) ->
  List.Forall (fun kv => nonempty (snd kv) = true) (Tree.tableMapping st) ->
  let st' := final_state (snd (run (Tree.checkConnection JSON_parse js_String) o h st)) in
  run (Tree.getChildren js_String inherited (Some tables_root)) o' h' st'
  = (h', Done (map (fun kv => table_item (fst kv) (snd kv)) (Tree.tableMapping st)) st').
Proof.
  intros Hexec Hpath Hnd Hne.
  destruct (Tree.callback_run JSON_parse js_String r o (h ++ [TLaunch Tree.check_call])%list st)
    as (t & s1 & Hrun & Hconn & Hmap & _ & Hfail & _).
  destruct (Hfail Hpath) as [Hcoll _].
  assert (Hfinal : run (Tree.checkConnection JSON_parse js_String) o h st
                   = (((h ++ [TLaunch Tree.check_call]) ++ t ++ [TAct Refresh s1])%list,
                      Done tt s1)).
  { unfold Tree.checkConnection. cbn [bind exec run]. rewrite Hexec.
    change (fun r0 => bind (Ret r0)
                        (fun r1 => Tree.checkConnection_callback JSON_parse js_String r1))
      with (fun r0 => Tree.checkConnection_callback JSON_parse js_String r0).
    cbn [bind]. exact Hrun. }
  cbn zeta. rewrite Hfinal. cbn [snd final_state].
  unfold Tree.getChildren, Tree.getChildren_connected, Tree.getCollectionsAsTreeItems.
  cbn [bind get run]. rewrite Hconn. cbn [negb tables_root Tree.contextValue].
  cbn [String.eqb Ascii.eqb Bool.eqb bind get run]. rewrite Hcoll.
  unfold Tree.mapping_keys. cbn [run]. rewrite Hmap.
  rewrite (default_items _ Hnd Hne). reflexivity.
Qed.

(** X26: the tree has two levels.  In a connected provider every child of
    a root node is a leaf: asked for its children, the provider returns none
    and shows nothing. *)
Theorem tree_has_two_levels st root o h t items st' child o' h' :
  Tree.isConnected st = true ->
  In root Tree.root_items ->
  run (Tree.getChildren js_String inherited (Some root)) o h st = (t, Done items st') ->
  In child items ->
  run (Tree.getChildren js_String inherited (Some child)) o' h' st' = (h', Done [] st').
Proof.
  intros Hconn Hroot Hrun Hchild.
  assert (Hleaf : forall c st0, Tree.isConnected st0 = true ->
            In (Tree.contextValue c) [Some "table"; Some "businessView"; Some "managementView"] ->
            run (Tree.getChildren js_String inherited (Some c)) o' h' st0 = (h', Done [] st0)).
  { intros c st0 Hc Hin. unfold Tree.getChildren, Tree.getChildren_connected.
    cbn [bind get run]. rewrite Hc. cbn [negb].
    destruct Hin as [<-|[<-|[<-|[]]]]; reflexivity. }
  unfold Tree.getChildren in Hrun. cbn [bind get run] in Hrun. rewrite Hconn in Hrun.
  cbn [negb] in Hrun. unfold Tree.getChildren_connected in Hrun.
  destruct Hroot as [<-|[<-|[<-|[]]]]; cbn in Hrun.
  - unfold Tree.getCollectionsAsTreeItems in Hrun. cbn in Hrun.
    destruct (Tree.collections st); cbn in Hrun; inversion Hrun; subst;
      try destruct Hchild.
    apply in_map_iff in Hchild as (x & <- & _).
    apply Hleaf; [exact Hconn | left; reflexivity].
  - inversion Hrun; subst. apply Hleaf; [exact Hconn|].
    cbn in Hchild.
    repeat (destruct Hchild as [<-|Hchild]; [right; left; reflexivity|]). destruct Hchild.
  - inversion Hrun; subst. apply Hleaf; [exact Hconn|].
    cbn in Hchild.
    repeat (destruct Hchild as [<-|Hchild]; [right; right; left; reflexivity|]).
    destruct Hchild.
Qed.

(** X27: an answer of the script that parses, reports no error and names
    no collections counts as a successful check: no warning is shown, the
    default tables are not loaded, and the table node of the tree is
    empty. *)
Theorem answer_without_collections_empties_tables o h st r result o' h' :
  on_exec o h Tree.check_call = Some r ->
  Tree.path_of JSON_parse r = Tree.FetchSucceeded ->
  JSON_parse (ex_stdout r) = inr result ->
  truthy (get_prop_opt result "collections") = false ->
  let done := run (Tree.checkConnection JSON_parse js_String) o h st in
  let st' := final_state (snd done) in
  shown (fst done) = shown h
  /\ Tree.collections st' = JArr []
  /\ run (Tree.getChildren js_String inherited (Some tables_root)) o' h' st' = (h', Done [] st').
Proof.
  intros Hexec Hpath Hparse Hnone.
  destruct (Tree.callback_run JSON_parse js_String r o (h ++ [TLaunch Tree.check_call])%list st)
    as (t & s1 & Hrun & Hconn & Hmap & _ & _ & Hok).
  destruct (Hok Hpath) as (Hshown & result' & Hparse' & Hcoll).
  rewrite Hparse in Hparse'. injection Hparse' as <-.
  unfold js_or in Hcoll. rewrite Hnone in Hcoll.
  assert (Hfinal : run (Tree.checkConnection JSON_parse js_String) o h st
                   = (((h ++ [TLaunch Tree.check_call]) ++ t ++ [TAct Refresh s1])%list,
                      Done tt s1)).
  { unfold Tree.checkConnection. cbn [bind exec run]. rewrite Hexec.
    change (fun r0 => bind (Ret r0)
                        (fun r1 => Tree.checkConnection_callback JSON_parse js_String r1))
      with (fun r0 => Tree.checkConnection_callback JSON_parse js_String r0).
    cbn [bind]. exact Hrun. }
  cbn zeta. rewrite Hfinal. cbn [fst snd final_state].
  split; [|split; [exact Hcoll|]].
  - unfold shown in *. rewrite !flat_map_app, Hshown. cbn. rewrite !app_nil_r. reflexivity.
  - unfold Tree.getChildren, Tree.getChildren_connected, Tree.getCollectionsAsTreeItems.
    cbn [bind get run]. rewrite Hconn. cbn [negb tables_root Tree.contextValue].
    cbn [String.eqb Ascii.eqb Bool.eqb bind get run]. rewrite Hcoll. reflexivity.
Qed.

End WithRuntime.

(** The provider after a failed check of the default mapping. *)
Definition connected_state : Tree.state :=
  {| Tree.isConnected := true;
     Tree.collections := Tree.mapping_keys Tree.default_mapping;
     Tree.tableMapping := Tree.default_mapping |}.

Lemma default_mapping_names_once :
  List.NoDup (map fst Tree.default_mapping)
  /\ List.Forall (fun kv => nonempty (snd kv) = true) Tree.default_mapping.
Proof.
  split.
  - cbn. repeat (constructor; [cbn; intuition discriminate|]). constructor.
  - repeat constructor.
Qed.

Lemma failed_check_lists_mapped_tables_witness :
  run (Tree.getChildren plain_String plain_inherited (Some tables_root)) Tree.failing_oracle []
    (final_state (snd (run (Tree.checkConnection no_parse plain_String) Tree.failing_oracle []
                         Tree.initial_state)))
  = ([], Done (map (fun kv => table_item (fst kv) (snd kv)) Tree.default_mapping)
           (final_state (snd (run (Tree.checkConnection no_parse plain_String)
                                Tree.failing_oracle [] Tree.initial_state)))).
Proof.
  refine (failed_check_lists_mapped_tables no_parse plain_String plain_inherited
            (fun s => eq_refl)
            Tree.failing_oracle [] Tree.initial_state Tree.failing_exec Tree.failing_oracle []
            eq_refl _ (proj1 default_mapping_names_once) (proj2 default_mapping_names_once)).
  vm_compute. discriminate.
Defined.

Lemma tree_has_two_levels_witness :
  run (Tree.getChildren plain_String plain_inherited (Some (table_item "materials" "物料信息表")))
    Tree.failing_oracle [] connected_state
  = ([], Done [] connected_state).
Proof.
  refine (tree_has_two_levels plain_String plain_inherited connected_state tables_root Tree.failing_oracle []
            [] _ connected_state _ Tree.failing_oracle [] eq_refl _ eq_refl _).
  - left. reflexivity.
  - left. reflexivity.
Defined.
(** A script that prints an empty object. *)
Definition empty_answer : exec_result :=
  {| ex_error := None; ex_stdout := "{}"; ex_stderr := EmptyString |}.

Definition answering_empty : oracle Tree.state :=
  {| on_exec := fun _ _ => Some empty_answer; on_spawn := fun _ _ => endless_run |}.

(** The provider after the check of [answering_empty]. *)
Definition after_empty_answer : Tree.state :=
  final_state (snd (run (Tree.checkConnection (parse_only "{}" (JObj [])) plain_String)
                      answering_empty [] Tree.initial_state)).

Lemma answer_without_collections_empties_tables_witness :
  shown (fst (run (Tree.checkConnection (parse_only "{}" (JObj [])) plain_String)
                answering_empty [] Tree.initial_state)) = []
  /\ Tree.collections after_empty_answer = JArr []
  /\ run (Tree.getChildren plain_String plain_inherited (Some tables_root)) answering_empty []
        after_empty_answer
     = ([], Done [] after_empty_answer).
Proof.
  exact (answer_without_collections_empties_tables (parse_only "{}" (JObj [])) plain_String
           plain_inherited
           answering_empty [] Tree.initial_state empty_answer (JObj []) answering_empty []
           eq_refl eq_refl eq_refl eq_refl).
Defined.
End TreeShape.

(** ** The panels of a provider *)

Module Windows.

Section Provider.

Variable k : Webview.provider.
Variable page : string.

(** What one creation of the panel adds to [context.subscriptions]: the
    dispose listener, and the message listener where it is registered with
    them. *)
Definition listeners_per_panel : nat :=
  if Webview.p_message_subscribed k then 2%nat else 1%nat.

Lemma subscriptions_step w ev :
  Webview.subscriptions w = (length (Webview.panels w) * listeners_per_panel)%nat ->
  Webview.subscriptions (Webview.step k page w ev)
  = (length (Webview.panels (Webview.step k page w ev)) * listeners_per_panel)%nat.
Proof.
  intros Hs. unfold listeners_per_panel in *.
  destruct ev as [|i|i|i c]; cbn.
  - unfold Webview.show. destruct (Webview._panel w) as [i|]; cbn.
    + rewrite length_alter. exact Hs.
    + rewrite length_app. cbn. rewrite Hs.
      destruct (Webview.p_message_subscribed k); lia.
  - unfold Webview.dispose. destruct (Webview.panels w !! i) as [p|]; [|exact Hs].
    destruct (Webview.disposed p); [exact Hs|]. cbn. rewrite length_alter. exact Hs.
  - rewrite length_alter. exact Hs.
  - rewrite length_alter. exact Hs.
Qed.

(** X28: a provider has at most one open panel: in every window reached by
    showing, closing, hiding and moving, two panels that are not disposed
    are the same panel, the one [_panel] refers to. *)
Theorem one_open_panel w i j p q :
  Webview.reachable k page w ->
  Webview.panels w !! i = Some p -> Webview.disposed p = false ->
  Webview.panels w !! j = Some q -> Webview.disposed q = false ->
  i = j /\ Webview._panel w = Some i.
Proof.
  intros Hreach Hp Hpd Hq Hqd.
  apply (Webview.reachable_inv k page) in Hreach as [_ Hone].
  pose proof (Hone _ _ Hp Hpd) as Hi. pose proof (Hone _ _ Hq Hqd) as Hj.
  split; [congruence | exact Hi].
Qed.

(** X29: [context.subscriptions] only grows: it holds the listeners of
    every panel the provider ever created, one or two per panel, and closing
    a panel removes none of them. *)
Theorem subscriptions_never_shrink w :
  Webview.reachable k page w ->
  Webview.subscriptions w = (length (Webview.panels w) * listeners_per_panel)%nat
  /\ forall i, Webview.subscriptions (Webview.dispose i w) = Webview.subscriptions w.
Proof.
  intros Hreach. split.
  - induction Hreach as [|w ev Hreach IH]; [reflexivity|].
    apply subscriptions_step, IH.
  - intros i. unfold Webview.dispose.
    destruct (Webview.panels w !! i) as [p|]; [|reflexivity].
    destruct (Webview.disposed p); reflexivity.
Qed.

End Provider.

(** The material panel shown, closed and shown again. *)
Definition reopened : Webview.world :=
  Webview.step Webview.materialManagement Webview.sample_page
    (Webview.step Webview.materialManagement Webview.sample_page Webview.shown_once
       (Webview.EDispose 0))
    Webview.EShow.

Lemma reopened_reachable :
  Webview.reachable Webview.materialManagement Webview.sample_page reopened.
Proof. repeat apply Webview.reach_step. apply Webview.reach_initial. Qed.

Lemma one_open_panel_witness :
  1%nat = 1%nat /\ Webview._panel reopened = Some 1%nat.
Proof.
  exact (one_open_panel Webview.materialManagement Webview.sample_page reopened 1 1
           (Webview.created_panel Webview.materialManagement Webview.sample_page)
           (Webview.created_panel Webview.materialManagement Webview.sample_page)
           reopened_reachable eq_refl eq_refl eq_refl eq_refl).
Defined.

Lemma subscriptions_never_shrink_witness :
  Webview.subscriptions reopened = 4%nat
  /\ forall i, Webview.subscriptions (Webview.dispose i reopened)
               = Webview.subscriptions reopened.
Proof.
  exact (subscriptions_never_shrink Webview.materialManagement Webview.sample_page reopened
           reopened_reachable).
Defined.
End Windows.
